(** * DirectEditOCR: the reconstruction pipeline of [overlay_from_json.py]

    A shallow embedding of the unit converter, the erase mask of the
    background reconstructor, the output path of the reconstructed image,
    the OCR adapter, the slide-deck and word-processor assemblers and the
    orchestrator [build_from_json], followed by the properties of the
    natural-language specification that concern them.

    The two tools that come before the pipeline are embedded as well: the
    handlers of the box annotator of [annotate_boxes.py] (module
    [Annotate]) and the page naming and the loop of [pdf_to_images.py]
    (module [PdfToImages]).  Their properties, and further properties of
    the pipeline, follow those of the specification.

    Numbers.  Pixel quantities are Python [int]s and are modelled by [Z].
    Python [float]s (the resolution, inches, points) are modelled by exact
    rationals [Q]: the rounding error of binary64 arithmetic is not part of
    this model.  Module [F64] evaluates the unit converter on the kernel's
    binary64 floats, so that concrete values can be compared with the
    running program. *)

From Stdlib Require Import ZArith QArith Qround Qabs Lia Lqa List String Ascii Bool.
From Stdlib Require Import Floats Uint63.
From Stdlib Require DecimalString DecimalNat.
From stdpp Require Import base list.
Import ListNotations.

Local Open Scope Z_scope.

(** ** Exceptions and results *)

(** The exceptions the pipeline can raise, by the Python class that carries
    them. *)
Inductive exn : Type :=
| ZeroDivisionError
| ValueError (msg : string)
| OverflowError (msg : string)
| RuntimeError (msg : string)
| KeyError (key : string)
| OSError (path : string)
| TesseractError.

Inductive result (A : Type) : Type :=
| Ok (a : A)
| Raise (e : exn).
Arguments Ok {A} a.
Arguments Raise {A} e.

Definition rbind {A B} (r : result A) (k : A -> result B) : result B :=
  match r with
  | Ok a => k a
  | Raise e => Raise e
  end.

Declare Scope result_scope.
Delimit Scope result_scope with result.
Notation "'do' x <- r ; k" := (rbind r (fun x => k))
  (at level 10, x name, r at level 100, k at level 200) : result_scope.

(** ** Unit converter (overlay_from_json.py, lines 26-28) *)

Definition EMU_PER_INCH : Z := 914400.

(** Python's [int(x)] on a float: truncation toward zero. *)
Definition py_int (x : Q) : Z := Z.quot (Qnum x) (Z.pos (Qden x)).

(** [px / dpi]: true division, which raises on a zero divisor. *)
Definition px_to_inches (px : Z) (dpi : Q) : result Q :=
  if Qeq_bool dpi 0 then Raise ZeroDivisionError
  else Ok (inject_Z px / dpi)%Q.

Definition px_to_emu (px : Z) (dpi : Q) : result Z :=
  (do inches <- px_to_inches px dpi;
   Ok (py_int (inches * inject_Z EMU_PER_INCH)))%result.


Definition toPhysical (px : Z) (dpi : Q) : Q := (inject_Z px / dpi)%Q.



(** Layout units mapped back to pixel space: divided by 914400, times the
    resolution. *)
Definition emu_to_px (emu : Z) (dpi : Q) : Q :=
  (inject_Z emu / inject_Z EMU_PER_INCH * dpi)%Q.

(** ** The unit converter on binary64 floats *)

Module F64.

(** [float(px)], exact for the integers below [2^53]. *)
Definition of_int (px : Z) : option float :=
  if Z.abs px <? 2 ^ 53 then
    Some (if px <? 0 then PrimFloat.opp (PrimFloat.of_uint63 (Uint63.of_Z (- px)))
          else PrimFloat.of_uint63 (Uint63.of_Z px))
  else None.

(** [int(x)]: the integer part of a finite float, an error on [nan] and on
    the infinities. *)
Definition trunc (s : spec_float) : result Z :=
  match s with
  | S754_zero _ => Ok 0
  | S754_finite sg m e =>
      let a := match e with
               | Z0 => Z.pos m
               | Zpos p => Z.pos m * 2 ^ Z.pos p
               | Zneg p => Z.pos m / 2 ^ Z.pos p
               end in
      Ok (if sg then - a else a)
  | S754_infinity _ => Raise (OverflowError "cannot convert float infinity to integer")
  | S754_nan => Raise (ValueError "cannot convert float NaN to integer")
  end.

Definition py_int (x : float) : result Z := trunc (Prim2SF x).

(** The rational number a finite float stands for. *)
Definition value (s : spec_float) : option Q :=
  match s with
  | S754_zero _ => Some 0%Q
  | S754_finite sg m e =>
      let sm := if sg then Z.neg m else Z.pos m in
      Some (match e with
            | Z0 => inject_Z sm
            | Zpos p => inject_Z (sm * 2 ^ Z.pos p)
            | Zneg p => (sm # Pos.pow 2 p)%Q
            end)
  | _ => None
  end.

Definition px_to_inches (px : Z) (dpi : float) : result float :=
  match of_int px with
  | None => Raise (ValueError "pixel value outside the exactly convertible range")
  | Some x =>
      if PrimFloat.eqb dpi 0%float then Raise ZeroDivisionError
      else Ok (PrimFloat.div x dpi)
  end.

Definition px_to_emu (px : Z) (dpi : float) : result Z :=
  (do inches <- px_to_inches px dpi;
   py_int (PrimFloat.mul inches 914400%float))%result.

End F64.

(** ** Regions and pages (the region file, read by [json.loads]) *)

(** One entry of ["boxes"]: a dict with the keys ["left"], ["top"],
    ["width"], ["height"], to which the orchestrator adds ["text"]. *)
Record Box : Type := mkBox {
  b_left : Z;
  b_top : Z;
  b_width : Z;
  b_height : Z;
  b_text : option string
}.

(** One entry of ["images"]. *)
Record ImageMeta : Type := mkImageMeta {
  im_path : string;
  im_width : Z;
  im_height : Z;
  im_boxes : list Box
}.

(** ** Erase mask of the background reconstructor
       (overlay_from_json.py, lines 34-42) *)

(** A single-channel [uint8] image: [h] rows of [w] values. *)
Abbreviation Mask := (list (list Z)).

(** [np.zeros((h, w), dtype=np.uint8)] *)
Definition zeros (h w : nat) : Mask := replicate h (replicate w 0).

(** The value at column [x] of row [y], when the pixel is in the image. *)
Definition pixel (mask : Mask) (x y : Z) : option Z :=
  if (x <? 0) || (y <? 0) then None
  else row ← mask !! Z.to_nat y; row !! Z.to_nat x.

Definition in_span (a b v : Z) : bool :=
  (Z.min a b <=? v) && (v <=? Z.max a b).

(** [cv2.rectangle(mask, pt1, pt2, color, thickness=-1)]: fills the
    rectangle whose opposite corners are [pt1] and [pt2], both corners
    included, whichever way round they are given; the part of it outside
    the image is clipped away. *)
Definition rectangle (mask : Mask) (pt1 pt2 : Z * Z) (color : Z) : Mask :=
  imap (fun y row =>
    imap (fun x v =>
      if in_span (fst pt1) (fst pt2) (Z.of_nat x)
         && in_span (snd pt1) (snd pt2) (Z.of_nat y)
      then color else v) row) mask.

Definition neighbourhood (x y : Z) : list (Z * Z) :=
  [ (x - 1, y - 1); (x, y - 1); (x + 1, y - 1);
    (x - 1, y);     (x, y);     (x + 1, y);
    (x - 1, y + 1); (x, y + 1); (x + 1, y + 1) ].

(** [cv2.dilate(mask, np.ones((3,3)), iterations=1)]: every pixel becomes the
    maximum over its 3x3 neighbourhood; neighbours outside the image do not
    take part (for [uint8] the same as taking them to be 0). *)
Definition dilate (mask : Mask) : Mask :=
  imap (fun y row =>
    imap (fun x (_ : Z) =>
      foldr Z.max 0
        (map (fun p => default 0 (pixel mask (fst p) (snd p)))
             (neighbourhood (Z.of_nat x) (Z.of_nat y)))) row) mask.

(** The corners the loop of [inpaint_background] computes for one box. *)
Definition box_x0 (expand_px : Z) (b : Box) : Z := Z.max 0 (b_left b - expand_px).
Definition box_y0 (expand_px : Z) (b : Box) : Z := Z.max 0 (b_top b - expand_px).
Definition box_x1 (w : nat) (expand_px : Z) (b : Box) : Z :=
  Z.min (Z.of_nat w) (b_left b + b_width b + expand_px).
Definition box_y1 (h : nat) (expand_px : Z) (b : Box) : Z :=
  Z.min (Z.of_nat h) (b_top b + b_height b + expand_px).

Definition fill_box (h w : nat) (expand_px : Z) (mask : Mask) (b : Box) : Mask :=
  rectangle mask (box_x0 expand_px b, box_y0 expand_px b)
                 (box_x1 w expand_px b, box_y1 h expand_px b) 255.

(** The mask handed to [cv2.inpaint]. *)
Definition erase_mask (h w : nat) (boxes : list Box) (expand_px : Z) : Mask :=
  dilate (fold_left (fill_box h w expand_px) boxes (zeros h w)).

(** A pixel is strictly inside the clamped margin rectangle of a box. *)
Definition strictly_inside (h w : nat) (expand_px : Z) (b : Box) (x y : Z) : Prop :=
  box_x0 expand_px b < x < box_x1 w expand_px b /\
  box_y0 expand_px b < y < box_y1 h expand_px b.

(** A pixel is in the dilated margin of a box: at most one pixel away, in
    each direction, from the rectangle spanned by the clamped corners. *)
Definition in_dilated_margin (h w : nat) (expand_px : Z) (b : Box) (x y : Z) : Prop :=
  Z.min (box_x0 expand_px b) (box_x1 w expand_px b) - 1 <= x
    <= Z.max (box_x0 expand_px b) (box_x1 w expand_px b) + 1 /\
  Z.min (box_y0 expand_px b) (box_y1 h expand_px b) - 1 <= y
    <= Z.max (box_y0 expand_px b) (box_y1 h expand_px b) + 1.

(** A coordinate clamped to the image: to [[0, n]]. *)
Definition clamp (n : nat) (v : Z) : Z := Z.max 0 (Z.min (Z.of_nat n) v).

(** The test [cv2.rectangle] makes for one box. *)
Definition filled (h w : nat) (m : Z) (b : Box) (x y : Z) : bool :=
  in_span (box_x0 m b) (box_x1 w m b) x && in_span (box_y0 m b) (box_y1 h m b) y.

(** The mask before dilation. *)
Definition filled_mask (h w : nat) (m : Z) (boxes : list Box) : Mask :=
  fold_left (fill_box h w m) boxes (zeros h w).

(** ** Paths: [str(Path(img_path).with_suffix(""))]
       (overlay_from_json.py, line 44; [pathlib] on a POSIX system) *)

Module PyPath.

Definition slash : ascii := "/"%char.
Definition dot : ascii := "."%char.

Definition is_slash (c : ascii) : bool := Ascii.eqb c slash.
Definition is_dot (c : ascii) : bool := Ascii.eqb c dot.

(** [s.split("/")] *)
Fixpoint split_sep (s : list ascii) : list (list ascii) :=
  match s with
  | [] => [[]]
  | c :: s' =>
      if is_slash c then [] :: split_sep s'
      else match split_sep s' with
           | [] => [[c]]
           | p :: ps => (c :: p) :: ps
           end
  end.

(** [s.lstrip("/")] *)
Fixpoint lstrip_sep (s : list ascii) : list ascii :=
  match s with
  | c :: s' => if is_slash c then lstrip_sep s' else s
  | [] => []
  end.

Definition is_empty (x : list ascii) : bool :=
  match x with [] => true | _ => false end.

Definition is_single_dot (x : list ascii) : bool :=
  match x with [c] => is_dot c | _ => false end.

(** A parsed pure path: the root (empty, one slash or two) and the
    components. *)
Record PurePath : Type := mkPath {
  root : list ascii;
  parts : list (list ascii)
}.

(** The root [splitroot] finds: two leading slashes are kept, one or more
    than two make a single slash. *)
Definition splitroot (s : list ascii) : list ascii * list ascii :=
  match s with
  | c :: _ =>
      if is_slash c then
        let rel := lstrip_sep s in
        if Nat.eqb (length s - length rel) 2 then ([slash; slash], rel)
        else ([slash], rel)
      else ([], s)
  | [] => ([], s)
  end.

(** A component is kept unless it is empty or a single dot. *)
Definition keep_part (x : list ascii) : bool :=
  negb (is_empty x) && negb (is_single_dot x).

(** [PurePosixPath(s)] *)
Definition parse (s : list ascii) : PurePath :=
  let '(r, rel) := splitroot s in
  mkPath r (List.filter keep_part (split_sep rel)).

(** ["/".join(parts)] *)
Fixpoint join_sep (ps : list (list ascii)) : list ascii :=
  match ps with
  | [] => []
  | [p] => p
  | p :: ps' => p ++ slash :: join_sep ps'
  end.

(** [str(path)] *)
Definition to_str (p : PurePath) : list ascii :=
  match root p, parts p with
  | [], [] => [dot]
  | r, ps => r ++ join_sep ps
  end.

(** [path.name]: the last component, empty when there is none. *)
Definition name (p : PurePath) : list ascii := List.last (parts p) [].

(** [s.rfind(".")]: the index of the last dot. *)
Fixpoint rfind_dot (s : list ascii) : option nat :=
  match s with
  | [] => None
  | c :: s' =>
      match rfind_dot s' with
      | Some i => Some (S i)
      | None => if is_dot c then Some 0%nat else None
      end
  end.

(** [path.suffix]: from the last dot of the name on, unless that dot is
    the first or the last character of the name. *)
Definition suffix (p : PurePath) : list ascii :=
  let n := name p in
  match rfind_dot n with
  | Some i =>
      if (0 <? i)%nat && (i <? length n - 1)%nat then drop i n else []
  | None => []
  end.

(** [path.with_suffix("")] *)
Definition with_suffix_empty (p : PurePath) : result PurePath :=
  let n := name p in
  if is_empty n then Raise (ValueError "path has an empty name")
  else
    let old_suffix := suffix p in
    let n' := if is_empty old_suffix then n
              else take (length n - length old_suffix) n in
    Ok (mkPath (root p) (removelast (parts p) ++ [n'])).

(** A component holds no slash. *)
Definition slash_free (p : list ascii) : Prop := Forall (fun c => is_slash c = false) p.

(** The text after the last slash. *)
Definition last_component (s : list ascii) : list ascii := List.last (split_sep s) [].

(** The directories of a joined path: every component but the last,
    each followed by a slash. *)
Definition dirs (ps : list (list ascii)) : list ascii :=
  List.concat (map (fun p => p ++ [slash]) ps).

(** The stem [with_suffix("")] leaves as the last component. *)
Definition stem (p : PurePath) : list ascii :=
  if is_empty (suffix p) then name p
  else take (length (name p) - length (suffix p)) (name p).

End PyPath.

Definition clean_suffix : string := "_clean.png".

(** The characters of ["_clean.png"]. *)
Definition clean_suffix_chars : list ascii := list_ascii_of_string clean_suffix.

(** [str(Path(img_path).with_suffix("")) + "_clean.png"] *)
Definition clean_path (img_path : string) : result string :=
  (do p <- PyPath.with_suffix_empty (PyPath.parse (list_ascii_of_string img_path));
   Ok (string_of_list_ascii (PyPath.to_str p) ++ clean_suffix)%string)%result.

(** ** Text: [str.strip()] (overlay_from_json.py, line 52) *)

(** The characters [str.isspace] accepts, among the code points below 256. *)
Definition is_space (c : ascii) : bool :=
  let n := nat_of_ascii c in
  ((9 <=? n) && (n <=? 13) || (28 <=? n) && (n <=? 32)
   || (n =? 133) || (n =? 160))%nat.

Fixpoint lstrip (s : string) : string :=
  match s with
  | String c s' => if is_space c then lstrip s' else s
  | EmptyString => EmptyString
  end.

Fixpoint rstrip (s : string) : string :=
  match s with
  | String c s' =>
      match rstrip s' with
      | EmptyString => if is_space c then EmptyString else String c EmptyString
      | t => String c t
      end
  | EmptyString => EmptyString
  end.

Definition strip (s : string) : string := rstrip (lstrip s).

(** Truth value of a Python [str]: false exactly on the empty string. *)
Definition str_truthy (s : string) : bool :=
  match s with EmptyString => false | _ => true end.

(** Truth value of an optional [str] argument ([None] or a string). *)
Definition opt_truthy (o : option string) : bool :=
  match o with Some s => str_truthy s | None => false end.

Definition placeholder : string := "[edit]".

(** ** Lengths of the document libraries *)

(** [pptx.util.Inches(x)], [docx.shared.Inches(x)]: a length in EMU,
    [int(x * 914400)]. *)
Definition Inches (x : Q) : Z := py_int (x * inject_Z EMU_PER_INCH).

(** [pptx.util.Pt(x)]: [int(x * 12700)]. *)
Definition Pt (x : Q) : Z := py_int (x * 12700).

(** [docx.shared.Emu(x)]: [int(x)]. *)
Definition Emu (x : Q) : Z := py_int x.

(** Python's [max(0.0, x)]. *)
Definition py_max0 (x : Q) : Q := if Qlt_le_dec 0 x then x else 0%Q.

(** ** The slide deck ([python-pptx] objects, as far as the code sets them) *)

Inductive MSO_ANCHOR := ANCHOR_TOP | ANCHOR_MIDDLE | ANCHOR_BOTTOM.
Inductive MSO_AUTO_SIZE := AUTO_NONE | SHAPE_TO_FIT_TEXT | TEXT_TO_FIT_SHAPE.
Inductive PP_ALIGN := ALIGN_LEFT | ALIGN_CENTER | ALIGN_RIGHT.

Record Font : Type := mkFont {
  font_name_of : option string;
  font_size_of : option Z
}.

Record Run : Type := mkRun {
  run_text : string;
  run_font : Font
}.

Record Paragraph : Type := mkParagraph {
  p_alignment : option PP_ALIGN;
  p_rtl : bool;
  p_space_before : option Z;
  p_space_after : option Z;
  p_line_spacing : option Q;
  p_runs : list Run
}.

Record TextFrame : Type := mkTextFrame {
  tf_word_wrap : option bool;
  tf_vertical_anchor : option MSO_ANCHOR;
  tf_margin_left : Z;
  tf_margin_right : Z;
  tf_margin_top : Z;
  tf_margin_bottom : Z;
  tf_auto_size : option MSO_AUTO_SIZE;
  tf_paragraphs : list Paragraph
}.

(** A rectangle in EMU: left, top, width, height. *)
Record Geometry : Type := mkGeometry {
  g_left : Z;
  g_top : Z;
  g_width : Z;
  g_height : Z
}.

Inductive Shape : Type :=
| Picture (image_file : string) (g : Geometry)
| AutoShape (autoshape_type_id : Z) (g : Geometry) (line_width : Z)
| TextBox (g : Geometry) (tf : TextFrame).

Record Slide : Type := mkSlide { shapes : list Shape }.

(** The slide size belongs to the presentation: all its slides share it. *)
Record Presentation : Type := mkPresentation {
  slide_width : Z;
  slide_height : Z;
  slides : list Slide
}.

(** [Presentation()]: the default template, 10 in x 7.5 in, no slide. *)
Definition new_presentation : Presentation := mkPresentation 9144000 6858000 [].

(** The width and height with which a slide of a presentation is shown. *)
Definition slide_size (prs : Presentation) (s : Slide) : Z * Z :=
  (slide_width prs, slide_height prs).

(** The text frame of a new text box, after [tf.clear()]: the default insets
    of the format and one empty paragraph. *)
Definition empty_paragraph : Paragraph := mkParagraph None false None None None [].
Definition cleared_text_frame : TextFrame :=
  mkTextFrame None None 91440 91440 45720 45720 None [empty_paragraph].

(** ** The word-processor document ([python-docx] objects) *)

Record DocxTextbox : Type := mkDocxTextbox {
  left_emu : Z;
  top_emu : Z;
  width_emu : Z;
  height_emu : Z;
  tb_text : string;
  tb_font_name : option string;
  tb_sz : option Z;
  tb_rtl : bool
}.

Inductive BodyItem : Type :=
| PageBreak
| TextboxParagraph (tb : DocxTextbox).

Record DocxSection : Type := mkDocxSection {
  page_width : Z;
  page_height : Z;
  left_margin : Z;
  right_margin : Z;
  top_margin : Z;
  bottom_margin : Z;
  header_pictures : list (string * Z * Z)
}.

(** A document has one section here: the code never adds another. *)
Record Document : Type := mkDocument {
  doc_section : DocxSection;
  doc_body : list BodyItem
}.

(** [Document()]: the default template, Letter size, empty body. *)
Definition new_document : Document :=
  mkDocument (mkDocxSection 7772400 10058400 1143000 1143000 914400 914400 []) [].

(** ** The outside world and the effects of a run *)

(** [im.crop((l, t, r, b))] of an opened image. *)
Record Crop : Type := mkCrop {
  crop_image : string;
  crop_rect : Z * Z * Z * Z
}.

(** What a run reads from its environment: the region file, the image files
    (through PIL and through OpenCV), the OCR engine, and whether an output
    path can be written. *)
Record World : Type := mkWorld {
  (** [json.loads(Path(json_path).read_text(encoding="utf-8"))["images"]] *)
  read_region_file : string -> result (list ImageMeta);
  (** [Image.open(path).convert("RGB").size] *)
  image_open : string -> result (Z * Z);
  (** [pytesseract.image_to_string(crop, lang=lang, config="--psm N")], with
      the engine command in force *)
  image_to_string : option string -> Crop -> string -> Z -> result string;
  (** [cv2.imread(path, cv2.IMREAD_COLOR).shape[:2]]: [(h, w)], or [None]
      when OpenCV cannot read the file *)
  imread_shape : string -> option (nat * nat);
  (** whether [save] can create the file *)
  can_write : string -> bool
}.

Inductive event : Type :=
| EvReadRegionFile (path : string)
| EvImageOpen (path : string)
| EvOcr (crop : Crop)
| EvImread (path : string)
| EvImwrite (path : string) (mask : Mask) (radius : Z)
| EvSavePptx (path : string) (prs : Presentation)
| EvSaveDocx (path : string) (doc : Document)
| EvPrint (msg : string).

(** A computation with effects: the value it returns or the exception it
    raises, and the trace of what it did, in order.  The world is only
    read, so a computation does not depend on what happened before it. *)
Definition M (A : Type) : Type := (result A * list event)%type.

Definition ret {A} (a : A) : M A := (Ok a, []).

Definition raise {A} (e : exn) : M A := (Raise e, []).

Definition bind {A B} (c : M A) (k : A -> M B) : M B :=
  match c with
  | (Ok a, t) => let '(r, t') := k a in (r, t ++ t')
  | (Raise e, t) => (Raise e, t)
  end.

Definition emit (e : event) : M unit := (Ok tt, [e]).

Definition lift {A} (r : result A) : M A := (r, []).

(** The outcome of a computation and the trace of what it did. *)
Definition outcome {A} (c : M A) : result A := fst c.
Definition trace {A} (c : M A) : list event := snd c.

Declare Scope M_scope.
Delimit Scope M_scope with M.
Notation "'do' x <- c ; k" := (bind c (fun x => k))
  (at level 10, x name, c at level 100, k at level 200) : M_scope.
Notation "c ;; k" := (bind c (fun _ => k))
  (at level 100, k at level 200, right associativity) : M_scope.

(** A [for] loop over a list that threads the loop's variables. *)
Fixpoint for_each {A S} (body : S -> A -> M S) (l : list A) (s : S) : M S :=
  match l with
  | [] => ret s
  | x :: l' => (do s' <- body s x; for_each body l' s')%M
  end.

Fixpoint for_each_r {A S} (body : S -> A -> result S) (l : list A) (s : S) : result S :=
  match l with
  | [] => Ok s
  | x :: l' => (do s' <- body s x; for_each_r body l' s')%result
  end.

(** [enumerate(l)] *)
Definition enumerate {A} (l : list A) : list (nat * A) := imap (fun i x => (i, x)) l.

(** ** Arguments of [build_from_json] *)

Record Args : Type := mkArgs {
  json_path : string;
  out_pptx : option string;
  out_docx : option string;
  dpi : Q;
  font_name : option string;
  font_size_pt : option Q;
  rtl : bool;
  erase : bool;
  expand_px : Z;
  radius : Z;
  ocr_prefill : bool;
  lang : string;
  tesseract_path : option string;
  psm : Z;
  ppt_autofit : bool;
  ppt_margin_pt : Q;
  debug_outline : bool
}.

(** An optional [float] argument when it is true: [None] and [0.0] are
    false. *)
Definition truthy_float (o : option Q) : option Q :=
  match o with
  | Some q => if Qeq_bool q 0 then None else Some q
  | None => None
  end.

(** The value of an optional string argument when it is true, [None] else. *)
Definition truthy_str (o : option string) : option string :=
  if opt_truthy o then o else None.

(** ** Background reconstruction (overlay_from_json.py, lines 31-46) *)

Definition inpaint_background (w : World) (img_path : string) (boxes : list Box)
    (expand_px radius : Z) : M string :=
  (emit (EvImread img_path) ;;
   match imread_shape w img_path with
   | None => raise (RuntimeError ("Could not read " ++ img_path))
   | Some (h, wd) =>
       let mask := erase_mask h wd boxes expand_px in
       do out_path <- lift (clean_path img_path);
       emit (EvImwrite out_path mask radius) ;;
       ret out_path
   end)%M.

(** ** OCR adapter (overlay_from_json.py, lines 49-52) *)

Definition ocr_crop (w : World) (cmd : option string) (pil_img : Crop)
    (lang : string) (psm : Z) : M string :=
  (emit (EvOcr pil_img) ;;
   do txt <- lift (image_to_string w cmd pil_img lang psm);
   ret (strip txt))%M.

(** ** Slide-deck assembler (overlay_from_json.py, lines 55-110) *)

Definition add_shape_to (slide : Slide) (s : Shape) : Slide :=
  mkSlide (shapes slide ++ [s]).

Definition add_pptx_bg (slide : Slide) (img_path : string) (w_in h_in : Q) : Slide :=
  add_shape_to slide
    (Picture img_path (mkGeometry (Inches 0) (Inches 0) (Inches w_in) (Inches h_in))).

(** The text frame of a new text box as lines 81-110 leave it: what the
    code does not assign keeps the value it had after [tf.clear()]. *)
Definition pptx_text_frame (margin_in : Q) (font_name : option string)
    (font_size_pt : option Q) (rtl ppt_autofit : bool) (b : Box) : TextFrame :=
  let tf := cleared_text_frame in
  let p0 := hd empty_paragraph (tf_paragraphs tf) in
  let f := mkFont
    (if opt_truthy font_name then font_name else None)
    (Some (match truthy_float font_size_pt with
           | Some sz => Pt sz
           | None => if ppt_autofit then Pt 80 else Pt 12
           end)) in
  let run := mkRun (default placeholder (b_text b)) f in
  let p := mkParagraph (Some ALIGN_LEFT) (if rtl then true else p_rtl p0)
                       (Some (Pt 0)) (Some (Pt 0)) (Some (105 # 100)%Q)
                       (p_runs p0 ++ [run]) in
  mkTextFrame (Some true) (Some ANCHOR_TOP)
    (Inches margin_in) (Inches margin_in) (Inches margin_in) (Inches margin_in)
    (if ppt_autofit then Some TEXT_TO_FIT_SHAPE else tf_auto_size tf)
    [p].

(** One turn of the loop of [add_pptx_text]. *)
Definition add_pptx_text_box (dpi margin_in : Q) (font_name : option string)
    (font_size_pt : option Q) (rtl ppt_autofit debug_outline : bool)
    (slide : Slide) (b : Box) : result Slide :=
  (do li <- px_to_inches (b_left b) dpi;
   do ti <- px_to_inches (b_top b) dpi;
   do wi <- px_to_inches (b_width b) dpi;
   do hi <- px_to_inches (b_height b) dpi;
   let g := mkGeometry (Inches li) (Inches ti) (Inches wi) (Inches hi) in
   let slide1 :=
     if debug_outline then add_shape_to slide (AutoShape 1 g (Pt (1 # 2)))
     else slide in
   Ok (add_shape_to slide1
         (TextBox g (pptx_text_frame margin_in font_name font_size_pt rtl ppt_autofit b))))%result.

Definition add_pptx_text (slide : Slide) (boxes : list Box) (dpi : Q)
    (font_name : option string) (font_size_pt : option Q) (rtl : bool)
    (ppt_autofit : bool) (ppt_margin_pt : Q) (debug_outline : bool) : result Slide :=
  let margin_in := (py_max0 ppt_margin_pt / 72)%Q in
  for_each_r
    (add_pptx_text_box dpi margin_in font_name font_size_pt rtl ppt_autofit debug_outline)
    boxes slide.

(** ** Word-processor assembler (overlay_from_json.py, lines 113-169) *)

Definition add_docx_bg_header (doc : Document) (img_path : string) : Document :=
  let s := doc_section doc in
  mkDocument
    (mkDocxSection (page_width s) (page_height s) (left_margin s) (right_margin s)
       (top_margin s) (bottom_margin s)
       (header_pictures s ++ [(img_path, page_width s, page_height s)]))
    (doc_body doc).

(** [doc.add_paragraph()] followed by [add_docx_textbox] on it. *)
Definition add_docx_textbox (doc : Document) (left_emu top_emu width_emu height_emu : Z)
    (text : string) (font_name : option string) (font_size_pt : option Q)
    (rtl : bool) : Document :=
  let tb := mkDocxTextbox left_emu top_emu width_emu height_emu text
    (if opt_truthy font_name then font_name else None)
    (match truthy_float font_size_pt with
     | Some sz => Some (py_int (sz * 2))
     | None => None
     end)
    rtl in
  mkDocument (doc_section doc) (doc_body doc ++ [TextboxParagraph tb]).

Definition add_page_break (doc : Document) : Document :=
  mkDocument (doc_section doc) (doc_body doc ++ [PageBreak]).

Definition set_page (doc : Document) (pw ph m : Z) : Document :=
  mkDocument
    (mkDocxSection pw ph m m m m (header_pictures (doc_section doc)))
    (doc_body doc).

(** ** Orchestrator (overlay_from_json.py, lines 172-240) *)

Definition set_text (b : Box) (t : string) : Box :=
  mkBox (b_left b) (b_top b) (b_width b) (b_height b) (Some t).

(** The engine command in force: [tesseract_path] when it is true. *)
Definition engine_cmd (a : Args) : option string := truthy_str (tesseract_path a).

(** One turn of the OCR prefill loop (lines 193-201). *)
Definition prefill_box (w : World) (a : Args) (img_path : string)
    (boxes : list Box) (b : Box) : M (list Box) :=
  (do bb <-
     (if ocr_prefill a then
        let crop := mkCrop img_path
          (b_left b, b_top b, b_left b + b_width b, b_top b + b_height b) in
        do txt <- ocr_crop w (engine_cmd a) crop (lang a) (psm a);
        ret (set_text b (if str_truthy txt then txt else placeholder))
      else ret (set_text b placeholder));
   ret (boxes ++ [bb]))%M.

(** The documents under construction: [prs] and [doc], each possibly [None]. *)
Record Docs : Type := mkDocs {
  prs_of : option Presentation;
  doc_of : option Document
}.

(** Lines 209-216: the slide of one page. *)
Definition pptx_page (a : Args) (prs : Presentation) (bg_path : string)
    (w_in h_in : Q) (boxes : list Box) : result Presentation :=
  let slide := add_pptx_bg (mkSlide []) bg_path w_in h_in in
  (do slide' <- add_pptx_text slide boxes (dpi a) (font_name a) (font_size_pt a)
                  (rtl a) (ppt_autofit a) (ppt_margin_pt a) (debug_outline a);
   Ok (mkPresentation (Inches w_in) (Inches h_in) (slides prs ++ [slide'])))%result.

(** One turn of the loop of lines 226-237. *)
Definition docx_box (a : Args) (doc : Document) (b : Box) : result Document :=
  (do l <- px_to_emu (b_left b) (dpi a);
   do t <- px_to_emu (b_top b) (dpi a);
   do wd <- px_to_emu (b_width b) (dpi a);
   do ht <- px_to_emu (b_height b) (dpi a);
   do txt <- match b_text b with
             | Some txt => Ok txt
             | None => Raise (KeyError "text")
             end;
   Ok (add_docx_textbox doc l t wd ht txt (font_name a) (font_size_pt a) (rtl a)))%result.

(** Lines 218-237: the page of one image. *)
Definition docx_page (a : Args) (i : nat) (doc : Document) (bg_path : string)
    (w_in h_in : Q) (boxes : list Box) : result Document :=
  let doc1 := if (0 <? i)%nat then add_page_break doc else doc in
  let doc2 := set_page doc1 (Emu (w_in * inject_Z EMU_PER_INCH))
                (Emu (h_in * inject_Z EMU_PER_INCH)) (Inches (1 # 4)) in
  let doc3 := add_docx_bg_header doc2 bg_path in
  for_each_r (docx_box a) boxes doc3.

(** The body of the loop over [enumerate(images)] (lines 186-237). *)
Definition build_page (w : World) (a : Args) (d : Docs) (it : nat * ImageMeta) : M Docs :=
  let '(i, imeta) := it in
  let img_path := im_path imeta in
  (emit (EvImageOpen img_path) ;;
   do size <- lift (image_open w img_path);
   let '(w_px, h_px) := size in
   do boxes <- for_each (prefill_box w a img_path) (im_boxes imeta) [];
   do bg_path <- (if erase a
                  then inpaint_background w img_path boxes (expand_px a) (radius a)
                  else ret img_path);
   do w_in <- lift (px_to_inches w_px (dpi a));
   do h_in <- lift (px_to_inches h_px (dpi a));
   do prs' <- match prs_of d with
              | Some prs =>
                  do p <- lift (pptx_page a prs bg_path w_in h_in boxes); ret (Some p)
              | None => ret None
              end;
   do doc' <- match doc_of d with
              | Some doc =>
                  do p <- lift (docx_page a i doc bg_path w_in h_in boxes); ret (Some p)
              | None => ret None
              end;
   ret (mkDocs prs' doc'))%M.

(** [prs.save(path)] and [doc.save(path)], then [print("Saved", path)]. *)
Definition save_pptx (w : World) (path : string) (prs : Presentation) : M unit :=
  (if can_write w path
   then emit (EvSavePptx path prs) ;; emit (EvPrint ("Saved " ++ path))
   else raise (OSError path))%M.

Definition save_docx (w : World) (path : string) (doc : Document) : M unit :=
  (if can_write w path
   then emit (EvSaveDocx path doc) ;; emit (EvPrint ("Saved " ++ path))
   else raise (OSError path))%M.

(** Lines 239-240: the documents that were built are written. *)
Definition save_outputs (w : World) (a : Args) (d : Docs) : M unit :=
  (match prs_of d, out_pptx a with
   | Some p, Some path => save_pptx w path p
   | _, _ => ret tt
   end ;;
   match doc_of d, out_docx a with
   | Some p, Some path => save_docx w path p
   | _, _ => ret tt
   end)%M.

(** The documents before the first page: [Presentation() if out_pptx else
    None] and [Document() if out_docx else None]. *)
Definition initial_docs (a : Args) : Docs :=
  mkDocs (if opt_truthy (out_pptx a) then Some new_presentation else None)
         (if opt_truthy (out_docx a) then Some new_document else None).

Definition build_from_json (w : World) (a : Args) : M unit :=
  (emit (EvReadRegionFile (json_path a)) ;;
   do images <- lift (read_region_file w (json_path a));
   do d <- for_each (build_page w a) (enumerate images) (initial_docs a);
   save_outputs w a d)%M.

(** ** Notions in which the properties are stated *)

(** [str(Path(img_path))] *)
Definition source_str (img_path : string) : string :=
  string_of_list_ascii (PyPath.to_str (PyPath.parse (list_ascii_of_string img_path))).

(** [Path(img_path).suffix] *)
Definition source_suffix (img_path : string) : string :=
  string_of_list_ascii (PyPath.suffix (PyPath.parse (list_ascii_of_string img_path))).

(** An event that writes an output document. *)
Definition is_save (e : event) : bool :=
  match e with
  | EvSavePptx _ _ | EvSaveDocx _ _ => true
  | _ => false
  end.

(** A trace in which no document is written. *)
Definition no_save (t : list event) : Prop := Forall (fun e => is_save e = false) t.

(** The crop handed to the engine for a box. *)
Definition crop_of (img_path : string) (b : Box) : Crop :=
  mkCrop img_path (b_left b, b_top b, b_left b + b_width b, b_top b + b_height b).

(** The box the prefill loop appends for a box. *)
Definition prefill_one (w : World) (a : Args) (img_path : string) (b : Box) : result Box :=
  if ocr_prefill a then
    rbind (image_to_string w (engine_cmd a) (crop_of img_path b) (lang a) (psm a))
      (fun txt => Ok (set_text b (if str_truthy (strip txt) then strip txt else placeholder)))
  else Ok (set_text b placeholder).

(** What the text of a prefilled box can be. *)
Definition prefilled (w : World) (a : Args) (img_path : string) (b bb : Box) : Prop :=
  (b_left bb, b_top bb, b_width bb, b_height bb)
    = (b_left b, b_top b, b_width b, b_height b) /\
  b_text bb <> Some EmptyString /\
  (ocr_prefill a = false -> b_text bb = Some "[edit]"%string) /\
  (ocr_prefill a = true ->
   exists txt,
     image_to_string w (engine_cmd a) (crop_of img_path b) (lang a) (psm a) = Ok txt /\
     (strip txt = EmptyString -> b_text bb = Some "[edit]"%string) /\
     (strip txt <> EmptyString -> b_text bb = Some (strip txt))).

(** The background a page is given: the reconstructed image when erasing
    is on, the image itself otherwise. *)
Definition bg_path_of (w : World) (a : Args) (img_path : string) : result string :=
  if erase a then
    match imread_shape w img_path with
    | Some _ => clean_path img_path
    | None => Raise (RuntimeError ("Could not read " ++ img_path))
    end
  else Ok img_path.

(** The outcome of one turn of the loop over the images. *)
Definition page_step (w : World) (a : Args) (d : Docs) (it : nat * ImageMeta) : result Docs :=
  (do size <- image_open w (im_path (snd it));
   do boxes <- outcome (for_each (prefill_box w a (im_path (snd it))) (im_boxes (snd it)) []);
   do bg_path <- bg_path_of w a (im_path (snd it));
   do w_in <- px_to_inches (fst size) (dpi a);
   do h_in <- px_to_inches (snd size) (dpi a);
   do prs' <- match prs_of d with
              | Some prs => do p <- pptx_page a prs bg_path w_in h_in boxes; Ok (Some p)
              | None => Ok None
              end;
   do doc' <- match doc_of d with
              | Some doc => do p <- docx_page a (fst it) doc bg_path w_in h_in boxes; Ok (Some p)
              | None => Ok None
              end;
   Ok (mkDocs prs' doc'))%result.

(** The per-page work of an image cannot fail: the image opens, the engine
    answers for every region when OCR prefill is on, and OpenCV reads the
    image, which has a file name, when erasing is on. *)
Definition page_ok (w : World) (a : Args) (im : ImageMeta) : Prop :=
  (exists size, image_open w (im_path im) = Ok size) /\
  (ocr_prefill a = true ->
   forall b, In b (im_boxes im) ->
     exists txt,
       image_to_string w (engine_cmd a) (crop_of (im_path im) b) (lang a) (psm a) = Ok txt) /\
  (erase a = true ->
   (exists shape, imread_shape w (im_path im) = Some shape) /\
   PyPath.name (PyPath.parse (list_ascii_of_string (im_path im))) <> []).

(** The rectangle of a box in layout units. *)
Definition box_geometry (dpi : Q) (b : Box) : Geometry :=
  mkGeometry (Inches (toPhysical (b_left b) dpi)) (Inches (toPhysical (b_top b) dpi))
             (Inches (toPhysical (b_width b) dpi)) (Inches (toPhysical (b_height b) dpi)).

(** A shape, when it is a text box. *)
Definition as_text_box (s : Shape) : option (Geometry * TextFrame) :=
  match s with TextBox g tf => Some (g, tf) | _ => None end.

(** The image file of a shape, when it is a picture. *)
Definition as_picture (s : Shape) : option string :=
  match s with Picture f _ => Some f | _ => None end.

(** The text boxes of a slide, in the order of its shape tree. *)
Definition slide_text_boxes (s : Slide) : list (Geometry * TextFrame) :=
  omap as_text_box (shapes s).

(** The image files of the pictures of a slide. *)
Definition slide_image_files (s : Slide) : list string := omap as_picture (shapes s).

(** The text of a text frame: that of its runs, in order. *)
Definition frame_text (tf : TextFrame) : string :=
  String.concat "" (flat_map (fun p => map run_text (p_runs p)) (tf_paragraphs tf)).

(** The shapes one turn of the loop of [add_pptx_text] adds. *)
Definition box_shapes (dpi margin_in : Q) (font_name : option string)
    (font_size_pt : option Q) (rtl ppt_autofit debug_outline : bool) (b : Box) : list Shape :=
  (if debug_outline then [AutoShape 1 (box_geometry dpi b) (Pt (1 # 2))] else [])
  ++ [TextBox (box_geometry dpi b)
        (pptx_text_frame margin_in font_name font_size_pt rtl ppt_autofit b)].

(** Position, size and text of the regions of a page, in order, as the
    assemblers receive them. *)
Definition page_summary (a : Args) (bbs : list Box) : list (Geometry * string) :=
  map (fun bb => (box_geometry (dpi a) bb, default placeholder (b_text bb))) bbs.

(** Position, size and text of the text boxes of a slide, in order. *)
Definition slide_summary (s : Slide) : list (Geometry * string) :=
  map (fun x => (fst x, frame_text (snd x))) (slide_text_boxes s).

(** The rectangle of a text box of the word-processor document. *)
Definition tb_geometry (tb : DocxTextbox) : Geometry :=
  mkGeometry (left_emu tb) (top_emu tb) (width_emu tb) (height_emu tb).

(** Position, size and text of the text boxes of a page, in order. *)
Definition docx_summary (tbs : list DocxTextbox) : list (Geometry * string) :=
  map (fun tb => (tb_geometry tb, tb_text tb)) tbs.

(** A slide is the slide of an image: its picture is the background of the
    image and its text boxes are the regions of the image, in their order. *)
Definition slide_of_page (w : World) (a : Args) (im : ImageMeta) (s : Slide) : Prop :=
  exists bg bbs,
    bg_path_of w a (im_path im) = Ok bg /\
    Forall2 (prefilled w a (im_path im)) (im_boxes im) bbs /\
    slide_image_files s = [bg] /\
    slide_summary s = page_summary a bbs.

(** The text boxes of one page of the word-processor document are the
    regions of an image, in their order. *)
Definition docx_of_page (w : World) (a : Args) (im : ImageMeta)
    (tbs : list DocxTextbox) : Prop :=
  exists bbs,
    Forall2 (prefilled w a (im_path im)) (im_boxes im) bbs /\
    docx_summary tbs = page_summary a bbs.

(** The body of a document whose pages hold the given text boxes: page
    [k + j] starts with a page break unless it is page 0. *)
Definition join_pages_from (k : nat) (pages : list (list DocxTextbox)) : list BodyItem :=
  List.concat
    (imap (fun j tbs => (if (0 <? k + j)%nat then [PageBreak] else [])
                        ++ map TextboxParagraph tbs) pages).

(** The body of a document from its first page on. *)
Definition join_pages (pages : list (list DocxTextbox)) : list BodyItem :=
  join_pages_from 0 pages.

(** [enumerate(l, start=k)] *)
Definition enumerate_from {A} (k : nat) (l : list A) : list (nat * A) :=
  imap (fun j x => ((k + j)%nat, x)) l.

(** The presentations a trace saves, in order. *)
Definition saved_presentations (t : list event) : list Presentation :=
  omap (fun e => match e with EvSavePptx _ prs => Some prs | _ => None end) t.

(** The physical size of a page image in layout units: its width and its
    height in pixels, each divided by the resolution. *)
Definition page_physical_size (dpi : Q) (size : Z * Z) : Z * Z :=
  (Inches (toPhysical (fst size) dpi), Inches (toPhysical (snd size) dpi)).

(** ** A concrete run, for evaluation *)

Module Demo.

Local Open Scope string_scope.

Definition nl : string := String "010"%char EmptyString.

(** Two pages of different pixel sizes. *)
Definition page1 : ImageMeta :=
  mkImageMeta "pages/page_001.png" 600 300
    [mkBox 300 150 60 12 None; mkBox 30 200 120 40 None].

Definition page2 : ImageMeta :=
  mkImageMeta "pages/page_002.png" 300 600 [mkBox 10 20 30 40 None].

Definition images : list ImageMeta := [page1; page2].

(** What the engine reads in each crop: text in the first region of the
    first page, blank space in its second region, nothing on the second
    page. *)
Definition engine_reads (c : Crop) : string :=
  if (crop_image c =? "pages/page_001.png") && (fst (fst (fst (crop_rect c))) =? 300)%Z
  then " Hello" ++ nl
  else if (crop_image c =? "pages/page_001.png") then "  " ++ nl ++ " "
  else "".

Definition world : World :=
  mkWorld
    (fun path => if path =? "boxes.json" then Ok images else Raise (OSError path))
    (fun path => if path =? "pages/page_001.png" then Ok (600, 300)%Z
                 else if path =? "pages/page_002.png" then Ok (300, 600)%Z
                 else Raise (OSError path))
    (fun _ c _ _ => Ok (engine_reads c))
    (fun path => if path =? "pages/page_001.png" then Some (300, 600)%nat
                 else if path =? "pages/page_002.png" then Some (600, 300)%nat
                 else None)
    (fun _ => true).

(** The same world with an engine that fails on the crops without text. *)
Definition world_engine_fails : World :=
  mkWorld (read_region_file world) (image_open world)
    (fun _ c _ _ => if engine_reads c =? " Hello" ++ nl then Ok (engine_reads c)
                    else Raise TesseractError)
    (imread_shape world) (can_write world).

(** The defaults of the command line, with the given outputs and toggles. *)
Definition args (pptx docx : option string) (ocr : bool) : Args :=
  mkArgs "boxes.json" pptx docx 300 None None false
         false 2 3 ocr "eng" None 6 false (3 # 2) false.

(** One region on a small page, for the erase mask and the assembler. *)
Definition small_boxes : list Box := [mkBox 3 2 2 1 None].


End Demo.

(** * Further notions *)

(** ** Erase mask *)

(** A pixel of the image. *)
Definition in_image (h w : nat) (x y : Z) : bool :=
  (0 <=? x) && (x <? Z.of_nat w) && (0 <=? y) && (y <? Z.of_nat h).

(** Some pixel of the image next to [(x, y)], or [(x, y)] itself, is filled
    for some box. *)
Definition near_fill (h w : nat) (m : Z) (boxes : list Box) (x y : Z) : bool :=
  existsb (fun p => in_image h w (fst p) (snd p)
                    && existsb (fun b => filled h w m b (fst p) (snd p)) boxes)
          (neighbourhood x y).

(** Every value of a mask is 0 or 255 and the mask has [h] rows of [w]
    values. *)
Definition binary_mask (h w : nat) (mask : Mask) : Prop :=
  length mask = h /\
  Forall (fun row => length row = w /\ Forall (fun v => v = 0 \/ v = 255) row) mask.

(** ** Kinds of events *)

(** An event that calls the OCR engine. *)
Definition is_ocr (e : event) : bool :=
  match e with EvOcr _ => true | _ => false end.

(** An event that reads or writes an image file through OpenCV. *)
Definition is_opencv (e : event) : bool :=
  match e with EvImread _ | EvImwrite _ _ _ => true | _ => false end.

(** A trace without events of a kind. *)
Definition never (kind : event -> bool) (t : list event) : Prop :=
  Forall (fun e => kind e = false) t.

(** The documents a trace saves, in order: the path of each with whether it
    is the slide deck. *)
Definition saved_files (t : list event) : list (string * bool) :=
  omap (fun e => match e with
                 | EvSavePptx path _ => Some (path, true)
                 | EvSaveDocx path _ => Some (path, false)
                 | _ => None
                 end) t.

(** The word-processor documents a trace saves, in order. *)
Definition saved_documents (t : list event) : list Document :=
  omap (fun e => match e with EvSaveDocx _ doc => Some doc | _ => None end) t.

(** The text boxes of the body of a document, page by page: a page break
    starts a new page. *)
Fixpoint split_pages (body : list BodyItem) : list (list DocxTextbox) :=
  match body with
  | [] => [[]]
  | PageBreak :: rest => [] :: split_pages rest
  | TextboxParagraph tb :: rest =>
      match split_pages rest with
      | page :: pages => (tb :: page) :: pages
      | [] => [[tb]]
      end
  end.

(** The documents a run is asked for, in the order of lines 239-240: the
    slide deck, then the word-processor document. *)
Definition requested_files (a : Args) : list (string * bool) :=
  match truthy_str (out_pptx a) with Some p => [(p, true)] | None => [] end
  ++ match truthy_str (out_docx a) with Some q => [(q, false)] | None => [] end.


(** A region without its text. *)
Definition without_text (b : Box) : Box :=
  mkBox (b_left b) (b_top b) (b_width b) (b_height b) None.

(** The record of an image with the recorded width and height set to
    zero and the texts of its regions removed. *)
Definition bare_record (im : ImageMeta) : ImageMeta :=
  mkImageMeta (im_path im) 0 0 (map without_text (im_boxes im)).

(** The world in which every region file holds the bare records only. *)
Definition with_bare_records (w : World) : World :=
  mkWorld
    (fun path => match read_region_file w path with
                 | Ok images => Ok (map bare_record images)
                 | Raise e => Raise e
                 end)
    (image_open w) (image_to_string w) (imread_shape w) (can_write w).

(** * The box annotator (annotate_boxes.py) *)

(** The annotator keeps its state in the fields of one object, which the
    handlers of the window's events update in place.  A handler is a
    function from the state to the state it leaves behind and the exception
    it raised, if any: an exception leaves the assignments made before it
    in place.  Floats are exact rationals, as in the converter.  The items
    drawn on the canvas are not modelled, only what the handlers read
    back. *)

Module Annotate.

(** What a handler can raise. *)
Inductive error : Type :=
| IndexError
| ZeroDivision
| OpenError (path : string).

Record State : Type := mkState {
  images : list string;
  out_json : string;
  index : nat;
  zoom : Q;
  (** one record per image: path, width, height and the boxes drawn *)
  data : list ImageMeta;
  scale : Q;
  (** the size of [self.img], [None] before the first image is loaded *)
  img : option (Z * Z);
  rect_start : option (Q * Q);
  (** whether the rubber band is on the canvas ([self.rect_id]) *)
  rect_id : bool;
  selected_idx : option nat;
  (** [winfo_width()] and [winfo_height()] of the canvas *)
  canvas : Z * Z
}.

Definition Handler : Type := State -> State * option error.

Definition set_index (s : State) (i : nat) : State :=
  mkState (images s) (out_json s) i (zoom s) (data s) (scale s) (img s)
          (rect_start s) (rect_id s) (selected_idx s) (canvas s).

Definition set_zoom (s : State) (z : Q) : State :=
  mkState (images s) (out_json s) (index s) z (data s) (scale s) (img s)
          (rect_start s) (rect_id s) (selected_idx s) (canvas s).

Definition set_data (s : State) (d : list ImageMeta) : State :=
  mkState (images s) (out_json s) (index s) (zoom s) d (scale s) (img s)
          (rect_start s) (rect_id s) (selected_idx s) (canvas s).

Definition set_scale (s : State) (sc : Q) : State :=
  mkState (images s) (out_json s) (index s) (zoom s) (data s) sc (img s)
          (rect_start s) (rect_id s) (selected_idx s) (canvas s).

Definition set_img (s : State) (i : option (Z * Z)) : State :=
  mkState (images s) (out_json s) (index s) (zoom s) (data s) (scale s) i
          (rect_start s) (rect_id s) (selected_idx s) (canvas s).

Definition set_rect_start (s : State) (r : option (Q * Q)) : State :=
  mkState (images s) (out_json s) (index s) (zoom s) (data s) (scale s) (img s)
          r (rect_id s) (selected_idx s) (canvas s).

Definition set_rect_id (s : State) (r : bool) : State :=
  mkState (images s) (out_json s) (index s) (zoom s) (data s) (scale s) (img s)
          (rect_start s) r (selected_idx s) (canvas s).

Definition set_selected_idx (s : State) (i : option nat) : State :=
  mkState (images s) (out_json s) (index s) (zoom s) (data s) (scale s) (img s)
          (rect_start s) (rect_id s) i (canvas s).

Definition set_canvas (s : State) (c : Z * Z) : State :=
  mkState (images s) (out_json s) (index s) (zoom s) (data s) (scale s) (img s)
          (rect_start s) (rect_id s) (selected_idx s) c.

(** Python's [max(a, b)] and [min(a, b)] on floats. *)
Definition py_max (a b : Q) : Q := if Qlt_le_dec a b then b else a.
Definition py_min (a b : Q) : Q := if Qlt_le_dec b a then b else a.

(** [a < b] on floats. *)
Definition py_lt (a b : Q) : bool := negb (Qle_bool b a).

(** [self.data[self.index]["boxes"]] *)
Definition boxes (s : State) : option (list Box) := im_boxes <$> data s !! index s.

(** The page records with the boxes of the current page replaced. *)
Definition with_boxes (s : State) (bs : list Box) : State :=
  set_data s (alter (fun im => mkImageMeta (im_path im) (im_width im) (im_height im) bs)
                    (index s) (data s)).

(** Lines 103-137. *)
Definition _render : Handler := fun s =>
  match img s with
  | None => (s, None)
  | Some (iw, ih) =>
      let cw := Z.max 1 (fst (canvas s)) in
      let ch := Z.max 1 (snd (canvas s)) in
      if (iw =? 0) || (ih =? 0) then (s, Some ZeroDivision)
      else
        let best_fit := py_min (inject_Z cw / inject_Z iw)%Q (inject_Z ch / inject_Z ih)%Q in
        let s1 := set_scale s (py_max (1 # 1000) (best_fit * zoom s))%Q in
        match data s1 !! index s1, images s1 !! index s1 with
        | Some _, Some _ => (s1, None)
        | _, _ => (s1, Some IndexError)
        end
  end.

(** Lines 90-92. *)
Definition _zoom (factor : Q) : Handler := fun s =>
  _render (set_zoom s (py_max (2 # 10) (py_min 6 (zoom s * factor)))%Q).

(** Lines 94-96; the window has the canvas size the event brings. *)
Definition _on_resize (size : Z * Z) : Handler := fun s => _render (set_canvas s size).

(** Lines 98-101; [open] is [Image.open(path).convert("RGB").size]. *)
Definition _load_image (open : string -> option (Z * Z)) : Handler := fun s =>
  match images s !! index s with
  | None => (s, Some IndexError)
  | Some img_path =>
      match open img_path with
      | None => (s, Some (OpenError img_path))
      | Some size => _render (set_img s (Some size))
      end
  end.

(** The test of line 191 for one box. *)
Definition hits (sc x y : Q) (b : Box) : bool :=
  let x0 := (inject_Z (b_left b) * sc)%Q in
  let y0 := (inject_Z (b_top b) * sc)%Q in
  let x1 := (inject_Z (b_left b + b_width b) * sc)%Q in
  let y1 := (inject_Z (b_top b + b_height b) * sc)%Q in
  Qle_bool x0 x && Qle_bool x x1 && Qle_bool y0 y && Qle_bool y y1.

(** The loop of lines 187-193 from box [i] on. *)
Fixpoint first_hit (sc x y : Q) (i : nat) (bs : list Box) : option nat :=
  match bs with
  | [] => None
  | b :: rest => if hits sc x y b then Some i else first_hit sc x y (S i) rest
  end.

(** Lines 186-193. *)
Definition _hit_test (s : State) (x y : Q) : error + option nat :=
  match boxes s with
  | None => inl IndexError
  | Some bs => inr (first_hit (scale s) x y 0 bs)
  end.

(** Lines 142-149. *)
Definition _on_down (cx cy : Q) : Handler := fun s =>
  match _hit_test s cx cy with
  | inl e => (s, Some e)
  | inr (Some i) => _render (set_selected_idx s (Some i))
  | inr None =>
      let s1 := set_rect_start (set_selected_idx s None) (Some (cx, cy)) in
      (if rect_id s1 then set_rect_id s1 false else s1, None)
  end.

(** Lines 151-158. *)
Definition _on_drag (cx cy : Q) : Handler := fun s =>
  match rect_start s with
  | None => (s, None)
  | Some _ => (set_rect_id s true, None)
  end.

(** Lines 160-179. *)
Definition _on_up (cx cy : Q) : Handler := fun s =>
  match rect_start s with
  | None => (s, None)
  | Some (x0, y0) =>
      let s1 := set_rect_start s None in
      if py_lt (Qabs (cx - x0)) 5 || py_lt (Qabs (cy - y0)) 5
      then (if rect_id s1 then set_rect_id s1 false else s1, None)
      else if Qeq_bool (scale s1) 0 then (s1, Some ZeroDivision)
      else
        let left := py_int (py_min x0 cx / scale s1)%Q in
        let top := py_int (py_min y0 cy / scale s1)%Q in
        let width := py_int (Qabs (cx - x0) / scale s1)%Q in
        let height := py_int (Qabs (cy - y0) / scale s1)%Q in
        match boxes s1 with
        | None => (s1, Some IndexError)
        | Some bs =>
            let s2 := with_boxes s1 (bs ++ [mkBox left top width height None]) in
            _render (if rect_id s2 then set_rect_id s2 false else s2)
        end
  end.

(** Lines 181-184. *)
Definition _on_right_click (cx cy : Q) : Handler := fun s =>
  match _hit_test s cx cy with
  | inl e => (s, Some e)
  | inr i => _render (set_selected_idx s i)
  end.

(** Lines 195-197. *)
Definition undo : Handler := fun s =>
  match boxes s with
  | None => (s, Some IndexError)
  | Some [] => (s, None)
  | Some bs => _render (with_boxes s (removelast bs))
  end.

(** Lines 199-202. *)
Definition delete_selected : Handler := fun s =>
  match selected_idx s with
  | None => (s, None)
  | Some i =>
      match boxes s with
      | None => (s, Some IndexError)
      | Some bs =>
          if (i <? length bs)%nat
          then _render (set_selected_idx (with_boxes s (delete i bs)) None)
          else (s, None)
      end
  end.

(** Lines 204-206. *)
Definition next (open : string -> option (Z * Z)) : Handler := fun s =>
  if (Z.of_nat (index s) <? Z.of_nat (length (images s)) - 1)
  then _load_image open (set_selected_idx (set_index s (S (index s))) None)
  else (s, None).

(** Lines 208-210. *)
Definition prev (open : string -> option (Z * Z)) : Handler := fun s =>
  if (0 <? index s)%nat
  then _load_image open (set_selected_idx (set_index s (Nat.pred (index s))) None)
  else (s, None).

(** Lines 212-214: the path written and the value of the key ["images"]
    of the object written to it. *)
Definition save (s : State) : string * list ImageMeta := (out_json s, data s).

(** Lines 22-27 for one image. *)
Definition record_of (open : string -> option (Z * Z)) (p : string) : error + ImageMeta :=
  match open p with
  | Some (w, h) => inr (mkImageMeta p w h [])
  | None => inl (OpenError p)
  end.

Fixpoint records_of (open : string -> option (Z * Z)) (ps : list string)
    : error + list ImageMeta :=
  match ps with
  | [] => inr []
  | p :: rest =>
      match record_of open p with
      | inl e => inl e
      | inr r =>
          match records_of open rest with
          | inl e => inl e
          | inr rs => inr (r :: rs)
          end
      end
  end.

(** Lines 16-81: the state with which the main loop starts; the canvas has
    the size [size] when the first image is loaded. *)
Definition init (open : string -> option (Z * Z)) (size : Z * Z) (images : list string)
    (out_json : string) (init_zoom : Q) : error + State :=
  match records_of open images with
  | inl e => inl e
  | inr d =>
      let s := mkState images out_json 0 init_zoom d 1 None None false None size in
      match _load_image open s with
      | (s', None) => inr s'
      | (_, Some e) => inl e
      end
  end.

(** The events the window is bound to (lines 57-79). *)
Inductive Event : Type :=
| Configure (size : Z * Z)
| Button1 (cx cy : Q)
| B1Motion (cx cy : Q)
| ButtonRelease1 (cx cy : Q)
| Button3 (cx cy : Q)
| KeyPlus
| KeyMinus
| KeyN
| KeyP
| KeyS
| KeyZ
| KeyD.

(** The handler bound to an event.  [save] changes nothing of the state. *)
Definition handler (open : string -> option (Z * Z)) (ev : Event) : Handler :=
  match ev with
  | Configure size => _on_resize size
  | Button1 cx cy => _on_down cx cy
  | B1Motion cx cy => _on_drag cx cy
  | ButtonRelease1 cx cy => _on_up cx cy
  | Button3 cx cy => _on_right_click cx cy
  | KeyPlus => _zoom (115 # 100)%Q
  | KeyMinus => _zoom (1 / (115 # 100))%Q
  | KeyN => next open
  | KeyP => prev open
  | KeyS => fun s => (s, None)
  | KeyZ => undo
  | KeyD => delete_selected
  end.

(** The main loop over the events that arrive before the window is closed
    with [Q] or [Esc]: the toolkit reports an exception of a handler and
    goes on with the state the handler left.  The result is the last state
    and the exceptions reported. *)
Fixpoint mainloop (open : string -> option (Z * Z)) (evs : list Event) (s : State)
    : State * list error :=
  match evs with
  | [] => (s, [])
  | ev :: rest =>
      let '(s1, e) := handler open ev s in
      let '(s2, es) := mainloop open rest s1 in
      (s2, match e with Some x => x :: es | None => es end)
  end.

(** [quit] after the events: what is written to the output file. *)
Definition session (open : string -> option (Z * Z)) (evs : list Event) (s : State)
    : string * list ImageMeta :=
  save (fst (mainloop open evs s)).

(** The state is consistent: the current page exists, every image has its
    record, the scale is positive and the loaded image has a positive
    size. *)
Definition consistent (s : State) : Prop :=
  (index s < length (images s))%nat /\
  length (data s) = length (images s) /\
  (0 < scale s)%Q /\
  match img s with
  | Some (iw, ih) => 0 < iw /\ 0 < ih
  | None => True
  end.

(** Every image that opens has a positive width and height. *)
Definition positive_sizes (open : string -> option (Z * Z)) : Prop :=
  forall p iw ih, open p = Some (iw, ih) -> 0 < iw /\ 0 < ih.

(** A page record without its boxes. *)
Definition page_of (im : ImageMeta) : string * Z * Z :=
  (im_path im, im_width im, im_height im).

(** A box as the annotator makes it: no text, a width and a height that
    are not negative. *)
Definition drawn_box (b : Box) : Prop :=
  0 <= b_width b /\ 0 <= b_height b /\ b_text b = None.

(** Every box of every page is one. *)
Definition drawn_boxes (d : list ImageMeta) : Prop :=
  Forall (fun im => Forall drawn_box (im_boxes im)) d.

(** The exception of an image that does not open. *)
Definition is_open_error (e : error) : bool :=
  match e with OpenError _ => true | _ => false end.


(** The state after a handler is consistent, lists the same pages and
    holds boxes of the annotator's making; the handler raised nothing, or
    the error of an image that does not open. *)
Definition kept (s : State) (r : State * option error) : Prop :=
  consistent (fst r) /\
  images (fst r) = images s /\ out_json (fst r) = out_json s /\
  map page_of (data (fst r)) = map page_of (data s) /\
  (drawn_boxes (data s) -> drawn_boxes (data (fst r))) /\
  match snd r with Some e => is_open_error e = true | None => True end.

End Annotate.

(** * Pages of a PDF as images (pdf_to_images.py) *)

Module PdfToImages.

Local Open Scope string_scope.

(** [str(i)] for a number that is not negative. *)
Definition decimal (i : nat) : string :=
  DecimalString.NilEmpty.string_of_uint (Nat.to_uint i).

(** [n] zeros. *)
Fixpoint zeros (n : nat) : string :=
  match n with
  | O => ""
  | S n' => String "0" (zeros n')
  end.

(** [f"{i:03d}"]: the decimal digits, with zeros in front up to a width
    of three. *)
Definition format_03d (i : nat) : string :=
  zeros (3 - String.length (decimal i)) ++ decimal i.

(** [f"page_{i:03d}.{fmt}"] *)
Definition page_name (i : nat) (fmt : string) : string :=
  "page_" ++ format_03d i ++ "." ++ fmt.

(** [posixpath.join(a, b)], with which [pathlib] joins the segments of a
    path. *)
Definition posix_join (a b : list ascii) : list ascii :=
  if match b with c :: _ => PyPath.is_slash c | [] => false end then b
  else if PyPath.is_empty a || PyPath.is_slash (List.last a PyPath.dot) then a ++ b
  else a ++ PyPath.slash :: b.

(** [(Path(outdir) / f"page_{i:03d}.{fmt}").as_posix()] *)
Definition page_file (outdir : string) (i : nat) (fmt : string) : string :=
  string_of_list_ascii
    (PyPath.to_str
       (PyPath.parse (posix_join (list_ascii_of_string outdir)
                                 (list_ascii_of_string (page_name i fmt))))).

(** What the converter reads from its environment: creating the output
    folder, the number of pages of the PDF, and writing the pixmap of a
    page, rendered at a resolution, to a file. *)
Record World : Type := mkWorld {
  mkdir : string -> result unit;
  open_pdf : string -> result nat;
  save_pixmap : nat -> Z -> string -> result unit
}.

Inductive event : Type :=
| EvMkdir (path : string)
| EvOpen (pdf_path : string)
| EvSave (page : nat) (dpi : Z) (path : string)
| EvPrint (msg : string).

(** The loop of lines 9-13 over the pages [i], [i+1], ..., [i+n-1]. *)
Fixpoint save_pages (w : World) (outdir : string) (dpi : Z) (fmt : string)
    (i n : nat) : result unit * list event :=
  match n with
  | O => (Ok tt, [])
  | S n' =>
      let out := page_file outdir i fmt in
      match save_pixmap w i dpi out with
      | Raise e => (Raise e, [EvSave i dpi out])
      | Ok _ =>
          let '(r, t) := save_pages w outdir dpi fmt (S i) n' in
          (r, EvSave i dpi out :: EvPrint ("Saved " ++ out) :: t)
      end
  end.

(** Lines 5-14. *)
Definition pdf_to_pngs (w : World) (pdf_path outdir : string) (dpi : Z) (fmt : string)
    : result unit * list event :=
  let dir := source_str outdir in
  match mkdir w dir with
  | Raise e => (Raise e, [EvMkdir dir])
  | Ok _ =>
      match open_pdf w pdf_path with
      | Raise e => (Raise e, [EvMkdir dir; EvOpen pdf_path])
      | Ok n =>
          let '(r, t) := save_pages w outdir dpi fmt 1 n in
          (r, EvMkdir dir :: EvOpen pdf_path
              :: t ++ match r with Ok _ => [EvPrint "Done."] | Raise _ => [] end)
      end
  end.

(** The files a trace writes, in order. *)
Definition saved_paths (t : list event) : list string :=
  omap (fun e => match e with EvSave _ _ p => Some p | _ => None end) t.

(** One string comes before another in the order of [sorted]. *)
Definition before (a b : string) : Prop := String.compare a b = Lt.

(** The first string has a smaller character than the second at the first
    place where they differ, before either ends. *)
Fixpoint strictly_before (a b : string) : bool :=
  match a, b with
  | String c a', String d b' =>
      match Ascii.compare c d with
      | Lt => true
      | Eq => strictly_before a' b'
      | Gt => false
      end
  | _, _ => false
  end.

(** Every string of a list is so before all that follow it. *)
Fixpoint ascending (l : list string) : bool :=
  match l with
  | [] => true
  | a :: rest => forallb (strictly_before a) rest && ascending rest
  end.

End PdfToImages.

(** ** Further concrete cases, for evaluation *)

Module Cases.

Local Open Scope string_scope.

(** A third page, whose image file is not there. *)
Definition missing_page : ImageMeta := mkImageMeta "pages/page_003.png" 100 100 [].

Definition world_missing_page : World :=
  mkWorld
    (fun path => if path =? "boxes.json" then Ok (Demo.images ++ [missing_page])%list
                 else Raise (OSError path))
    (image_open Demo.world) (image_to_string Demo.world) (imread_shape Demo.world)
    (can_write Demo.world).

(** A resolution of zero, with OCR prefill and erasing on. *)
Definition args_zero_dpi : Args :=
  mkArgs "boxes.json" (Some "out.pptx") None 0 None None false
         true 2 3 true "eng" None 6 false (3 # 2) false.


(** Both documents, with OCR prefill. *)
Definition both : Args := Demo.args (Some "out.pptx") (Some "out.docx") true.

(** Two regions, and the same two in another order with one repeated. *)
Definition two_boxes : list Box := [mkBox 3 2 2 1 None; mkBox 0 0 1 1 None].

Definition two_boxes_again : list Box :=
  [mkBox 0 0 1 1 None; mkBox 3 2 2 1 None; mkBox 0 0 1 1 None].

(** Two scans for the annotator. *)
Definition open_scans (p : string) : option (Z * Z) :=
  if p =? "scans/a.png" then Some (600, 300)%Z
  else if p =? "scans/b.png" then Some (300, 600)%Z
  else None.

(** The state with which the annotator starts on them. *)
Definition start : Annotate.State :=
  match Annotate.init open_scans (800, 600) ["scans/a.png"; "scans/b.png"]
          "boxes.json" (3 # 2) with
  | inr s => s
  | inl _ => Annotate.mkState [] "" 0 1 [] 1 None None false None (1, 1)
  end.

(** The mouse button is down at (100, 100). *)
Definition pressed : Annotate.State := fst (Annotate._on_down 100 100 start).


(** A session: a box on the first page, a box on the second page that is
    undone, a box that is selected and deleted, a drag too short to count. *)
Definition events : list Annotate.Event :=
  [Annotate.Button1 100 100; Annotate.B1Motion 150 150; Annotate.ButtonRelease1 200 180;
   Annotate.KeyN; Annotate.KeyPlus;
   Annotate.Button1 10 10; Annotate.ButtonRelease1 90 70; Annotate.KeyZ;
   Annotate.Button1 20 20; Annotate.ButtonRelease1 80 90;
   Annotate.Button3 30 30; Annotate.KeyD;
   Annotate.KeyN; Annotate.KeyP; Annotate.Configure (1024, 768);
   Annotate.Button1 300 300; Annotate.ButtonRelease1 302 390; Annotate.KeyS].

(** A PDF of three pages in a world where every file can be written. *)
Definition pdf_world : PdfToImages.World :=
  PdfToImages.mkWorld
    (fun _ => Ok tt)
    (fun p => if p =? "in.pdf" then Ok 3%nat else Raise (RuntimeError ("cannot open " ++ p)))
    (fun _ _ _ => Ok tt).

End Cases.

(** * Properties *)

(** ** Unit converter *)

Section UnitConverter.

Local Open Scope Q_scope.













End UnitConverter.

(** ** Erase mask *)

Section MaskCoverage.

Variables (h w : nat) (m : Z).

Lemma pixel_in_image (mask : Mask) (x y : Z) :
  0 <= x -> 0 <= y ->
  pixel mask x y = (mask !! Z.to_nat y) ≫= (fun row => row !! Z.to_nat x).
Proof.
  intros Hx Hy. unfold pixel.
  destruct (x <? 0) eqn:Ex; [lia|]. destruct (y <? 0) eqn:Ey; [lia|]. reflexivity.
Qed.

Lemma pixel_outside (mask : Mask) (x y : Z) :
  x < 0 \/ y < 0 -> pixel mask x y = None.
Proof.
  intros H. unfold pixel.
  destruct (x <? 0) eqn:Ex; [reflexivity|]. destruct (y <? 0) eqn:Ey; [reflexivity|]. lia.
Qed.

Lemma pixel_zeros (x y : Z) :
  0 <= x < Z.of_nat w -> 0 <= y < Z.of_nat h -> pixel (zeros h w) x y = Some 0.
Proof.
  intros Hx Hy. rewrite pixel_in_image by lia. unfold zeros.
  rewrite lookup_replicate_2 by lia. simpl.
  rewrite lookup_replicate_2 by lia. reflexivity.
Qed.

Lemma pixel_zeros_inv (x y v : Z) :
  pixel (zeros h w) x y = Some v ->
  v = 0 /\ 0 <= x < Z.of_nat w /\ 0 <= y < Z.of_nat h.
Proof.
  intros H. destruct (Z_lt_le_dec x 0); [rewrite pixel_outside in H by lia; discriminate|].
  destruct (Z_lt_le_dec y 0); [rewrite pixel_outside in H by lia; discriminate|].
  rewrite pixel_in_image in H by lia. unfold zeros in H.
  destruct (replicate h (replicate w 0) !! Z.to_nat y) as [row|] eqn:Er; [|discriminate].
  apply lookup_replicate in Er as [-> Hh]. simpl in H.
  apply lookup_replicate in H as [-> Hw]. lia.
Qed.

Lemma pixel_rectangle (mask : Mask) (p1 p2 : Z * Z) (c x y : Z) :
  pixel (rectangle mask p1 p2 c) x y
  = (fun v => if in_span (fst p1) (fst p2) x && in_span (snd p1) (snd p2) y
              then c else v) <$> pixel mask x y.
Proof.
  destruct (Z_lt_le_dec x 0); [rewrite !pixel_outside by lia; reflexivity|].
  destruct (Z_lt_le_dec y 0); [rewrite !pixel_outside by lia; reflexivity|].
  rewrite !pixel_in_image by lia. unfold rectangle.
  rewrite list_lookup_imap.
  destruct (mask !! Z.to_nat y) as [row|]; [|reflexivity]. simpl.
  rewrite list_lookup_imap, !Z2Nat.id by lia. reflexivity.
Qed.

Lemma pixel_fill_boxes (boxes : list Box) (mask : Mask) (x y : Z) :
  pixel (fold_left (fill_box h w m) boxes mask) x y
  = (fun v => if existsb (fun b => filled h w m b x y) boxes then 255 else v)
      <$> pixel mask x y.
Proof.
  revert mask. induction boxes as [|b boxes IH]; intros mask; simpl.
  - now destruct (pixel mask x y).
  - rewrite IH. unfold fill_box. rewrite pixel_rectangle. simpl.
    fold (filled h w m b x y).
    destruct (pixel mask x y) as [v|]; [|reflexivity]. simpl.
    destruct (filled h w m b x y); simpl; [|reflexivity].
    now destruct (existsb _ boxes).
Qed.

Lemma filled_mask_value (boxes : list Box) (x y : Z) :
  default 0 (pixel (filled_mask h w m boxes) x y) = 0 \/
  (default 0 (pixel (filled_mask h w m boxes) x y) = 255 /\
   0 <= x < Z.of_nat w /\ 0 <= y < Z.of_nat h /\
   exists b, In b boxes /\ filled h w m b x y = true).
Proof.
  unfold filled_mask. rewrite pixel_fill_boxes.
  destruct (pixel (zeros h w) x y) as [v|] eqn:E; [|now left]. simpl.
  apply pixel_zeros_inv in E as (-> & Hx & Hy).
  destruct (existsb _ boxes) eqn:Ex; [|now left].
  right. split; [reflexivity|]. split; [exact Hx|]. split; [exact Hy|].
  apply existsb_exists in Ex. exact Ex.
Qed.


Lemma pixel_dilate (mask : Mask) (x y : Z) :
  pixel (dilate mask) x y
  = (fun _ => foldr Z.max 0
                (map (fun p => default 0 (pixel mask (fst p) (snd p)))
                     (neighbourhood x y))) <$> pixel mask x y.
Proof.
  destruct (Z_lt_le_dec x 0); [rewrite !pixel_outside by lia; reflexivity|].
  destruct (Z_lt_le_dec y 0); [rewrite !pixel_outside by lia; reflexivity|].
  rewrite !pixel_in_image by lia. unfold dilate.
  rewrite list_lookup_imap.
  destruct (mask !! Z.to_nat y) as [row|]; [|reflexivity]. simpl.
  rewrite list_lookup_imap, !Z2Nat.id by lia. reflexivity.
Qed.



(** Strictly inside the corners the code computes is strictly inside the
    rectangle with all four coordinates clamped to the image. *)
Lemma strictly_inside_clamped (b : Box) (x y : Z) :
  strictly_inside h w m b x y <->
  clamp w (b_left b - m) < x < clamp w (b_left b + b_width b + m) /\
  clamp h (b_top b - m) < y < clamp h (b_top b + b_height b + m).
Proof.
  unfold strictly_inside, clamp, box_x0, box_x1, box_y0, box_y1. lia.
Qed.

(** When the corners of a box come in order, its dilated margin is the
    rectangle between them grown by one pixel on every side. *)
Lemma in_dilated_margin_ordered (b : Box) (x y : Z) :
  box_x0 m b <= box_x1 w m b -> box_y0 m b <= box_y1 h m b ->
  (in_dilated_margin h w m b x y <->
   box_x0 m b - 1 <= x <= box_x1 w m b + 1 /\
   box_y0 m b - 1 <= y <= box_y1 h m b + 1).
Proof. unfold in_dilated_margin. lia. Qed.

(** A pixel stays unmarked when no box fills a pixel of the image next to
    it. *)
Lemma unmarked_without_fill (boxes : list Box) (x y : Z) :
  (forall b x' y', In b boxes ->
     x - 1 <= x' <= x + 1 -> y - 1 <= y' <= y + 1 ->
     0 <= x' < Z.of_nat w -> 0 <= y' < Z.of_nat h ->
     filled h w m b x' y' = false) ->
  pixel (erase_mask h w boxes m) x y <> Some 255.
Proof.
  intros Hout. unfold erase_mask. fold (filled_mask h w m boxes). rewrite pixel_dilate.
  destruct (pixel (filled_mask h w m boxes) x y) as [v|]; [|discriminate]. simpl.
  assert (Hz : forall x' y', x - 1 <= x' <= x + 1 -> y - 1 <= y' <= y + 1 ->
                 default 0 (pixel (filled_mask h w m boxes) x' y') = 0).
  { intros x' y' Hx Hy.
    destruct (filled_mask_value boxes x' y') as [H0 | (_ & Hx' & Hy' & b & Hin & Hf)];
      [exact H0|].
    rewrite (Hout b x' y' Hin Hx Hy Hx' Hy') in Hf. discriminate. }
  rewrite !Hz by lia. discriminate.
Qed.


(** With a non-negative margin and regions of non-negative position and
    size, the corners need not be taken in order: a pixel more than one
    pixel away from the rectangle between the corners the code computes,
    for every region, is not marked. *)
Lemma unmarked_outside_margins (boxes : list Box) (x y : Z) :
  0 <= m ->
  Forall (fun b => 0 <= b_left b /\ 0 <= b_top b /\ 0 <= b_width b /\ 0 <= b_height b)
         boxes ->
  (forall b, In b boxes ->
     ~ (box_x0 m b - 1 <= x <= box_x1 w m b + 1 /\
        box_y0 m b - 1 <= y <= box_y1 h m b + 1)) ->
  pixel (erase_mask h w boxes m) x y <> Some 255.
Proof.
  intros Hm Hpos Hout. apply unmarked_without_fill.
  intros b x' y' Hin Hx Hy Hx' Hy'.
  destruct (filled h w m b x' y') eqn:Hf; [|reflexivity].
  exfalso. apply (Hout b Hin).
  rewrite List.Forall_forall in Hpos. specialize (Hpos b Hin).
  unfold filled, in_span in Hf.
  apply andb_prop in Hf as [H1 H2].
  apply andb_prop in H1 as [H1 H1']. apply andb_prop in H2 as [H2 H2'].
  apply Z.leb_le in H1, H1', H2, H2'.
  unfold box_x0, box_x1, box_y0, box_y1 in *. lia.
Qed.

End MaskCoverage.

(** ** The path of the reconstructed image *)

Module PyPathFacts.
Import PyPath.

Lemma split_sep_nonempty (s : list ascii) : split_sep s <> [].
Proof.
  destruct s as [|c s]; simpl; [discriminate|].
  destruct (is_slash c); [discriminate|]. now destruct (split_sep s).
Qed.

Lemma split_sep_slash_free (s : list ascii) : Forall slash_free (split_sep s).
Proof.
  induction s as [|c s IH]; simpl.
  - repeat constructor.
  - destruct (is_slash c) eqn:E.
    + constructor; [constructor | exact IH].
    + destruct (split_sep s) as [|p ps]; [repeat constructor; exact E|].
      inversion IH; subst. constructor; [|assumption].
      constructor; assumption.
Qed.

Lemma split_sep_of_slash_free (s : list ascii) : slash_free s -> split_sep s = [s].
Proof.
  induction 1 as [|c s Hc Hs IH]; simpl; [reflexivity|].
  now rewrite Hc, IH.
Qed.

Lemma last_cons_nonempty {A} (x : A) (l : list A) (d : A) :
  l <> [] -> List.last (x :: l) d = List.last l d.
Proof. destruct l; [congruence | reflexivity]. Qed.

Lemma join_split (s : list ascii) : join_sep (split_sep s) = s.
Proof.
  induction s as [|c s IH]; simpl; [reflexivity|].
  destruct (is_slash c) eqn:E.
  - apply Ascii.eqb_eq in E. subst c.
    pose proof (split_sep_nonempty s) as Hne.
    destruct (split_sep s) as [|p ps]; [congruence|].
    simpl in *. now rewrite IH.
  - pose proof (split_sep_nonempty s) as Hne.
    destruct (split_sep s) as [|p ps]; [congruence|].
    destruct ps; simpl in *; now rewrite <- IH.
Qed.

Lemma slash_free_app (a b : list ascii) :
  slash_free a -> slash_free b -> slash_free (a ++ b).
Proof. apply Forall_app_2. Qed.

Lemma not_slash_free_middle (a b : list ascii) : ~ slash_free (a ++ slash :: b).
Proof.
  intros H. apply Forall_app in H as [_ H]. inversion H; subst. discriminate.
Qed.

Lemma last_component_after_slash (a b : list ascii) :
  slash_free b -> last_component (a ++ slash :: b) = b.
Proof.
  intros Hb. unfold last_component. induction a as [|c a IH]; simpl.
  - rewrite (split_sep_of_slash_free b Hb). reflexivity.
  - destruct (is_slash c).
    + rewrite last_cons_nonempty by apply split_sep_nonempty. exact IH.
    + pose proof (join_split (a ++ slash :: b)) as Hj.
      pose proof (split_sep_slash_free (a ++ slash :: b)) as Hf.
      pose proof (split_sep_nonempty (a ++ slash :: b)) as Hne.
      destruct (split_sep (a ++ slash :: b)) as [|p ps]; [congruence|].
      destruct ps as [|q ps].
      * exfalso. simpl in Hj. inversion Hf; subst.
        eapply not_slash_free_middle. rewrite <- Hj. eassumption.
      * exact IH.
Qed.

Lemma last_component_lstrip (s : list ascii) :
  last_component (lstrip_sep s) = last_component s.
Proof.
  unfold last_component. induction s as [|c s IH]; simpl; [reflexivity|].
  destruct (is_slash c) eqn:E; [|simpl; now rewrite E].
  rewrite last_cons_nonempty by apply split_sep_nonempty. exact IH.
Qed.

Lemma last_In {A} (l : list A) (d : A) : l <> [] -> In (List.last l d) l.
Proof.
  induction l as [|x l IH]; [congruence|]. intros _.
  destruct l as [|y l]; [now left|].
  right. apply IH. discriminate.
Qed.

Lemma last_filter {A} (f : A -> bool) (l : list A) (d : A) :
  f (List.last l d) = true -> List.last (List.filter f l) d = List.last l d.
Proof.
  induction l as [|x l IH]; [reflexivity|].
  destruct l as [|y l].
  - simpl. intros ->. reflexivity.
  - intros H. change (List.last (x :: y :: l) d) with (List.last (y :: l) d) in *.
    specialize (IH H).
    change (List.filter f (x :: y :: l))
      with (if f x then x :: List.filter f (y :: l) else List.filter f (y :: l)).
    destruct (f x); [|exact IH].
    rewrite last_cons_nonempty; [exact IH|].
    intros Hnil.
    assert (Hin : In (List.last (y :: l) d) (List.filter f (y :: l))).
    { apply filter_In. split; [apply last_In; discriminate | exact H]. }
    rewrite Hnil in Hin. contradiction.
Qed.

Lemma last_component_splitroot (s : list ascii) :
  last_component (snd (splitroot s)) = last_component s.
Proof.
  unfold splitroot. destruct s as [|c s]; [reflexivity|].
  destruct (is_slash c) eqn:E; [|reflexivity].
  destruct (Nat.eqb _ 2); unfold snd; apply last_component_lstrip.
Qed.

(** The name of a parsed path is the text after the last slash, unless
    that text is empty or a single dot. *)
Lemma name_parse (s : list ascii) :
  keep_part (last_component s) = true -> name (parse s) = last_component s.
Proof.
  intros Hk. unfold parse, name.
  pose proof (last_component_splitroot s) as Hl.
  destruct (splitroot s) as [r rel]. simpl in *.
  unfold last_component in *. rewrite <- Hl in *.
  now apply last_filter.
Qed.

Lemma parse_parts_slash_free (s : list ascii) : Forall slash_free (parts (parse s)).
Proof.
  unfold parse. destruct (splitroot s) as [r rel]. simpl.
  pose proof (split_sep_slash_free rel) as H.
  rewrite List.Forall_forall in *. intros x Hx. apply filter_In in Hx as [Hx _]. auto.
Qed.

Lemma parse_root (s : list ascii) :
  root (parse s) = [] \/ exists r, root (parse s) = r ++ [slash].
Proof.
  unfold parse, splitroot. destruct s as [|c s]; [now left|].
  destruct (is_slash c); [|now left].
  destruct (Nat.eqb _ 2); simpl; right; [now exists [slash] | now exists []].
Qed.

Lemma join_sep_snoc (ps : list (list ascii)) (x : list ascii) :
  join_sep (ps ++ [x]) = dirs ps ++ x.
Proof.
  induction ps as [|p ps IH]; [reflexivity|].
  change (join_sep ((p :: ps) ++ [x])) with (join_sep (p :: (ps ++ [x]))).
  unfold dirs in *. simpl.
  destruct (ps ++ [x]) eqn:E; [now destruct ps|].
  rewrite IH, <- !app_assoc. reflexivity.
Qed.

Lemma dirs_end (ps : list (list ascii)) :
  dirs ps = [] \/ exists r, dirs ps = r ++ [slash].
Proof.
  induction ps as [|p ps IH] using rev_ind; [now left|].
  right. unfold dirs. rewrite map_app, concat_app. simpl.
  rewrite app_nil_r, app_assoc. eauto.
Qed.

Lemma to_str_snoc (r : list ascii) (ps : list (list ascii)) (x : list ascii) :
  to_str (mkPath r (ps ++ [x])) = (r ++ dirs ps) ++ x.
Proof.
  unfold to_str. simpl root. simpl parts. rewrite <- app_assoc, <- join_sep_snoc.
  destruct r; [|reflexivity]. now destruct (ps ++ [x]) eqn:E; [destruct ps|].
Qed.

Lemma last_component_to_str (r : list ascii) (ps : list (list ascii)) (x t : list ascii) :
  (r = [] \/ exists r', r = r' ++ [slash]) ->
  slash_free (x ++ t) ->
  last_component (to_str (mkPath r (ps ++ [x])) ++ t) = x ++ t.
Proof.
  intros Hr Hx. rewrite to_str_snoc, <- app_assoc.
  assert (Hd : r ++ dirs ps = [] \/ exists a, r ++ dirs ps = a ++ [slash]).
  { destruct (dirs_end ps) as [-> | (d & ->)].
    - rewrite app_nil_r. exact Hr.
    - right. exists (r ++ d). now rewrite app_assoc. }
  destruct Hd as [-> | (a & ->)].
  - simpl. unfold last_component. now rewrite split_sep_of_slash_free.
  - rewrite <- app_assoc. simpl. now apply last_component_after_slash.
Qed.

Lemma rfind_dot_drop (n : list ascii) (i : nat) :
  rfind_dot n = Some i -> exists rest, drop i n = dot :: rest.
Proof.
  revert i. induction n as [|c n IH]; intros i; simpl; [discriminate|].
  destruct (rfind_dot n) as [j|].
  - intros [= <-]. simpl. now apply IH.
  - destruct (is_dot c) eqn:E; [|discriminate].
    intros [= <-]. apply Ascii.eqb_eq in E. subst. simpl. eauto.
Qed.

Lemma rfind_dot_lt (n : list ascii) (i : nat) :
  rfind_dot n = Some i -> (i < length n)%nat.
Proof.
  intros H. apply rfind_dot_drop in H as (rest & H).
  destruct (Nat.lt_ge_cases i (length n)) as [Hlt|Hge]; [exact Hlt|].
  rewrite drop_ge in H by lia. discriminate.
Qed.

(** The suffix is empty or starts with a dot, and the name is the stem
    followed by the suffix. *)
Lemma suffix_cases (p : PurePath) :
  (suffix p = [] \/ exists rest, suffix p = dot :: rest) /\
  take (length (name p) - length (suffix p)) (name p) ++ suffix p = name p.
Proof.
  unfold suffix. destruct (rfind_dot (name p)) as [i|] eqn:E.
  - destruct ((0 <? i)%nat && (i <? length (name p) - 1)%nat).
    + split; [right; now apply rfind_dot_drop|].
      pose proof (rfind_dot_lt _ _ E) as Hlt.
      rewrite length_drop.
      replace (length (name p) - (length (name p) - i))%nat with i by lia.
      apply take_drop.
    + split; [now left|]. simpl. rewrite Nat.sub_0_r, firstn_all, app_nil_r. reflexivity.
  - split; [now left|]. simpl. rewrite Nat.sub_0_r, firstn_all, app_nil_r. reflexivity.
Qed.

Lemma stem_suffix (p : PurePath) : stem p ++ suffix p = name p.
Proof.
  unfold stem. destruct (suffix_cases p) as [_ H].
  destruct (suffix p) eqn:E; simpl is_empty; cbv iota; [|exact H].
  apply app_nil_r.
Qed.

Lemma with_suffix_empty_cases (p : PurePath) :
  (name p = [] /\ exists e, with_suffix_empty p = Raise e) \/
  (name p <> [] /\
   with_suffix_empty p = Ok (mkPath (root p) (removelast (parts p) ++ [stem p])) /\
   parts p = removelast (parts p) ++ [name p]).
Proof.
  unfold with_suffix_empty, stem.
  destruct (name p) eqn:En; simpl is_empty; cbv iota.
  - left. eauto.
  - right. split; [discriminate|]. split; [reflexivity|].
    rewrite <- En. unfold name in *. apply app_removelast_last.
    intros Hnil. rewrite Hnil in En. discriminate.
Qed.

Lemma name_slash_free (s : list ascii) : slash_free (name (parse s)).
Proof.
  unfold name. destruct (parts (parse s)) as [|x l] eqn:E; [constructor|].
  pose proof (parse_parts_slash_free s) as H. rewrite E in H.
  rewrite List.Forall_forall in H. apply H. apply last_In. discriminate.
Qed.

Lemma stem_slash_free (s : list ascii) : slash_free (stem (parse s)).
Proof.
  pose proof (name_slash_free s) as H. rewrite <- stem_suffix in H.
  now apply Forall_app in H as [H _].
Qed.

Lemma clean_slash_free : slash_free clean_suffix_chars.
Proof. repeat constructor. Qed.

Lemma keep_part_clean (x : list ascii) : keep_part (x ++ clean_suffix_chars) = true.
Proof.
  destruct x as [|c x]; [reflexivity|].
  unfold keep_part. simpl. destruct x; reflexivity.
Qed.

(** The stripped path followed by the suffix is the source path, as
    [str(Path(img_path))] writes it. *)
Lemma stripped_then_suffix (s : list ascii) (p' : PurePath) :
  with_suffix_empty (parse s) = Ok p' ->
  to_str p' ++ suffix (parse s) = to_str (parse s).
Proof.
  intros H. destruct (with_suffix_empty_cases (parse s)) as [(_ & e & He) | (_ & Hok & Hp)];
    [congruence|].
  rewrite Hok in H. injection H as <-.
  rewrite to_str_snoc, <- app_assoc, stem_suffix.
  rewrite <- to_str_snoc. destruct (parse s) as [r ps]. simpl in *. now rewrite <- Hp.
Qed.

(** The output path is never the source path. *)
Lemma clean_differs (s : list ascii) (p' : PurePath) :
  with_suffix_empty (parse s) = Ok p' -> to_str p' ++ clean_suffix_chars <> s.
Proof.
  intros H Heq.
  destruct (with_suffix_empty_cases (parse s)) as [(_ & e & He) | (_ & Hok & _)];
    [congruence|].
  rewrite Hok in H. injection H as <-.
  assert (Hl : last_component s = stem (parse s) ++ clean_suffix_chars).
  { rewrite <- Heq at 1. apply last_component_to_str; [apply parse_root|].
    apply slash_free_app; [apply stem_slash_free | apply clean_slash_free]. }
  assert (Hn : name (parse s) = stem (parse s) ++ clean_suffix_chars).
  { rewrite <- Hl. apply name_parse. rewrite Hl. apply keep_part_clean. }
  rewrite <- stem_suffix in Hn. apply app_inv_head in Hn.
  destruct (suffix_cases (parse s)) as [[Hs | (rest & Hs)] _];
    rewrite Hs in Hn; discriminate.
Qed.

End PyPathFacts.

Lemma list_ascii_of_string_app (a b : string) :
  list_ascii_of_string (a ++ b) = list_ascii_of_string a ++ list_ascii_of_string b.
Proof. induction a as [|c a IH]; simpl; [reflexivity | now rewrite IH]. Qed.

Lemma string_of_list_ascii_app (a b : list ascii) :
  string_of_list_ascii (a ++ b) = (string_of_list_ascii a ++ string_of_list_ascii b)%string.
Proof. induction a as [|c a IH]; simpl; [reflexivity | now rewrite IH]. Qed.

Lemma clean_path_ok (img_path out : string) :
  clean_path img_path = Ok out ->
  out <> img_path /\
  exists stripped : string,
    (stripped ++ source_suffix img_path)%string = source_str img_path /\
    out = (stripped ++ "_clean.png")%string.
Proof.
  unfold clean_path, rbind.
  destruct (PyPath.with_suffix_empty _) as [p'|e] eqn:E; [|discriminate].
  intros [= <-]. split.
  - intros Heq. apply (PyPathFacts.clean_differs _ _ E).
    apply (f_equal list_ascii_of_string) in Heq.
    rewrite list_ascii_of_string_app, list_ascii_of_string_of_list_ascii in Heq.
    exact Heq.
  - exists (string_of_list_ascii (PyPath.to_str p')). split; [|reflexivity].
    unfold source_suffix, source_str.
    rewrite <- string_of_list_ascii_app. f_equal.
    now apply PyPathFacts.stripped_then_suffix.
Qed.

Lemma clean_path_total (img_path : string) :
  PyPath.name (PyPath.parse (list_ascii_of_string img_path)) <> [] ->
  exists out, clean_path img_path = Ok out.
Proof.
  intros Hn. unfold clean_path.
  destruct (PyPathFacts.with_suffix_empty_cases (PyPath.parse (list_ascii_of_string img_path)))
    as [(H0 & _) | (_ & Hok & _)]; [contradiction|].
  rewrite Hok. simpl. eauto.
Qed.

(** ** Outcomes and traces of computations *)

Section Effects.

Context {A B : Type}.

Lemma outcome_bind (c : M A) (k : A -> M B) :
  outcome (bind c k) = rbind (outcome c) (fun a => outcome (k a)).
Proof.
  unfold outcome, bind. destruct c as [[a|e] t]; simpl; [|reflexivity].
  now destruct (k a).
Qed.

Lemma trace_bind (c : M A) (k : A -> M B) :
  trace (bind c k)
  = trace c ++ match outcome c with Ok a => trace (k a) | Raise _ => [] end.
Proof.
  unfold trace, outcome, bind. destruct c as [[a|e] t]; simpl.
  - now destruct (k a).
  - now rewrite app_nil_r.
Qed.

Lemma outcome_lift (r : result A) : outcome (lift r) = r.
Proof. reflexivity. Qed.

Lemma trace_lift (r : result A) : trace (lift r) = [].
Proof. reflexivity. Qed.

Lemma outcome_ret (a : A) : outcome (ret a) = Ok a.
Proof. reflexivity. Qed.

Lemma trace_ret (a : A) : trace (ret a) = [].
Proof. reflexivity. Qed.

End Effects.

Section Loops.

Context {A B : Type}.

Lemma outcome_for_each (body : B -> A -> M B) (l : list A) (s : B) :
  outcome (for_each body l s) = for_each_r (fun s x => outcome (body s x)) l s.
Proof.
  revert s. induction l as [|x l IH]; intros s; simpl; [reflexivity|].
  rewrite outcome_bind. destruct (outcome (body s x)); simpl; [apply IH | reflexivity].
Qed.

(** A loop in which some turn raises whatever the loop variables are
    raises. *)
Lemma for_each_r_raises (body : B -> A -> result B) (l : list A) (x : A) (s : B) :
  In x l -> (forall s', exists e, body s' x = Raise e) ->
  exists e, for_each_r body l s = Raise e.
Proof.
  intros Hin Hx. revert s. induction l as [|y l IH]; intros s; [contradiction|].
  simpl. destruct Hin as [-> | Hin].
  - destruct (Hx s) as [e ->]. simpl. eauto.
  - destruct (body s y) as [s'|e]; simpl; eauto.
Qed.

(** A loop that appends one result per element. *)
Lemma for_each_r_append (f : A -> result B) (l : list A) (acc out : list B) :
  for_each_r (fun acc x => rbind (f x) (fun y => Ok (acc ++ [y]))) l acc = Ok out ->
  exists ys, Forall2 (fun x y => f x = Ok y) l ys /\ out = acc ++ ys.
Proof.
  revert acc. induction l as [|x l IH]; intros acc; simpl.
  - intros [= <-]. exists []. split; [constructor | now rewrite app_nil_r].
  - destruct (f x) as [y|e] eqn:E; simpl; [|discriminate].
    intros H. apply IH in H as (ys & Hys & ->).
    exists (y :: ys). split; [now constructor | now rewrite <- app_assoc].
Qed.

Lemma for_each_r_append_ok (f : A -> result B) (l : list A) (acc ys : list B) :
  Forall2 (fun x y => f x = Ok y) l ys ->
  for_each_r (fun acc x => rbind (f x) (fun y => Ok (acc ++ [y]))) l acc = Ok (acc ++ ys).
Proof.
  intros H. revert acc. induction H as [|x y l ys Hxy _ IH]; intros acc; simpl.
  - now rewrite app_nil_r.
  - rewrite Hxy. simpl. rewrite IH, <- app_assoc. reflexivity.
Qed.

End Loops.

(** ** Events that write a document *)

Lemma no_save_app (t1 t2 : list event) : no_save t1 -> no_save t2 -> no_save (t1 ++ t2).
Proof. apply Forall_app_2. Qed.

Lemma no_save_bind {A B} (c : M A) (k : A -> M B) :
  no_save (trace c) -> (forall a, no_save (trace (k a))) -> no_save (trace (bind c k)).
Proof.
  intros Hc Hk. rewrite trace_bind. apply no_save_app; [exact Hc|].
  destruct (outcome c); [apply Hk | constructor].
Qed.

Lemma no_save_for_each {A S} (body : S -> A -> M S) (l : list A) (s : S) :
  (forall s x, no_save (trace (body s x))) -> no_save (trace (for_each body l s)).
Proof.
  intros Hb. revert s. induction l as [|x l IH]; intros s; simpl.
  - constructor.
  - apply no_save_bind; [apply Hb | intros; apply IH].
Qed.

Ltac no_save_step :=
  first
    [ apply no_save_bind; [|intros]
    | apply no_save_for_each; intros
    | solve [repeat constructor] ].

Lemma no_save_inpaint (w : World) (img_path : string) (boxes : list Box) (e r : Z) :
  no_save (trace (inpaint_background w img_path boxes e r)).
Proof.
  unfold inpaint_background. no_save_step; [no_save_step|].
  destruct (imread_shape w img_path) as [[h wd]|]; repeat no_save_step.
Qed.

Lemma no_save_prefill_box (w : World) (a : Args) (img_path : string)
    (boxes : list Box) (b : Box) :
  no_save (trace (prefill_box w a img_path boxes b)).
Proof.
  unfold prefill_box, ocr_crop. destruct (ocr_prefill a); repeat no_save_step.
Qed.

Lemma no_save_build_page (w : World) (a : Args) (d : Docs) (it : nat * ImageMeta) :
  no_save (trace (build_page w a d it)).
Proof.
  destruct it as [i imeta]. unfold build_page.
  apply no_save_bind; [no_save_step | intros _].
  apply no_save_bind; [no_save_step | intros [w_px h_px]].
  apply no_save_bind; [apply no_save_for_each; intros; apply no_save_prefill_box | intros boxes].
  apply no_save_bind;
    [destruct (erase a); [apply no_save_inpaint | no_save_step] | intros bg_path].
  apply no_save_bind; [no_save_step | intros w_in].
  apply no_save_bind; [no_save_step | intros h_in].
  apply no_save_bind; [destruct (prs_of d); repeat no_save_step | intros prs'].
  apply no_save_bind; [destruct (doc_of d); repeat no_save_step | intros doc'].
  no_save_step.
Qed.

(** ** Background reconstruction: the file it writes *)

Lemma inpaint_background_cases (w : World) (img_path : string) (boxes : list Box)
    (expand_px radius : Z) :
  inpaint_background w img_path boxes expand_px radius =
  match imread_shape w img_path with
  | None => (Raise (RuntimeError ("Could not read " ++ img_path)), [EvImread img_path])
  | Some (h, wd) =>
      match clean_path img_path with
      | Ok out =>
          (Ok out, [EvImread img_path;
                    EvImwrite out (erase_mask h wd boxes expand_px) radius])
      | Raise e => (Raise e, [EvImread img_path])
      end
  end.
Proof.
  unfold inpaint_background.
  destruct (imread_shape w img_path) as [[h wd]|]; [|reflexivity].
  destruct (clean_path img_path); reflexivity.
Qed.

(** C8.  Background reconstruction never overwrites the source image: the
    only file it writes is the one it returns, whose path is the source
    path stripped of its extension followed by ["_clean.png"], and that
    path differs from the source path, whatever the source path is. *)
Theorem reconstruction_keeps_source (w : World) (img_path : string)
    (boxes : list Box) (expand_px radius : Z) :
  (forall p mask r,
      In (EvImwrite p mask r)
         (trace (inpaint_background w img_path boxes expand_px radius)) ->
      outcome (inpaint_background w img_path boxes expand_px radius) = Ok p /\
      p <> img_path /\
      exists stripped : string,
        (stripped ++ source_suffix img_path)%string = source_str img_path /\
        p = (stripped ++ "_clean.png")%string) /\
  (forall out,
      outcome (inpaint_background w img_path boxes expand_px radius) = Ok out ->
      exists mask,
        In (EvImwrite out mask radius)
           (trace (inpaint_background w img_path boxes expand_px radius))).
Proof.
  rewrite inpaint_background_cases.
  destruct (imread_shape w img_path) as [[h wd]|]; simpl.
  2:{ split; [intros p mask r [H|[]]; discriminate | discriminate]. }
  destruct (clean_path img_path) as [out|e] eqn:E; simpl.
  2:{ split; [intros p mask r [H|[]]; discriminate | discriminate]. }
  split.
  - intros p mask r [H|[H|[]]]; [discriminate|]. injection H as -> _ _.
    split; [reflexivity|]. now apply clean_path_ok.
  - intros out' [= <-]. eexists. right. left. reflexivity.
Qed.

(** Reconstruction returns whenever OpenCV reads the source and the path
    names a file. *)
Lemma reconstruction_returns (w : World) (img_path : string) (boxes : list Box)
    (expand_px radius : Z) (shape : nat * nat) :
  imread_shape w img_path = Some shape ->
  PyPath.name (PyPath.parse (list_ascii_of_string img_path)) <> [] ->
  exists out, outcome (inpaint_background w img_path boxes expand_px radius) = Ok out.
Proof.
  intros Hs Hn. rewrite inpaint_background_cases, Hs. destruct shape as [h wd].
  destruct (clean_path_total img_path Hn) as [out ->]. eauto.
Qed.

(** ** OCR prefill *)

Lemma outcome_prefill_box (w : World) (a : Args) (img_path : string)
    (boxes : list Box) (b : Box) :
  outcome (prefill_box w a img_path boxes b)
  = rbind (prefill_one w a img_path b) (fun bb => Ok (boxes ++ [bb])).
Proof.
  unfold prefill_box, prefill_one, ocr_crop, crop_of, outcome, bind, emit, lift, ret.
  destruct (ocr_prefill a); [|reflexivity]. simpl.
  now destruct (image_to_string w (engine_cmd a) _ (lang a) (psm a)).
Qed.

Lemma outcome_prefill (w : World) (a : Args) (img_path : string) (bs acc : list Box) :
  outcome (for_each (prefill_box w a img_path) bs acc)
  = for_each_r (fun acc b => rbind (prefill_one w a img_path b)
                               (fun bb => Ok (acc ++ [bb]))) bs acc.
Proof.
  rewrite outcome_for_each. revert acc.
  induction bs as [|b bs IH]; intros acc; simpl; [reflexivity|].
  rewrite outcome_prefill_box.
  destruct (prefill_one w a img_path b); simpl; [apply IH | reflexivity].
Qed.

Lemma str_truthy_false (s : string) : str_truthy s = false <-> s = EmptyString.
Proof. destruct s; simpl; split; congruence. Qed.

Lemma prefill_one_prefilled (w : World) (a : Args) (img_path : string) (b bb : Box) :
  prefill_one w a img_path b = Ok bb -> prefilled w a img_path b bb.
Proof.
  unfold prefill_one, prefilled. destruct (ocr_prefill a).
  - destruct (image_to_string _ _ _ _ _) as [txt|e]; simpl; [|discriminate].
    intros [= <-]. simpl. split; [reflexivity|].
    destruct (strip txt) as [|c s] eqn:Es; simpl.
    + split; [discriminate|]. split; [discriminate|]. intros _.
      exists txt. rewrite Es. split; [reflexivity|]. split; [reflexivity | congruence].
    + split; [discriminate|]. split; [discriminate|]. intros _.
      exists txt. rewrite Es. split; [reflexivity|]. split; [discriminate | reflexivity].
  - intros [= <-]. simpl. split; [reflexivity|]. split; [discriminate|].
    split; [reflexivity | discriminate].
Qed.

(** The regions the prefill loop returns are those of [prefill_one], in
    the order of the boxes. *)
Lemma prefill_outcome (w : World) (a : Args) (img_path : string) (bs out : list Box) :
  outcome (for_each (prefill_box w a img_path) bs []) = Ok out ->
  Forall2 (fun b bb => prefill_one w a img_path b = Ok bb) bs out.
Proof.
  rewrite outcome_prefill. intros H.
  now apply for_each_r_append in H as (ys & Hys & ->).
Qed.

(** C5.  For every region of a page: its text is never the empty string;
    when OCR prefill is enabled and the adapter's whitespace-trimmed result
    is empty, the text is the placeholder ["[edit]"]; when OCR prefill is
    disabled, the text is ["[edit]"] unconditionally.  [out] is the list of
    regions the orchestrator hands to the assemblers. *)
Theorem ocr_fallback (w : World) (a : Args) (img_path : string) (bs out : list Box) :
  outcome (for_each (prefill_box w a img_path) bs []) = Ok out ->
  Forall2 (prefilled w a img_path) bs out.
Proof.
  intros H. apply prefill_outcome in H.
  eapply Forall2_impl; [exact H|]. intros b bb. apply prefill_one_prefilled.
Qed.

Lemma prefill_outcome_prefilled (w : World) (a : Args) (img_path : string)
    (bs out : list Box) :
  Forall2 (fun b bb => prefill_one w a img_path b = Ok bb) bs out ->
  Forall2 (prefilled w a img_path) bs out.
Proof.
  intros H. induction H; constructor; [now apply prefill_one_prefilled | assumption].
Qed.

(** The prefill loop returns whenever the engine does. *)
Lemma prefill_returns (w : World) (a : Args) (img_path : string) (bs : list Box) :
  (ocr_prefill a = true ->
   forall b, In b bs ->
     exists txt, image_to_string w (engine_cmd a) (crop_of img_path b) (lang a) (psm a) = Ok txt) ->
  exists out, outcome (for_each (prefill_box w a img_path) bs []) = Ok out.
Proof.
  intros H. rewrite outcome_prefill.
  assert (Hall : exists ys, Forall2 (fun b bb => prefill_one w a img_path b = Ok bb) bs ys).
  { induction bs as [|b bs IH]; [exists []; constructor|].
    destruct IH as [ys Hys]; [intros Ho b' Hb'; apply H; [exact Ho | now right]|].
    destruct (ocr_prefill a) eqn:Eo.
    - destruct (H eq_refl b (or_introl eq_refl)) as [txt Ht].
      eexists (_ :: ys). constructor; [|exact Hys].
      unfold prefill_one. rewrite Eo, Ht. reflexivity.
    - eexists (_ :: ys). constructor; [|exact Hys].
      unfold prefill_one. rewrite Eo. reflexivity. }
  destruct Hall as [ys Hys]. exists ([] ++ ys). now apply for_each_r_append_ok.
Qed.

(** ** One page of the orchestrator *)

Lemma outcome_inpaint_background (w : World) (a : Args) (img_path : string)
    (boxes : list Box) :
  erase a = true ->
  outcome (inpaint_background w img_path boxes (expand_px a) (radius a))
  = bg_path_of w a img_path.
Proof.
  intros He. unfold bg_path_of. rewrite He, inpaint_background_cases.
  destruct (imread_shape w img_path) as [[h wd]|]; [|reflexivity].
  now destruct (clean_path img_path).
Qed.

Local Opaque bind lift ret emit.

Lemma outcome_build_page (w : World) (a : Args) (d : Docs) (it : nat * ImageMeta) :
  outcome (build_page w a d it) = page_step w a d it.
Proof.
  destruct it as [i imeta]. unfold build_page, page_step. simpl fst. simpl snd.
  rewrite outcome_bind. change (outcome (emit _)) with (@Ok unit tt). simpl rbind.
  rewrite outcome_bind, outcome_lift.
  destruct (image_open w (im_path imeta)) as [[w_px h_px]|]; simpl rbind; [|reflexivity].
  rewrite outcome_bind.
  destruct (outcome (for_each _ (im_boxes imeta) [])) as [boxes|]; simpl rbind; [|reflexivity].
  rewrite outcome_bind.
  assert (Hbg : outcome (if erase a
                         then inpaint_background w (im_path imeta) boxes (expand_px a) (radius a)
                         else ret (im_path imeta))
                = bg_path_of w a (im_path imeta)).
  { destruct (erase a) eqn:He; [now apply outcome_inpaint_background|].
    unfold bg_path_of. rewrite He. apply outcome_ret. }
  rewrite Hbg. destruct (bg_path_of w a (im_path imeta)) as [bg|]; simpl rbind; [|reflexivity].
  rewrite outcome_bind, outcome_lift. simpl fst.
  destruct (px_to_inches w_px (dpi a)) as [w_in|]; simpl rbind; [|reflexivity].
  rewrite outcome_bind, outcome_lift. simpl snd.
  destruct (px_to_inches h_px (dpi a)) as [h_in|]; simpl rbind; [|reflexivity].
  rewrite outcome_bind.
  assert (Hp : outcome (match prs_of d with
                        | Some prs =>
                            do p <- lift (pptx_page a prs bg w_in h_in boxes); ret (Some p)
                        | None => ret None
                        end)%M
               = match prs_of d with
                 | Some prs => do p <- pptx_page a prs bg w_in h_in boxes; Ok (Some p)
                 | None => Ok None
                 end%result).
  { destruct (prs_of d); [|apply outcome_ret]. rewrite outcome_bind, outcome_lift.
    destruct (pptx_page _ _ _ _ _ _); [apply outcome_ret | reflexivity]. }
  rewrite Hp. clear Hp.
  destruct (match prs_of d with Some _ => _ | None => _ end) as [prs'|]; simpl rbind;
    [|reflexivity].
  rewrite outcome_bind.
  assert (Hd : outcome (match doc_of d with
                        | Some doc =>
                            do p <- lift (docx_page a i doc bg w_in h_in boxes); ret (Some p)
                        | None => ret None
                        end)%M
               = match doc_of d with
                 | Some doc => do p <- docx_page a i doc bg w_in h_in boxes; Ok (Some p)
                 | None => Ok None
                 end%result).
  { destruct (doc_of d); [|apply outcome_ret]. rewrite outcome_bind, outcome_lift.
    destruct (docx_page _ _ _ _ _ _ _); [apply outcome_ret | reflexivity]. }
  rewrite Hd. clear Hd.
  destruct (match doc_of d with Some _ => _ | None => _ end) as [doc'|]; simpl rbind;
    [apply outcome_ret | reflexivity].
Qed.

Local Transparent bind lift ret emit.

Lemma for_each_r_ext {A S} (f g : S -> A -> result S) (l : list A) (s : S) :
  (forall s x, f s x = g s x) -> for_each_r f l s = for_each_r g l s.
Proof.
  intros H. revert s. induction l as [|x l IH]; intros s; simpl; [reflexivity|].
  rewrite H. destruct (g s x); simpl; [apply IH | reflexivity].
Qed.

Lemma outcome_pages (w : World) (a : Args) (its : list (nat * ImageMeta)) (d : Docs) :
  outcome (for_each (build_page w a) its d) = for_each_r (page_step w a) its d.
Proof.
  rewrite outcome_for_each. apply for_each_r_ext. intros. apply outcome_build_page.
Qed.

(** The run, by cases on the region file and on the loop over the pages. *)
Lemma build_from_json_cases (w : World) (a : Args) :
  build_from_json w a =
  match read_region_file w (json_path a) with
  | Raise e => (Raise e, [EvReadRegionFile (json_path a)])
  | Ok images =>
      let pages := for_each (build_page w a) (enumerate images) (initial_docs a) in
      match outcome pages with
      | Raise e => (Raise e, EvReadRegionFile (json_path a) :: trace pages)
      | Ok d =>
          (outcome (save_outputs w a d),
           EvReadRegionFile (json_path a) :: trace pages ++ trace (save_outputs w a d))
      end
  end.
Proof.
  unfold build_from_json, bind at 1, emit. simpl.
  unfold bind at 1, lift.
  destruct (read_region_file w (json_path a)) as [images|e]; [|reflexivity].
  simpl. unfold bind, outcome, trace.
  destruct (for_each (build_page w a) (enumerate images) (initial_docs a)) as [[d|e] t];
    simpl; [|reflexivity].
  now destruct (save_outputs w a d).
Qed.

Lemma save_outputs_none (w : World) (a : Args) (d : Docs) :
  prs_of d = None -> doc_of d = None -> save_outputs w a d = (Ok tt, []).
Proof. unfold save_outputs. now intros -> ->. Qed.

(** ** Runs without an output format, and runs whose OCR engine fails *)

Lemma page_step_keeps_none (w : World) (a : Args) (d d' : Docs) (it : nat * ImageMeta) :
  page_step w a d it = Ok d' ->
  (prs_of d = None -> prs_of d' = None) /\ (doc_of d = None -> doc_of d' = None).
Proof.
  unfold page_step.
  destruct (image_open _ _) as [size|]; simpl; [|discriminate].
  destruct (outcome (for_each _ _ _)) as [boxes|]; simpl; [|discriminate].
  destruct (bg_path_of _ _ _) as [bg|]; simpl; [|discriminate].
  destruct (px_to_inches (fst size) _) as [w_in|]; simpl; [|discriminate].
  destruct (px_to_inches (snd size) _) as [h_in|]; simpl; [|discriminate].
  destruct (prs_of d) as [prs|], (doc_of d) as [doc|]; simpl;
    repeat match goal with
           | |- context [pptx_page ?a ?p ?b ?x ?y ?z] =>
               destruct (pptx_page a p b x y z); simpl; [|discriminate]
           | |- context [docx_page ?a ?i ?p ?b ?x ?y ?z] =>
               destruct (docx_page a i p b x y z); simpl; [|discriminate]
           end;
    intros [= <-]; simpl; split; congruence.
Qed.

Lemma pages_keep_none (w : World) (a : Args) (its : list (nat * ImageMeta)) (d d' : Docs) :
  for_each_r (page_step w a) its d = Ok d' ->
  (prs_of d = None -> prs_of d' = None) /\ (doc_of d = None -> doc_of d' = None).
Proof.
  revert d. induction its as [|it its IH]; intros d; simpl.
  - intros [= <-]. tauto.
  - destruct (page_step w a d it) as [d1|] eqn:E; simpl; [|discriminate].
    intros H. apply IH in H. apply page_step_keeps_none in E. tauto.
Qed.

Lemma trace_build_page_head (w : World) (a : Args) (d : Docs) (i : nat) (im : ImageMeta) :
  exists tl, trace (build_page w a d (i, im)) = EvImageOpen (im_path im) :: tl.
Proof. unfold build_page. rewrite trace_bind. simpl. eauto. Qed.

Lemma enumerate_cons {A} (x : A) (l : list A) :
  enumerate (x :: l) = (0%nat, x) :: imap (fun i y => (S i, y)) l.
Proof. reflexivity. Qed.

(** C7, as amended.  A run that requests no output format raises no
    configuration error.  It reads the region file and does the per-page
    work of every image, starting with the first; its outcome is the outcome
    of that work, and it writes no document. *)
Theorem no_format_still_processes (w : World) (a : Args) (images : list ImageMeta) :
  opt_truthy (out_pptx a) = false ->
  opt_truthy (out_docx a) = false ->
  read_region_file w (json_path a) = Ok images ->
  outcome (build_from_json w a)
    = rbind (outcome (for_each (build_page w a) (enumerate images) (initial_docs a)))
            (fun _ => Ok tt) /\
  no_save (trace (build_from_json w a)) /\
  (forall im rest, images = im :: rest ->
     exists tl, trace (build_from_json w a)
                = EvReadRegionFile (json_path a) :: EvImageOpen (im_path im) :: tl).
Proof.
  intros Hp Hd Hr. rewrite build_from_json_cases, Hr. cbv zeta.
  unfold initial_docs. rewrite Hp, Hd.
  set (pages := for_each (build_page w a) (enumerate images) (mkDocs None None)).
  assert (Hsave : forall d, outcome pages = Ok d -> save_outputs w a d = (Ok tt, [])).
  { intros d Ho. unfold pages in Ho. rewrite outcome_pages in Ho.
    apply pages_keep_none in Ho as [H1 H2]. apply save_outputs_none; auto. }
  assert (Hns : no_save (trace pages)).
  { apply no_save_for_each. intros. apply no_save_build_page. }
  assert (Hhead : forall im rest, images = im :: rest ->
            exists tl, trace pages = EvImageOpen (im_path im) :: tl).
  { intros im rest ->. unfold pages. rewrite enumerate_cons. cbn [for_each].
    rewrite trace_bind.
    destruct (trace_build_page_head w a (mkDocs None None) 0 im) as [tl ->].
    simpl. eauto. }
  destruct (outcome pages) as [d|e] eqn:Eo.
  - rewrite (Hsave d eq_refl). simpl. rewrite app_nil_r.
    split; [reflexivity|]. split; [constructor; [reflexivity | exact Hns]|].
    intros im rest Him. destruct (Hhead im rest Him) as [tl ->]. eauto.
  - simpl. split; [reflexivity|]. split; [constructor; [reflexivity | exact Hns]|].
    intros im rest Him. destruct (Hhead im rest Him) as [tl ->]. eauto.
Qed.

Lemma In_enumerate {A} (x : A) (l : list A) :
  In x l -> exists i, In (i, x) (enumerate l).
Proof.
  intros H. apply list_elem_of_In, list_elem_of_lookup in H as [i Hi].
  exists i. apply list_elem_of_In, list_elem_of_lookup. exists i.
  unfold enumerate. rewrite list_lookup_imap, Hi. reflexivity.
Qed.

Lemma page_step_ocr_raises (w : World) (a : Args) (d : Docs) (i : nat)
    (im : ImageMeta) (b : Box) (e : exn) :
  ocr_prefill a = true -> In b (im_boxes im) ->
  image_to_string w (engine_cmd a) (crop_of (im_path im) b) (lang a) (psm a) = Raise e ->
  exists e', page_step w a d (i, im) = Raise e'.
Proof.
  intros Ho Hb He. unfold page_step. simpl fst. simpl snd.
  destruct (image_open w (im_path im)) as [size|e0]; simpl; [|eauto].
  rewrite outcome_prefill.
  destruct (for_each_r_raises
              (fun acc b => rbind (prefill_one w a (im_path im) b) (fun bb => Ok (acc ++ [bb])))
              (im_boxes im) b [] Hb) as [e' ->]; [|simpl; eauto].
  intros acc. exists e. unfold prefill_one. rewrite Ho, He. reflexivity.
Qed.

(** C6, as amended.  With OCR prefill enabled, a raised error of the OCR
    engine for a region is fatal: the run ends with an exception and no
    output document is written.  (Only an empty result is replaced by the
    placeholder.) *)
Theorem ocr_failure_is_fatal (w : World) (a : Args) (images : list ImageMeta)
    (im : ImageMeta) (b : Box) (e : exn) :
  ocr_prefill a = true ->
  read_region_file w (json_path a) = Ok images ->
  In im images -> In b (im_boxes im) ->
  image_to_string w (engine_cmd a) (crop_of (im_path im) b) (lang a) (psm a) = Raise e ->
  (exists e', outcome (build_from_json w a) = Raise e') /\
  no_save (trace (build_from_json w a)).
Proof.
  intros Ho Hr Him Hb He. rewrite build_from_json_cases, Hr. cbv zeta.
  destruct (In_enumerate im images Him) as [i Hi].
  destruct (for_each_r_raises (page_step w a) (enumerate images) (i, im) (initial_docs a) Hi)
    as [e' He'].
  { intros d. eapply page_step_ocr_raises; eauto. }
  rewrite outcome_pages, He'. simpl. split; [eauto|].
  constructor; [reflexivity|]. apply no_save_for_each. intros. apply no_save_build_page.
Qed.

(** ** The slide-deck assembler *)

Section SlideDeck.

Variables (dpi margin_in : Q) (font_name : option string) (font_size_pt : option Q).
Variables (rtl ppt_autofit debug_outline : bool).

Lemma px_to_inches_cases (px : Z) :
  (Qeq_bool dpi 0 = true /\ px_to_inches px dpi = Raise ZeroDivisionError) \/
  (Qeq_bool dpi 0 = false /\ px_to_inches px dpi = Ok (toPhysical px dpi)).
Proof. unfold px_to_inches, toPhysical. destruct (Qeq_bool dpi 0); auto. Qed.

Lemma add_pptx_text_box_shapes (slide slide' : Slide) (b : Box) :
  add_pptx_text_box dpi margin_in font_name font_size_pt rtl ppt_autofit debug_outline slide b
    = Ok slide' ->
  Qeq_bool dpi 0 = false /\
  shapes slide' = shapes slide
    ++ box_shapes dpi margin_in font_name font_size_pt rtl ppt_autofit debug_outline b.
Proof.
  unfold add_pptx_text_box.
  destruct (px_to_inches_cases (b_left b)) as [[_ ->] | [Hd ->]]; [discriminate|].
  destruct (px_to_inches_cases (b_top b)) as [[_ ->] | [_ ->]]; [discriminate|].
  destruct (px_to_inches_cases (b_width b)) as [[_ ->] | [_ ->]]; [discriminate|].
  destruct (px_to_inches_cases (b_height b)) as [[_ ->] | [_ ->]]; [discriminate|].
  simpl. intros [= <-]. split; [exact Hd|].
  unfold box_shapes, box_geometry. destruct debug_outline; simpl;
    now rewrite <- ?app_assoc.
Qed.

Lemma add_pptx_text_loop_shapes (boxes : list Box) (slide slide' : Slide) :
  for_each_r
    (add_pptx_text_box dpi margin_in font_name font_size_pt rtl ppt_autofit debug_outline)
    boxes slide = Ok slide' ->
  shapes slide' = shapes slide
    ++ flat_map (box_shapes dpi margin_in font_name font_size_pt rtl ppt_autofit
                   debug_outline) boxes.
Proof.
  revert slide. induction boxes as [|b boxes IH]; intros slide; simpl.
  - intros [= <-]. now rewrite app_nil_r.
  - destruct (add_pptx_text_box _ _ _ _ _ _ _ slide b) as [s1|] eqn:E; simpl;
      [|discriminate].
    intros H. apply IH in H. apply add_pptx_text_box_shapes in E as [_ E].
    now rewrite H, E, <- app_assoc.
Qed.

Lemma add_pptx_text_loop_returns (boxes : list Box) (slide : Slide) :
  Qeq_bool dpi 0 = false ->
  exists slide',
    for_each_r
      (add_pptx_text_box dpi margin_in font_name font_size_pt rtl ppt_autofit debug_outline)
      boxes slide = Ok slide'.
Proof.
  intros Hd. revert slide. induction boxes as [|b boxes IH]; intros slide; simpl; [eauto|].
  unfold add_pptx_text_box at 1, px_to_inches. rewrite Hd. simpl. apply IH.
Qed.

Lemma text_boxes_of_box_shapes (boxes : list Box) :
  omap as_text_box
    (flat_map (box_shapes dpi margin_in font_name font_size_pt rtl ppt_autofit
                 debug_outline) boxes)
  = map (fun b => (box_geometry dpi b,
                   pptx_text_frame margin_in font_name font_size_pt rtl ppt_autofit b))
        boxes.
Proof.
  induction boxes as [|b boxes IH]; [reflexivity|].
  simpl. rewrite omap_app, IH. unfold box_shapes.
  destruct debug_outline; reflexivity.
Qed.

Lemma pictures_of_box_shapes (boxes : list Box) :
  omap as_picture
    (flat_map (box_shapes dpi margin_in font_name font_size_pt rtl ppt_autofit
                 debug_outline) boxes) = [].
Proof.
  induction boxes as [|b boxes IH]; [reflexivity|].
  simpl. rewrite omap_app, IH. unfold box_shapes.
  destruct debug_outline; reflexivity.
Qed.

End SlideDeck.

Lemma py_int_nonneg (x : Q) : (0 <= x)%Q -> 0 <= py_int x.
Proof.
  destruct x as [n d]. unfold Qle, py_int. simpl. intros H.
  apply Z.quot_pos; lia.
Qed.




(** The assembler returns on every slide and every list of regions when the
    resolution is not zero. *)
Lemma add_pptx_text_returns (slide : Slide) (boxes : list Box) (dpi : Q)
    (font_name : option string) (font_size_pt : option Q) (rtl ppt_autofit : bool)
    (ppt_margin_pt : Q) (debug_outline : bool) :
  ~ (dpi == 0)%Q ->
  exists slide',
    add_pptx_text slide boxes dpi font_name font_size_pt rtl ppt_autofit ppt_margin_pt
      debug_outline = Ok slide'.
Proof.
  intros Hd. apply add_pptx_text_loop_returns.
  destruct (Qeq_bool dpi 0) eqn:E; [|reflexivity]. apply Qeq_bool_eq in E. contradiction.
Qed.

(** ** Order of pages and of text boxes *)

Lemma enumerate_from_cons {A} (k : nat) (x : A) (l : list A) :
  enumerate_from k (x :: l) = (k, x) :: enumerate_from (S k) l.
Proof.
  unfold enumerate_from. simpl. rewrite Nat.add_0_r. f_equal.
  apply imap_ext. intros j y _. simpl. f_equal. lia.
Qed.

Lemma join_pages_from_cons (k : nat) (tbs : list DocxTextbox) (pages : list (list DocxTextbox)) :
  join_pages_from k (tbs :: pages)
  = ((if (0 <? k)%nat then [PageBreak] else []) ++ map TextboxParagraph tbs)
    ++ join_pages_from (S k) pages.
Proof.
  unfold join_pages_from. simpl. rewrite Nat.add_0_r. f_equal. f_equal.
  apply imap_ext. intros j y _. simpl. replace (k + S j)%nat with (S (k + j)) by lia.
  reflexivity.
Qed.

Lemma frame_text_pptx (margin_in : Q) (fname : option string) (fsize : option Q)
    (r af : bool) (b : Box) :
  frame_text (pptx_text_frame margin_in fname fsize r af b) = default placeholder (b_text b).
Proof.
  unfold frame_text. simpl. destruct (default placeholder (b_text b)); reflexivity.
Qed.

Lemma pptx_page_ok (a : Args) (prs p : Presentation) (bg : string) (w_in h_in : Q)
    (boxes : list Box) :
  pptx_page a prs bg w_in h_in boxes = Ok p ->
  exists s,
    p = mkPresentation (Inches w_in) (Inches h_in) (slides prs ++ [s]) /\
    slide_image_files s = [bg] /\
    slide_summary s = page_summary a boxes.
Proof.
  unfold pptx_page, add_pptx_text.
  destruct (for_each_r _ boxes _) as [s|] eqn:E; simpl; [|discriminate].
  intros [= <-]. exists s. split; [reflexivity|].
  apply add_pptx_text_loop_shapes in E. simpl in E.
  unfold slide_image_files, slide_summary, slide_text_boxes, page_summary.
  rewrite E. simpl. rewrite pictures_of_box_shapes, text_boxes_of_box_shapes.
  split; [reflexivity|]. rewrite map_map. apply map_ext. intros b. simpl.
  now rewrite frame_text_pptx.
Qed.

Lemma px_to_emu_cases (px : Z) (dpi : Q) :
  (Qeq_bool dpi 0 = true /\ px_to_emu px dpi = Raise ZeroDivisionError) \/
  (Qeq_bool dpi 0 = false /\ px_to_emu px dpi = Ok (Inches (toPhysical px dpi))).
Proof.
  unfold px_to_emu, px_to_inches, toPhysical, Inches. destruct (Qeq_bool dpi 0); auto.
Qed.

Lemma docx_box_ok (a : Args) (doc doc' : Document) (b : Box) :
  docx_box a doc b = Ok doc' ->
  exists tb,
    doc_section doc' = doc_section doc /\
    doc_body doc' = doc_body doc ++ [TextboxParagraph tb] /\
    tb_geometry tb = box_geometry (dpi a) b /\
    b_text b = Some (tb_text tb).
Proof.
  unfold docx_box.
  destruct (px_to_emu_cases (b_left b) (dpi a)) as [[_ ->] | [_ ->]]; [discriminate|].
  destruct (px_to_emu_cases (b_top b) (dpi a)) as [[_ ->] | [_ ->]]; [discriminate|].
  destruct (px_to_emu_cases (b_width b) (dpi a)) as [[_ ->] | [_ ->]]; [discriminate|].
  destruct (px_to_emu_cases (b_height b) (dpi a)) as [[_ ->] | [_ ->]]; [discriminate|].
  simpl. destruct (b_text b) as [txt|]; simpl; [|discriminate].
  intros [= <-]. eexists. simpl. repeat split.
Qed.

Lemma docx_boxes_ok (a : Args) (boxes : list Box) (doc doc' : Document) :
  for_each_r (docx_box a) boxes doc = Ok doc' ->
  exists tbs,
    doc_section doc' = doc_section doc /\
    doc_body doc' = doc_body doc ++ map TextboxParagraph tbs /\
    docx_summary tbs = page_summary a boxes.
Proof.
  revert doc. induction boxes as [|b boxes IH]; intros doc; simpl.
  - intros [= <-]. exists []. simpl. now rewrite app_nil_r.
  - destruct (docx_box a doc b) as [d1|] eqn:E; simpl; [|discriminate].
    intros H. apply IH in H as (tbs & Hs & Hb & Hsum).
    apply docx_box_ok in E as (tb & Hs1 & Hb1 & Hg & Ht).
    exists (tb :: tbs). split; [congruence|]. split.
    + rewrite Hb, Hb1, <- app_assoc. reflexivity.
    + unfold docx_summary, page_summary in *. simpl. rewrite Hsum, Hg, Ht. reflexivity.
Qed.

Lemma docx_page_ok (a : Args) (i : nat) (doc doc' : Document) (bg : string)
    (w_in h_in : Q) (boxes : list Box) :
  docx_page a i doc bg w_in h_in boxes = Ok doc' ->
  exists tbs,
    doc_body doc' = doc_body doc
      ++ (if (0 <? i)%nat then [PageBreak] else []) ++ map TextboxParagraph tbs /\
    docx_summary tbs = page_summary a boxes /\
    map (fun hp => fst (fst hp)) (header_pictures (doc_section doc'))
    = map (fun hp => fst (fst hp)) (header_pictures (doc_section doc)) ++ [bg].
Proof.
  unfold docx_page. intros H. apply docx_boxes_ok in H as (tbs & Hs & Hb & Hsum).
  exists tbs. split; [|split; [exact Hsum|]].
  - rewrite Hb. simpl. destruct (0 <? i)%nat; simpl; now rewrite <- ?app_assoc.
  - rewrite Hs. simpl. rewrite map_app. simpl. now destruct (0 <? i)%nat.
Qed.

(** What one turn of the loop over the images does to the documents. *)
Lemma page_step_ok (w : World) (a : Args) (d d' : Docs) (i : nat) (im : ImageMeta) :
  page_step w a d (i, im) = Ok d' ->
  exists bg bbs,
    bg_path_of w a (im_path im) = Ok bg /\
    Forall2 (prefilled w a (im_path im)) (im_boxes im) bbs /\
    match prs_of d with
    | None => prs_of d' = None
    | Some prs =>
        exists p s, prs_of d' = Some p /\ slides p = slides prs ++ [s] /\
                    slide_image_files s = [bg] /\ slide_summary s = page_summary a bbs
    end /\
    match doc_of d with
    | None => doc_of d' = None
    | Some doc =>
        exists doc1 tbs,
          doc_of d' = Some doc1 /\
          doc_body doc1 = doc_body doc
            ++ (if (0 <? i)%nat then [PageBreak] else []) ++ map TextboxParagraph tbs /\
          docx_summary tbs = page_summary a bbs /\
          map (fun hp => fst (fst hp)) (header_pictures (doc_section doc1))
          = map (fun hp => fst (fst hp)) (header_pictures (doc_section doc)) ++ [bg]
    end.
Proof.
  unfold page_step. simpl fst. simpl snd.
  destruct (image_open _ _) as [size|]; simpl; [|discriminate].
  destruct (outcome (for_each _ _ _)) as [bbs|] eqn:Eb; simpl; [|discriminate].
  destruct (bg_path_of _ _ _) as [bg|]; simpl; [|discriminate].
  destruct (px_to_inches (fst size) _) as [w_in|]; simpl; [|discriminate].
  destruct (px_to_inches (snd size) _) as [h_in|]; simpl; [|discriminate].
  intros H. exists bg, bbs. split; [reflexivity|].
  split; [now apply prefill_outcome_prefilled, prefill_outcome|].
  match type of H with rbind ?m _ = _ => destruct m as [prs'|] eqn:Ep end;
    simpl in H; [|discriminate].
  match type of H with rbind ?m _ = _ => destruct m as [doc'|] eqn:Ed end;
    simpl in H; [|discriminate].
  injection H as <-. simpl. split.
  - destruct (prs_of d) as [prs|]; [|now injection Ep as <-].
    destruct (pptx_page a prs bg w_in h_in bbs) as [p|] eqn:E; simpl in Ep; [|discriminate].
    injection Ep as <-. apply pptx_page_ok in E as (s & -> & Hf & Hs).
    eexists _, s. simpl. auto.
  - destruct (doc_of d) as [doc|]; [|now injection Ed as <-].
    destruct (docx_page a i doc bg w_in h_in bbs) as [p|] eqn:E; simpl in Ed; [|discriminate].
    injection Ed as <-. apply docx_page_ok in E as (tbs & Hb & Hs & Hh).
    eexists _, tbs. auto.
Qed.

Lemma pages_pptx (w : World) (a : Args) (images : list ImageMeta) (k : nat) (d d' : Docs)
    (prs : Presentation) :
  for_each_r (page_step w a) (enumerate_from k images) d = Ok d' ->
  prs_of d = Some prs ->
  exists p new,
    prs_of d' = Some p /\ slides p = slides prs ++ new /\
    Forall2 (slide_of_page w a) images new.
Proof.
  revert k d prs. induction images as [|im images IH]; intros k d prs.
  - simpl. intros [= <-] Hp. exists prs, []. now rewrite app_nil_r.
  - rewrite enumerate_from_cons. simpl.
    destruct (page_step w a d (k, im)) as [d1|] eqn:E; simpl; [|discriminate].
    intros H Hp. apply page_step_ok in E as (bg & bbs & Hbg & Hbbs & Hprs & _).
    rewrite Hp in Hprs. destruct Hprs as (p1 & s & Hp1 & Hs1 & Hf & Hsum).
    destruct (IH _ _ _ H Hp1) as (p & new & Hp' & Hs & Hall).
    exists p, (s :: new). split; [exact Hp'|]. split.
    + rewrite Hs, Hs1, <- app_assoc. reflexivity.
    + constructor; [|exact Hall]. exists bg, bbs. auto.
Qed.

Lemma pages_docx (w : World) (a : Args) (images : list ImageMeta) (k : nat) (d d' : Docs)
    (doc : Document) :
  for_each_r (page_step w a) (enumerate_from k images) d = Ok d' ->
  doc_of d = Some doc ->
  exists doc' pages bgs,
    doc_of d' = Some doc' /\
    doc_body doc' = doc_body doc ++ join_pages_from k pages /\
    Forall2 (docx_of_page w a) images pages /\
    map (fun hp => fst (fst hp)) (header_pictures (doc_section doc'))
    = map (fun hp => fst (fst hp)) (header_pictures (doc_section doc)) ++ bgs /\
    Forall2 (fun im bg => bg_path_of w a (im_path im) = Ok bg) images bgs.
Proof.
  revert k d doc. induction images as [|im images IH]; intros k d doc.
  - simpl. intros [= <-] Hp. exists doc, [], []. rewrite !app_nil_r. auto.
  - rewrite enumerate_from_cons. simpl.
    destruct (page_step w a d (k, im)) as [d1|] eqn:E; simpl; [|discriminate].
    intros H Hp. apply page_step_ok in E as (bg & bbs & Hbg & Hbbs & _ & Hdoc).
    rewrite Hp in Hdoc. destruct Hdoc as (doc1 & tbs & Hd1 & Hb1 & Hsum & Hh1).
    destruct (IH _ _ _ H Hd1) as (doc' & pages & bgs & Hd' & Hb & Hall & Hh & Hbgs).
    exists doc', (tbs :: pages), (bg :: bgs). split; [exact Hd'|]. split; [|split; [|split]].
    + rewrite Hb, Hb1, join_pages_from_cons, <- !app_assoc. reflexivity.
    + constructor; [|exact Hall]. exists bbs. auto.
    + rewrite Hh, Hh1, <- app_assoc. reflexivity.
    + constructor; assumption.
Qed.

Lemma save_outputs_ok (w : World) (a : Args) (d : Docs) :
  outcome (save_outputs w a d) = Ok tt ->
  (forall p path, prs_of d = Some p -> out_pptx a = Some path ->
     In (EvSavePptx path p) (trace (save_outputs w a d))) /\
  (forall p path, doc_of d = Some p -> out_docx a = Some path ->
     In (EvSaveDocx path p) (trace (save_outputs w a d))).
Proof.
  unfold save_outputs, save_pptx, save_docx.
  destruct (prs_of d) as [p|], (out_pptx a) as [pp|], (doc_of d) as [q|],
    (out_docx a) as [qp|];
    repeat match goal with
           | |- context [can_write w ?x] => destruct (can_write w x)
           end;
    simpl; intros H; try discriminate;
    split; intros ? ? [= <-] [= <-] || intros ? ? [=] || intros ? ? ? [=];
    simpl; auto.
Qed.

(** C9.  In every document a run writes, the pages follow the order of the
    images in the region file, and within each page the text boxes follow
    the order of that image's boxes: the slides of the slide deck correspond
    one to one, in order, to the images, and so do the pages of the
    word-processor document, which page breaks separate. *)
Theorem order_preserved (w : World) (a : Args) :
  outcome (build_from_json w a) = Ok tt ->
  exists images,
    read_region_file w (json_path a) = Ok images /\
    (forall path, out_pptx a = Some path -> path <> EmptyString ->
       exists prs,
         In (EvSavePptx path prs) (trace (build_from_json w a)) /\
         Forall2 (slide_of_page w a) images (slides prs)) /\
    (forall path, out_docx a = Some path -> path <> EmptyString ->
       exists doc pages,
         In (EvSaveDocx path doc) (trace (build_from_json w a)) /\
         doc_body doc = join_pages pages /\
         Forall2 (docx_of_page w a) images pages /\
         Forall2 (fun im hp => bg_path_of w a (im_path im) = Ok (fst (fst hp)))
                 images (header_pictures (doc_section doc))).
Proof.
  rewrite build_from_json_cases.
  destruct (read_region_file w (json_path a)) as [images|]; [|discriminate].
  cbv zeta. rewrite outcome_pages.
  destruct (for_each_r (page_step w a) (enumerate images) (initial_docs a)) as [d|] eqn:E;
    [|discriminate].
  simpl. intros Hsave. exists images. split; [reflexivity|].
  apply save_outputs_ok in Hsave as [Hsp Hsd].
  change (enumerate images) with (enumerate_from 0 images) in E.
  split.
  - intros path Hp Hne.
    assert (Hinit : prs_of (initial_docs a) = Some new_presentation).
    { unfold initial_docs. rewrite Hp. simpl. destruct path; [congruence | reflexivity]. }
    destruct (pages_pptx _ _ _ _ _ _ _ E Hinit) as (p & new & Hp' & Hs & Hall).
    exists p. split.
    + right. apply in_or_app. right. now apply Hsp.
    + simpl in Hs. now rewrite Hs.
  - intros path Hp Hne.
    assert (Hinit : doc_of (initial_docs a) = Some new_document).
    { unfold initial_docs. rewrite Hp. simpl. destruct path; [congruence | reflexivity]. }
    destruct (pages_docx _ _ _ _ _ _ _ E Hinit)
      as (doc & pages & bgs & Hd' & Hb & Hall & Hh & Hbgs).
    exists doc, pages. split; [|split; [|split]].
    + right. apply in_or_app. right. now apply Hsd.
    + simpl in Hb. exact Hb.
    + exact Hall.
    + simpl in Hh. subst bgs. clear - Hbgs.
      remember (header_pictures (doc_section doc)) as hps eqn:Eh. clear Eh.
      revert Hbgs. generalize images. induction hps as [|hp hps IH]; intros ims H.
      * inversion H; subst. constructor.
      * inversion H; subst. constructor; [assumption | now apply IH].
Qed.

(** ** The slide size of a saved deck *)

Lemma for_each_r_app {A S} (f : S -> A -> result S) (l1 l2 : list A) (s : S) :
  for_each_r f (l1 ++ l2) s = rbind (for_each_r f l1 s) (for_each_r f l2).
Proof.
  revert s. induction l1 as [|x l1 IH]; intros s; simpl; [reflexivity|].
  destruct (f s x); simpl; [apply IH | reflexivity].
Qed.

Lemma enumerate_snoc {A} (l : list A) (x : A) :
  enumerate (l ++ [x]) = enumerate l ++ [(length l, x)].
Proof.
  unfold enumerate. rewrite imap_app. simpl. now rewrite Nat.add_0_r.
Qed.

Lemma page_step_slide_size (w : World) (a : Args) (d d' : Docs) (i : nat)
    (im : ImageMeta) (prs : Presentation) :
  page_step w a d (i, im) = Ok d' -> prs_of d = Some prs ->
  exists size p,
    image_open w (im_path im) = Ok size /\ prs_of d' = Some p /\
    (slide_width p, slide_height p) = page_physical_size (dpi a) size.
Proof.
  unfold page_step. simpl fst. simpl snd. intros H Hp. rewrite Hp in H.
  destruct (image_open _ _) as [size|]; simpl in H; [|discriminate].
  destruct (outcome (for_each _ _ _)) as [bbs|]; simpl in H; [|discriminate].
  destruct (bg_path_of _ _ _) as [bg|]; simpl in H; [|discriminate].
  destruct (px_to_inches_cases (dpi a) (fst size)) as [[_ E] | [_ E]];
    rewrite E in H; simpl in H; [discriminate|].
  destruct (px_to_inches_cases (dpi a) (snd size)) as [[_ E'] | [_ E']];
    rewrite E' in H; simpl in H; [discriminate|].
  destruct (pptx_page _ _ _ _ _ _) as [p|] eqn:Ep; simpl in H; [|discriminate].
  match type of H with rbind ?m _ = _ => destruct m as [doc'|] end;
    simpl in H; [|discriminate].
  injection H as <-. exists size, p. split; [reflexivity|]. split; [reflexivity|].
  apply pptx_page_ok in Ep as (s & -> & _). reflexivity.
Qed.

(** Every slide of a saved deck is shown with the physical size of the last
    image of the region file, whatever the sizes of the other images. *)
Lemma slide_size_is_last_page (w : World) (a : Args) (images : list ImageMeta)
    (im : ImageMeta) (path : string) :
  outcome (build_from_json w a) = Ok tt ->
  read_region_file w (json_path a) = Ok (images ++ [im]) ->
  out_pptx a = Some path -> path <> EmptyString ->
  exists prs size,
    In (EvSavePptx path prs) (trace (build_from_json w a)) /\
    image_open w (im_path im) = Ok size /\
    forall s, In s (slides prs) -> slide_size prs s = page_physical_size (dpi a) size.
Proof.
  intros Hrun Hr Hp Hne. rewrite build_from_json_cases, Hr in *. cbv zeta in *.
  rewrite outcome_pages in *.
  destruct (for_each_r (page_step w a) (enumerate (images ++ [im])) (initial_docs a))
    as [d|] eqn:E; [|discriminate].
  simpl in *. apply save_outputs_ok in Hrun as [Hsp _].
  rewrite enumerate_snoc, for_each_r_app in E.
  destruct (for_each_r (page_step w a) (enumerate images) (initial_docs a))
    as [d0|] eqn:E0; simpl in E; [|discriminate].
  assert (Hinit : prs_of (initial_docs a) = Some new_presentation).
  { unfold initial_docs. rewrite Hp. simpl. destruct path; [congruence | reflexivity]. }
  change (enumerate images) with (enumerate_from 0 images) in E0.
  destruct (pages_pptx _ _ _ _ _ _ _ E0 Hinit) as (p0 & _ & Hp0 & _).
  destruct (page_step w a d0 (length images, im)) as [d1|] eqn:E1; simpl in E;
    [|discriminate].
  injection E as <-.
  destruct (page_step_slide_size _ _ _ _ _ _ _ E1 Hp0) as (size & p & Hs & Hp1 & Hsz).
  exists p, size. split; [|split; [exact Hs|]].
  - right. apply in_or_app. right. now apply Hsp.
  - intros s _. exact Hsz.
Qed.

(** ** When a run returns *)







(** ** Truncation on binary64 floats *)

(** [int] on a finite float is the truncation of the number the float
    stands for: the two models of the converter differ only by the rounding
    of the quotient and of the product. *)
Lemma F64_trunc_value (s : spec_float) (v : Q) :
  F64.value s = Some v -> F64.trunc s = Ok (py_int v).
Proof.
  destruct s as [sg| sg | | sg m e]; simpl; try discriminate.
  - intros [= <-]. reflexivity.
  - intros [= <-]. f_equal. unfold py_int.
    destruct e as [|p|p]; simpl Qnum; simpl Qden.
    + rewrite Z.quot_1_r. now destruct sg.
    + rewrite Z.quot_1_r. destruct sg; [|reflexivity].
      change (Z.neg m) with (- Z.pos m). now rewrite Z.mul_opp_l.
    + assert (Hp : Z.pos (2 ^ p) = 2 ^ Z.pos p) by apply Pos2Z.inj_pow.
      rewrite Hp. destruct sg.
      * change (Z.neg m) with (- Z.pos m). rewrite Z.quot_opp_l by lia.
        f_equal. symmetry. apply Z.quot_div_nonneg; lia.
      * symmetry. apply Z.quot_div_nonneg; lia.
Qed.

(** ** Concrete runs *)

(** The converter on binary64 floats.  Where the quotient is exact the
    result is that of exact arithmetic; 41 pixels at 300 dpi give 124967,
    one unit below the exact product 124968, because the product of the
    rounded quotient is just below 124968 and [int] truncates. *)
Lemma binary64_px_to_emu :
  F64.px_to_emu 1 128 = Ok 7143 /\
  F64.px_to_emu 300 300 = Ok 914400 /\
  F64.px_to_emu 41 300 = Ok 124967 /\
  px_to_emu 41 300 = Ok 124968.
Proof. vm_compute. repeat split. Qed.




(** With the value the converter has on binary64 floats for 41 pixels at
    300 dpi, the round trip is off by exactly one layout unit. *)
Lemma binary64_round_trip :
  F64.px_to_emu 41 300 = Ok 124967 /\
  (Qabs (emu_to_px 124967 300 - inject_Z 41) == emu_to_px 1 300)%Q.
Proof. vm_compute. repeat split. Qed.


(** The source path of a reconstruction and the path it writes. *)
Lemma clean_path_examples :
  clean_path "pages/page_001.png" = Ok "pages/page_001_clean.png"%string /\
  clean_path "scan_clean.png" = Ok "scan_clean_clean.png"%string /\
  clean_path "a//b/./c.tar.gz" = Ok "a/b/c.tar_clean.png"%string /\
  clean_path "/tmp/.hidden" = Ok "/tmp/.hidden_clean.png"%string /\
  clean_path "noext" = Ok "noext_clean.png"%string /\
  clean_path "/" = Raise (ValueError "path has an empty name").
Proof. vm_compute. repeat split. Qed.

(** The first page of the concrete run with OCR prefill: the engine reads
    text in the first region and blank space in the second. *)
Lemma ocr_fallback_witness :
  Forall2 (prefilled Demo.world (Demo.args (Some "out.pptx"%string) None true)
             "pages/page_001.png")
    (im_boxes Demo.page1)
    [mkBox 300 150 60 12 (Some "Hello"%string); mkBox 30 200 120 40 (Some "[edit]"%string)].
Proof.
  apply (ocr_fallback Demo.world (Demo.args (Some "out.pptx"%string) None true)
           "pages/page_001.png" (im_boxes Demo.page1)).
  vm_compute. reflexivity.
Defined.

(** C6 fails as stated: the engine raises on the second region of the first
    page, and the run ends with that exception before anything is written;
    the region gets no placeholder and the second page is never opened. *)
Lemma ocr_failure_aborts_run :
  ocr_prefill (Demo.args (Some "out.pptx"%string) None true) = true /\
  image_to_string Demo.world_engine_fails None
    (crop_of "pages/page_001.png" (mkBox 30 200 120 40 None)) "eng" 6
    = Raise TesseractError /\
  build_from_json Demo.world_engine_fails (Demo.args (Some "out.pptx"%string) None true)
  = (Raise TesseractError,
     [EvReadRegionFile "boxes.json"; EvImageOpen "pages/page_001.png";
      EvOcr (mkCrop "pages/page_001.png" (300, 150, 360, 162));
      EvOcr (mkCrop "pages/page_001.png" (30, 200, 150, 240))]).
Proof. vm_compute. repeat split. Qed.

(** The run of the concrete world whose engine fails. *)
Lemma ocr_failure_is_fatal_witness :
  (exists e',
      outcome (build_from_json Demo.world_engine_fails
                 (Demo.args (Some "out.pptx"%string) None true)) = Raise e') /\
  no_save (trace (build_from_json Demo.world_engine_fails
                    (Demo.args (Some "out.pptx"%string) None true))).
Proof.
  apply (ocr_failure_is_fatal Demo.world_engine_fails
           (Demo.args (Some "out.pptx"%string) None true) Demo.images Demo.page1
           (mkBox 30 200 120 40 None) TesseractError);
    [reflexivity | reflexivity | now left | right; now left | reflexivity].
Defined.

(** C7 fails as stated: with neither output path the run raises nothing; it
    opens every image and runs OCR on every region, then returns. *)
Lemma no_format_run_completes :
  out_pptx (Demo.args None None true) = None /\
  out_docx (Demo.args None None true) = None /\
  build_from_json Demo.world (Demo.args None None true)
  = (Ok tt,
     [EvReadRegionFile "boxes.json"; EvImageOpen "pages/page_001.png";
      EvOcr (mkCrop "pages/page_001.png" (300, 150, 360, 162));
      EvOcr (mkCrop "pages/page_001.png" (30, 200, 150, 240));
      EvImageOpen "pages/page_002.png";
      EvOcr (mkCrop "pages/page_002.png" (10, 20, 40, 60))]).
Proof. vm_compute. repeat split. Qed.

(** The concrete run without an output format. *)
Lemma no_format_still_processes_witness :
  outcome (build_from_json Demo.world (Demo.args None None true))
    = rbind (outcome (for_each (build_page Demo.world (Demo.args None None true))
                        (enumerate Demo.images) (initial_docs (Demo.args None None true))))
            (fun _ => Ok tt) /\
  no_save (trace (build_from_json Demo.world (Demo.args None None true))) /\
  (forall im rest, Demo.images = im :: rest ->
     exists tl, trace (build_from_json Demo.world (Demo.args None None true))
                = EvReadRegionFile (json_path (Demo.args None None true))
                    :: EvImageOpen (im_path im) :: tl).
Proof.
  apply (no_format_still_processes Demo.world (Demo.args None None true) Demo.images);
    reflexivity.
Defined.

(** C2 on two pages of different sizes, 600x300 and 300x600 pixels at 300
    dpi: the saved deck shows both slides 1 in x 2 in, the size of the last
    page, while the first page measures 2 in x 1 in. *)
Lemma slide_size_of_mixed_pages :
  map (fun prs => map (slide_size prs) (slides prs))
      (saved_presentations
         (trace (build_from_json Demo.world (Demo.args (Some "out.pptx"%string) None false))))
  = [[(914400, 1828800); (914400, 1828800)]] /\
  map (fun im => page_physical_size 300 (im_width im, im_height im)) Demo.images
  = [(1828800, 914400); (914400, 1828800)].
Proof. vm_compute. split; reflexivity. Qed.

(** The concrete run with both output formats and OCR prefill. *)
Lemma order_preserved_witness :
  exists images,
    read_region_file Demo.world
      (json_path (Demo.args (Some "out.pptx"%string) (Some "out.docx"%string) true))
    = Ok images /\
    (forall path,
       out_pptx (Demo.args (Some "out.pptx"%string) (Some "out.docx"%string) true)
       = Some path ->
       path <> EmptyString ->
       exists prs,
         In (EvSavePptx path prs)
            (trace (build_from_json Demo.world
                      (Demo.args (Some "out.pptx"%string) (Some "out.docx"%string) true))) /\
         Forall2
           (slide_of_page Demo.world
              (Demo.args (Some "out.pptx"%string) (Some "out.docx"%string) true))
           images (slides prs)) /\
    (forall path,
       out_docx (Demo.args (Some "out.pptx"%string) (Some "out.docx"%string) true)
       = Some path ->
       path <> EmptyString ->
       exists doc pages,
         In (EvSaveDocx path doc)
            (trace (build_from_json Demo.world
                      (Demo.args (Some "out.pptx"%string) (Some "out.docx"%string) true))) /\
         doc_body doc = join_pages pages /\
         Forall2
           (docx_of_page Demo.world
              (Demo.args (Some "out.pptx"%string) (Some "out.docx"%string) true))
           images pages /\
         Forall2
           (fun im hp =>
              bg_path_of Demo.world
                (Demo.args (Some "out.pptx"%string) (Some "out.docx"%string) true)
                (im_path im) = Ok (fst (fst hp)))
           images (header_pictures (doc_section doc))).
Proof.
  apply (order_preserved Demo.world
           (Demo.args (Some "out.pptx"%string) (Some "out.docx"%string) true)).
  vm_compute. reflexivity.
Defined.


(** * Further properties *)

(** ** The erase mask, pixel by pixel *)

Section MaskPixels.

Variables (h w : nat) (m : Z).

Lemma in_image_spec (x y : Z) :
  in_image h w x y = true <-> 0 <= x < Z.of_nat w /\ 0 <= y < Z.of_nat h.
Proof.
  unfold in_image. rewrite !andb_true_iff, !Z.leb_le, !Z.ltb_lt. lia.
Qed.

Lemma pixel_filled_mask (boxes : list Box) (x y : Z) :
  pixel (filled_mask h w m boxes) x y
  = if in_image h w x y
    then Some (if existsb (fun b => filled h w m b x y) boxes then 255 else 0)
    else None.
Proof.
  unfold filled_mask. rewrite pixel_fill_boxes.
  destruct (in_image h w x y) eqn:E.
  - apply in_image_spec in E as [Hx Hy]. now rewrite pixel_zeros by lia.
  - destruct (pixel (zeros h w) x y) as [v|] eqn:Ep; [|reflexivity].
    apply pixel_zeros_inv in Ep as (_ & Hx & Hy).
    assert (in_image h w x y = true) by now apply in_image_spec. congruence.
Qed.

Lemma max_of_binary (f : Z * Z -> Z) (g : Z * Z -> bool) (l : list (Z * Z)) :
  (forall p, f p = if g p then 255 else 0) ->
  foldr Z.max 0 (map f l) = if existsb g l then 255 else 0.
Proof.
  intros Hf. induction l as [|p l IH]; [reflexivity|].
  simpl. rewrite IH, Hf. destruct (g p), (existsb g l); reflexivity.
Qed.

(** The value of every pixel of the mask handed to the inpainting. *)
Lemma pixel_erase_mask (boxes : list Box) (x y : Z) :
  pixel (erase_mask h w boxes m) x y
  = if in_image h w x y
    then Some (if near_fill h w m boxes x y then 255 else 0)
    else None.
Proof.
  unfold erase_mask. fold (filled_mask h w m boxes).
  rewrite pixel_dilate, pixel_filled_mask.
  destruct (in_image h w x y); [|reflexivity].
  unfold fmap, option_fmap, option_map. f_equal.
  unfold near_fill. apply max_of_binary. intros p.
  rewrite pixel_filled_mask.
  destruct (in_image h w (fst p) (snd p)); simpl; [|reflexivity].
  now destruct (existsb _ boxes).
Qed.

Lemma near_fill_spec (boxes : list Box) (x y : Z) :
  near_fill h w m boxes x y = true <->
  exists b x' y',
    In b boxes /\ x - 1 <= x' <= x + 1 /\ y - 1 <= y' <= y + 1 /\
    (0 <= x' < Z.of_nat w /\ 0 <= y' < Z.of_nat h) /\
    filled h w m b x' y' = true.
Proof.
  unfold near_fill. rewrite existsb_exists. split.
  - intros ([x' y'] & Hin & Hp). simpl in Hp.
    apply andb_true_iff in Hp as [Him Hf].
    apply existsb_exists in Hf as (b & Hb & Hf).
    exists b, x', y'. split; [exact Hb|].
    apply in_image_spec in Him.
    unfold neighbourhood in Hin. simpl in Hin.
    repeat (destruct Hin as [Hin | Hin];
            [injection Hin as <- <-; repeat split; solve [lia | tauto | exact Hf]|]).
    destruct Hin.
  - intros (b & x' & y' & Hb & Hx & Hy & Him & Hf).
    exists (x', y'). split.
    + unfold neighbourhood. simpl.
      assert (Hcx : x' = x - 1 \/ x' = x \/ x' = x + 1) by lia.
      assert (Hcy : y' = y - 1 \/ y' = y \/ y' = y + 1) by lia.
      destruct Hcx as [-> | [-> | ->]], Hcy as [-> | [-> | ->]]; tauto.
    + simpl. apply andb_true_iff. split; [now apply in_image_spec|].
      apply existsb_exists. eauto.
Qed.

(** X: the mask marks exactly the pixels of the image that have, among
    themselves and their eight neighbours, a pixel of the image that some
    region's rectangle fills. *)
Theorem erase_mask_marked_iff (boxes : list Box) (x y : Z) :
  pixel (erase_mask h w boxes m) x y = Some 255 <->
  (0 <= x < Z.of_nat w /\ 0 <= y < Z.of_nat h) /\
  exists b x' y',
    In b boxes /\ x - 1 <= x' <= x + 1 /\ y - 1 <= y' <= y + 1 /\
    (0 <= x' < Z.of_nat w /\ 0 <= y' < Z.of_nat h) /\
    filled h w m b x' y' = true.
Proof.
  rewrite pixel_erase_mask, <- near_fill_spec, <- in_image_spec.
  destruct (in_image h w x y), (near_fill h w m boxes x y);
    split; try tauto; try discriminate; intros [? ?]; discriminate.
Qed.

Lemma lookup_pixel (mask : Mask) (row : list Z) (i j : nat) :
  mask !! i = Some row -> row !! j = pixel mask (Z.of_nat j) (Z.of_nat i).
Proof.
  intros Hr. rewrite pixel_in_image by lia. rewrite !Nat2Z.id, Hr. reflexivity.
Qed.

Lemma erase_mask_rows (boxes : list Box) :
  length (erase_mask h w boxes m) = h /\
  forall i row, erase_mask h w boxes m !! i = Some row -> length row = w.
Proof.
  unfold erase_mask, dilate. rewrite length_imap.
  assert (Hf : forall bs mask,
             length mask = h -> Forall (fun row => length row = w) mask ->
             length (fold_left (fill_box h w m) bs mask) = h /\
             Forall (fun row => length row = w) (fold_left (fill_box h w m) bs mask)).
  { induction bs as [|b bs IH]; intros mask Hl Hr; simpl; [now split|].
    apply IH.
    - unfold fill_box, rectangle. now rewrite length_imap.
    - unfold fill_box, rectangle. apply List.Forall_forall. intros row Hin.
      apply list_elem_of_In, list_elem_of_lookup in Hin as [i Hi].
      rewrite list_lookup_imap in Hi.
      destruct (mask !! i) as [r|] eqn:E; [|discriminate]. injection Hi as <-.
      rewrite length_imap. rewrite List.Forall_forall in Hr. apply Hr.
      apply list_elem_of_In, list_elem_of_lookup. eauto. }
  destruct (Hf boxes (zeros h w)) as [Hl Hr].
  { unfold zeros. apply length_replicate. }
  { unfold zeros. apply List.Forall_forall. intros row Hin.
    apply list_elem_of_In, elem_of_replicate in Hin as [-> _]. apply length_replicate. }
  split; [exact Hl|]. intros i row Hi. rewrite list_lookup_imap in Hi.
  destruct (fold_left _ boxes _ !! i) as [r|] eqn:E; [|discriminate]. injection Hi as <-.
  rewrite length_imap. rewrite List.Forall_forall in Hr. apply Hr.
  apply list_elem_of_In, list_elem_of_lookup. eauto.
Qed.

(** X: the mask has the shape of the image, and each of its values is 0 or
    255, whatever the regions and the margin are. *)
Theorem erase_mask_binary (boxes : list Box) :
  binary_mask h w (erase_mask h w boxes m).
Proof.
  destruct (erase_mask_rows boxes) as [Hl Hr]. split; [exact Hl|].
  apply List.Forall_forall. intros row Hin.
  apply list_elem_of_In, list_elem_of_lookup in Hin as [i Hi].
  split; [now apply (Hr i)|].
  apply List.Forall_forall. intros v Hv.
  apply list_elem_of_In, list_elem_of_lookup in Hv as [j Hj].
  rewrite (lookup_pixel _ _ _ _ Hi), pixel_erase_mask in Hj.
  destruct (in_image h w _ _); [|discriminate].
  destruct (near_fill h w m boxes _ _); injection Hj as <-; auto.
Qed.

Lemma existsb_same_elements {A} (f : A -> bool) (l l' : list A) :
  (forall x, In x l <-> In x l') -> existsb f l = existsb f l'.
Proof.
  intros H. apply eq_true_iff_eq. rewrite !existsb_exists.
  split; intros (x & Hx & Hf); exists x; split; auto; now apply H.
Qed.

Lemma existsb_pointwise {A} (f g : A -> bool) (l : list A) :
  (forall x, f x = g x) -> existsb f l = existsb g l.
Proof.
  intros H. induction l as [|a l IH]; simpl; [reflexivity|]. now rewrite H, IH.
Qed.

Lemma near_fill_same_elements (boxes boxes' : list Box) (x y : Z) :
  (forall b, In b boxes <-> In b boxes') ->
  near_fill h w m boxes x y = near_fill h w m boxes' x y.
Proof.
  intros H. unfold near_fill. apply existsb_pointwise. intros p.
  f_equal. now apply existsb_same_elements.
Qed.

Lemma mask_ext (a b : Mask) :
  length a = h -> length b = h ->
  (forall i row, a !! i = Some row -> length row = w) ->
  (forall i row, b !! i = Some row -> length row = w) ->
  (forall x y, pixel a x y = pixel b x y) ->
  a = b.
Proof.
  intros Ha Hb Hra Hrb Hp. apply list_eq. intros i.
  destruct (a !! i) as [ra|] eqn:Ea, (b !! i) as [rb|] eqn:Eb.
  - f_equal. apply list_eq. intros j.
    rewrite (lookup_pixel _ _ _ _ Ea), (lookup_pixel _ _ _ _ Eb). apply Hp.
  - apply lookup_lt_Some in Ea. apply lookup_ge_None in Eb. lia.
  - apply lookup_lt_Some in Eb. apply lookup_ge_None in Ea. lia.
  - reflexivity.
Qed.

(** X: the mask depends on which regions a page has, not on the order in
    which they are listed nor on how often one is repeated. *)
Theorem erase_mask_same_elements (boxes boxes' : list Box) :
  (forall b, In b boxes <-> In b boxes') ->
  erase_mask h w boxes m = erase_mask h w boxes' m.
Proof.
  intros H.
  destruct (erase_mask_rows boxes) as [Hl Hr].
  destruct (erase_mask_rows boxes') as [Hl' Hr'].
  apply mask_ext; auto.
  intros x y. rewrite !pixel_erase_mask.
  now rewrite (near_fill_same_elements boxes boxes' x y H).
Qed.

(** X: a page with more regions has no fewer pixels marked: a pixel
    marked for some regions stays marked when regions are added. *)
Theorem erase_mask_monotone (boxes boxes' : list Box) (x y : Z) :
  (forall b, In b boxes -> In b boxes') ->
  pixel (erase_mask h w boxes m) x y = Some 255 ->
  pixel (erase_mask h w boxes' m) x y = Some 255.
Proof.
  intros Hincl. rewrite !pixel_erase_mask. destruct (in_image h w x y); [|discriminate].
  destruct (near_fill h w m boxes x y) eqn:E; [|discriminate]. intros _.
  apply near_fill_spec in E as (b & x' & y' & Hb & Hrest).
  assert (E' : near_fill h w m boxes' x y = true).
  { apply near_fill_spec. exists b, x', y'. split; [|exact Hrest]. now apply Hincl. }
  now rewrite E'.
Qed.

End MaskPixels.

(** ** Failures of the per-page work *)

Lemma page_step_open_raises (w : World) (a : Args) (d : Docs) (i : nat)
    (im : ImageMeta) (e : exn) :
  image_open w (im_path im) = Raise e -> page_step w a d (i, im) = Raise e.
Proof. intros H. unfold page_step. simpl fst. simpl snd. now rewrite H. Qed.

Lemma page_step_imread_raises (w : World) (a : Args) (d : Docs) (i : nat) (im : ImageMeta) :
  erase a = true -> imread_shape w (im_path im) = None ->
  exists e, page_step w a d (i, im) = Raise e.
Proof.
  intros He Hn. unfold page_step. simpl fst. simpl snd.
  destruct (image_open w (im_path im)) as [size|e0]; simpl; [|eauto].
  destruct (outcome (for_each _ (im_boxes im) [])) as [boxes|e1]; simpl; [|eauto].
  unfold bg_path_of. rewrite He, Hn. simpl. eauto.
Qed.

Lemma pages_raise_no_save (w : World) (a : Args) (images : list ImageMeta) (im : ImageMeta) :
  read_region_file w (json_path a) = Ok images ->
  In im images ->
  (forall d i, exists e, page_step w a d (i, im) = Raise e) ->
  (exists e, outcome (build_from_json w a) = Raise e) /\
  no_save (trace (build_from_json w a)).
Proof.
  intros Hr Him Hraise. rewrite build_from_json_cases, Hr. cbv zeta.
  destruct (In_enumerate im images Him) as [i Hi].
  destruct (for_each_r_raises (page_step w a) (enumerate images) (i, im) (initial_docs a) Hi)
    as [e' He'].
  { intros d. apply Hraise. }
  rewrite outcome_pages, He'. simpl. split; [eauto|].
  constructor; [reflexivity|]. apply no_save_for_each. intros. apply no_save_build_page.
Qed.

(** X: an image of the region file that PIL cannot open, or that OpenCV
    cannot read when erasing is on, is fatal wherever it stands in the
    list: the run ends with an exception and no document is written, not
    even with the pages before it. *)
Theorem unreadable_image_is_fatal (w : World) (a : Args) (images : list ImageMeta)
    (im : ImageMeta) :
  read_region_file w (json_path a) = Ok images ->
  In im images ->
  (exists e, image_open w (im_path im) = Raise e) \/
  (erase a = true /\ imread_shape w (im_path im) = None) ->
  (exists e, outcome (build_from_json w a) = Raise e) /\
  no_save (trace (build_from_json w a)).
Proof.
  intros Hr Him Hbad. apply (pages_raise_no_save w a images im Hr Him).
  intros d i. destruct Hbad as [[e He] | [He Hn]].
  - exists e. now apply page_step_open_raises.
  - now apply page_step_imread_raises.
Qed.

(** ** A resolution of zero *)

Lemma page_ok_stages (w : World) (a : Args) (im : ImageMeta) :
  page_ok w a im ->
  exists size boxes bg,
    image_open w (im_path im) = Ok size /\
    outcome (for_each (prefill_box w a (im_path im)) (im_boxes im) []) = Ok boxes /\
    bg_path_of w a (im_path im) = Ok bg.
Proof.
  intros ([size Hs] & Hocr & Her).
  destruct (prefill_returns w a (im_path im) (im_boxes im) Hocr) as [boxes Hb].
  assert (Hbg : exists bg, bg_path_of w a (im_path im) = Ok bg).
  { unfold bg_path_of. destruct (erase a); [|eauto].
    destruct (Her eq_refl) as [[shape ->] Hname]. now apply clean_path_total. }
  destruct Hbg as [bg Hbg]. eauto 6.
Qed.

Local Opaque bind.

Lemma trace_build_page_stages (w : World) (a : Args) (d : Docs) (i : nat) (im : ImageMeta)
    (size : Z * Z) (boxes : list Box) :
  image_open w (im_path im) = Ok size ->
  outcome (for_each (prefill_box w a (im_path im)) (im_boxes im) []) = Ok boxes ->
  exists post,
    trace (build_page w a d (i, im))
    = EvImageOpen (im_path im)
      :: trace (for_each (prefill_box w a (im_path im)) (im_boxes im) [])
      ++ trace (if erase a
                then inpaint_background w (im_path im) boxes (expand_px a) (radius a)
                else ret (im_path im))
      ++ post.
Proof.
  intros Hs Hb. unfold build_page.
  rewrite trace_bind. change (outcome (emit _)) with (@Ok unit tt). cbv iota.
  rewrite trace_bind, outcome_lift, trace_lift, Hs. destruct size as [w_px h_px].
  rewrite trace_bind, Hb. rewrite trace_bind.
  eexists. reflexivity.
Qed.

Local Transparent bind.

Lemma trace_first_page (w : World) (a : Args) (im : ImageMeta) (rest : list ImageMeta) :
  read_region_file w (json_path a) = Ok (im :: rest) ->
  exists post,
    trace (build_from_json w a)
    = EvReadRegionFile (json_path a)
      :: trace (build_page w a (initial_docs a) (0%nat, im)) ++ post.
Proof.
  intros Hr. rewrite build_from_json_cases, Hr. cbv zeta.
  rewrite enumerate_cons. cbn [for_each]. rewrite trace_bind, outcome_bind.
  destruct (outcome (build_page w a (initial_docs a) (0%nat, im))) as [d1|e]; cbn [rbind].
  - match goal with
    | |- context [outcome ?c] => destruct (outcome c) as [d|e]
    end; cbn [trace snd]; rewrite <- ?app_assoc; eexists; reflexivity.
  - cbn [trace snd]. eexists. reflexivity.
Qed.

(** X: a resolution of zero is found out late.  When the first image is
    one whose per-page work cannot fail otherwise, the run ends with
    [ZeroDivisionError] and writes no document, but only after that image
    was opened and its regions were prefilled; with erasing on, its
    reconstructed background file has been written by then. *)
Theorem zero_dpi_fails_late (w : World) (a : Args) (im : ImageMeta)
    (rest : list ImageMeta) :
  (dpi a == 0)%Q ->
  read_region_file w (json_path a) = Ok (im :: rest) ->
  page_ok w a im ->
  outcome (build_from_json w a) = Raise ZeroDivisionError /\
  no_save (trace (build_from_json w a)) /\
  (exists tl, trace (build_from_json w a)
              = EvReadRegionFile (json_path a) :: EvImageOpen (im_path im) :: tl) /\
  (erase a = true ->
   exists out mask, In (EvImwrite out mask (radius a)) (trace (build_from_json w a))).
Proof.
  intros Hd Hr Hok.
  destruct (page_ok_stages w a im Hok) as (size & boxes & bg & Hs & Hb & Hbg).
  assert (Hz : Qeq_bool (dpi a) 0 = true) by now apply Qeq_eq_bool.
  assert (Hstep : forall d, page_step w a d (0%nat, im) = Raise ZeroDivisionError).
  { intros d. unfold page_step. simpl fst. simpl snd. rewrite Hs, Hb, Hbg. cbn [rbind].
    unfold px_to_inches. rewrite Hz. reflexivity. }
  destruct (trace_first_page w a im rest Hr) as [post Ht].
  destruct (trace_build_page_stages w a (initial_docs a) 0 im size boxes Hs Hb)
    as [post' Hp].
  split; [|split; [|split]].
  - rewrite build_from_json_cases, Hr. cbv zeta.
    rewrite outcome_pages, enumerate_cons. cbn [for_each_r]. rewrite Hstep. reflexivity.
  - rewrite build_from_json_cases, Hr. cbv zeta.
    rewrite outcome_pages, enumerate_cons. cbn [for_each_r]. rewrite Hstep. cbn [rbind].
    constructor; [reflexivity|]. apply no_save_for_each. intros. apply no_save_build_page.
  - rewrite Ht, Hp. cbn [app]. eauto.
  - intros He. rewrite Ht, Hp, He.
    rewrite inpaint_background_cases.
    unfold bg_path_of in Hbg. rewrite He in Hbg.
    destruct (imread_shape w (im_path im)) as [[h wd]|]; [|discriminate].
    rewrite Hbg. cbn [trace snd].
    exists bg, (erase_mask h wd boxes (expand_px a)).
    right. apply in_or_app. left. right. apply in_or_app. right.
    apply in_or_app. left. right. left. reflexivity.
Qed.

(** ** Optional stages and the order of the effects *)

Lemma never_app (kind : event -> bool) (t1 t2 : list event) :
  never kind t1 -> never kind t2 -> never kind (t1 ++ t2).
Proof. apply Forall_app_2. Qed.

Lemma never_bind {A B} (kind : event -> bool) (c : M A) (k : A -> M B) :
  never kind (trace c) -> (forall a, never kind (trace (k a))) ->
  never kind (trace (bind c k)).
Proof.
  intros Hc Hk. rewrite trace_bind. apply never_app; [exact Hc|].
  destruct (outcome c); [apply Hk | constructor].
Qed.

Lemma never_for_each {A S} (kind : event -> bool) (body : S -> A -> M S)
    (l : list A) (s : S) :
  (forall s x, never kind (trace (body s x))) -> never kind (trace (for_each body l s)).
Proof.
  intros Hb. revert s. induction l as [|x l IH]; intros s; simpl.
  - constructor.
  - apply never_bind; [apply Hb | intros; apply IH].
Qed.

Ltac never_step :=
  first
    [ apply never_bind; [|intros]
    | apply never_for_each; intros
    | solve [repeat constructor] ].

Lemma never_save_outputs (kind : event -> bool) (w : World) (a : Args) (d : Docs) :
  (forall p prs, kind (EvSavePptx p prs) = false) ->
  (forall p doc, kind (EvSaveDocx p doc) = false) ->
  (forall msg, kind (EvPrint msg) = false) ->
  never kind (trace (save_outputs w a d)).
Proof.
  intros Hp Hd Hm. unfold save_outputs, save_pptx, save_docx.
  apply never_bind.
  - destruct (prs_of d), (out_pptx a) as [path|]; try solve [constructor].
    destruct (can_write w path); [|constructor].
    apply never_bind; [|intros]; repeat constructor; auto.
  - intros _. destruct (doc_of d), (out_docx a) as [path|]; try solve [constructor].
    destruct (can_write w path); [|constructor].
    apply never_bind; [|intros]; repeat constructor; auto.
Qed.

Lemma never_run (kind : event -> bool) (w : World) (a : Args) :
  kind (EvReadRegionFile (json_path a)) = false ->
  (forall d it, never kind (trace (build_page w a d it))) ->
  (forall d, never kind (trace (save_outputs w a d))) ->
  never kind (trace (build_from_json w a)).
Proof.
  intros Hr Hp Hs. unfold build_from_json.
  apply never_bind; [repeat constructor; exact Hr | intros _].
  apply never_bind; [constructor | intros images].
  apply never_bind; [apply never_for_each; intros; apply Hp | intros d; apply Hs].
Qed.

Lemma no_ocr_build_page (w : World) (a : Args) (d : Docs) (it : nat * ImageMeta) :
  ocr_prefill a = false -> never is_ocr (trace (build_page w a d it)).
Proof.
  intros Ho. destruct it as [i imeta]. unfold build_page.
  apply never_bind; [never_step | intros _].
  apply never_bind; [never_step | intros [w_px h_px]].
  apply never_bind.
  { apply never_for_each. intros. unfold prefill_box. rewrite Ho. repeat never_step. }
  intros boxes. apply never_bind.
  { destruct (erase a); [|never_step]. unfold inpaint_background.
    never_step; [never_step|].
    destruct (imread_shape w (im_path imeta)) as [[h wd]|]; repeat never_step. }
  intros bg_path.
  apply never_bind; [never_step | intros w_in].
  apply never_bind; [never_step | intros h_in].
  apply never_bind; [destruct (prs_of d); repeat never_step | intros prs'].
  apply never_bind; [destruct (doc_of d); repeat never_step | intros doc'].
  never_step.
Qed.

Lemma no_opencv_build_page (w : World) (a : Args) (d : Docs) (it : nat * ImageMeta) :
  erase a = false -> never is_opencv (trace (build_page w a d it)).
Proof.
  intros He. destruct it as [i imeta]. unfold build_page.
  apply never_bind; [never_step | intros _].
  apply never_bind; [never_step | intros [w_px h_px]].
  apply never_bind.
  { apply never_for_each. intros. unfold prefill_box, ocr_crop.
    destruct (ocr_prefill a); repeat never_step. }
  intros boxes. rewrite He.
  apply never_bind; [never_step | intros bg_path].
  apply never_bind; [never_step | intros w_in].
  apply never_bind; [never_step | intros h_in].
  apply never_bind; [destruct (prs_of d); repeat never_step | intros prs'].
  apply never_bind; [destruct (doc_of d); repeat never_step | intros doc'].
  never_step.
Qed.

(** X: the optional stages are off unless asked for.  Without OCR prefill
    the engine is never called, and without erasing no image is read or
    written through OpenCV, whatever else the run does. *)
Theorem optional_stages_off (w : World) (a : Args) :
  (ocr_prefill a = false -> never is_ocr (trace (build_from_json w a))) /\
  (erase a = false -> never is_opencv (trace (build_from_json w a))).
Proof.
  split; intros H; apply never_run; try reflexivity.
  - intros. now apply no_ocr_build_page.
  - intros. apply never_save_outputs; auto.
  - intros. now apply no_opencv_build_page.
  - intros. apply never_save_outputs; auto.
Qed.

(** ** Which documents a run writes *)

Lemma saved_files_app (t1 t2 : list event) :
  saved_files (t1 ++ t2) = saved_files t1 ++ saved_files t2.
Proof. apply omap_app. Qed.

Lemma saved_files_no_save (t : list event) : no_save t -> saved_files t = [].
Proof.
  induction 1 as [|e t He _ IH]; [reflexivity|].
  unfold saved_files in *. cbn [omap list_omap]. rewrite IH. now destruct e.
Qed.

Lemma pages_docs_kept (w : World) (a : Args) (images : list ImageMeta) (d : Docs) :
  for_each_r (page_step w a) (enumerate images) (initial_docs a) = Ok d ->
  (prs_of d = None <-> truthy_str (out_pptx a) = None) /\
  (doc_of d = None <-> truthy_str (out_docx a) = None).
Proof.
  intros H. pose proof (pages_keep_none _ _ _ _ _ H) as [Hp Hd].
  change (enumerate images) with (enumerate_from 0 images) in H.
  unfold initial_docs, truthy_str in *. cbn [prs_of doc_of] in *. split.
  - destruct (out_pptx a) as [[|c s]|]; cbn [opt_truthy str_truthy] in *;
      try (split; [reflexivity | intros _; now apply Hp]).
    destruct (pages_pptx _ _ _ _ _ _ new_presentation H eq_refl) as (p & new & -> & _).
    split; discriminate.
  - destruct (out_docx a) as [[|c s]|]; cbn [opt_truthy str_truthy] in *;
      try (split; [reflexivity | intros _; now apply Hd]).
    destruct (pages_docx _ _ _ _ _ _ new_document H eq_refl) as (p & pages & bgs & -> & _).
    split; discriminate.
Qed.

Lemma saved_files_save_outputs (w : World) (a : Args) (d : Docs) :
  (prs_of d = None <-> truthy_str (out_pptx a) = None) ->
  (doc_of d = None <-> truthy_str (out_docx a) = None) ->
  (outcome (save_outputs w a d) = Ok tt ->
   saved_files (trace (save_outputs w a d)) = requested_files a) /\
  (exists rest, requested_files a = saved_files (trace (save_outputs w a d)) ++ rest).
Proof.
  unfold save_outputs, save_pptx, save_docx, requested_files, truthy_str.
  intros [Hp1 Hp2] [Hd1 Hd2].
  destruct (prs_of d) as [prs|], (out_pptx a) as [[|c s]|];
    cbn [opt_truthy str_truthy] in *;
    try (specialize (Hp1 eq_refl); discriminate);
    try (specialize (Hp2 eq_refl); discriminate);
    clear Hp1 Hp2;
    (destruct (doc_of d) as [doc|], (out_docx a) as [[|c' s']|];
     cbn [opt_truthy str_truthy] in *;
     try (specialize (Hd1 eq_refl); discriminate);
     try (specialize (Hd2 eq_refl); discriminate);
     clear Hd1 Hd2);
    repeat match goal with
           | |- context [can_write w ?p] => destruct (can_write w p)
           end;
    (split; [try discriminate; intros _; reflexivity | eexists; reflexivity]).
Qed.

(** X: a run writes each document it is asked for at most once and
    nothing else, the slide deck before the word-processor document; a
    run that returns has written all of them. *)
Theorem saved_files_of_run (w : World) (a : Args) :
  (outcome (build_from_json w a) = Ok tt ->
   saved_files (trace (build_from_json w a)) = requested_files a) /\
  (exists rest,
     requested_files a = saved_files (trace (build_from_json w a)) ++ rest).
Proof.
  rewrite build_from_json_cases.
  destruct (read_region_file w (json_path a)) as [images|e];
    [|split; [discriminate | eexists; reflexivity]].
  cbv zeta. rewrite outcome_pages.
  assert (Hns : saved_files
                  (trace (for_each (build_page w a) (enumerate images) (initial_docs a)))
                = []).
  { apply saved_files_no_save, no_save_for_each. intros. apply no_save_build_page. }
  destruct (for_each_r (page_step w a) (enumerate images) (initial_docs a)) as [d|e] eqn:E.
  - destruct (pages_docs_kept w a images d E) as [Hp Hd].
    cbn [outcome trace fst snd].
    change (saved_files (EvReadRegionFile (json_path a) :: ?t)) with (saved_files t).
    rewrite saved_files_app, Hns. cbn [app].
    apply saved_files_save_outputs; assumption.
  - cbn [outcome trace fst snd].
    change (saved_files (EvReadRegionFile (json_path a) :: ?t)) with (saved_files t).
    rewrite Hns. split; [discriminate | eexists; reflexivity].
Qed.


(** ** The two documents of one run *)

Lemma pages_both (w : World) (a : Args) (images : list ImageMeta) (k : nat) (d d' : Docs)
    (prs : Presentation) (doc : Document) :
  for_each_r (page_step w a) (enumerate_from k images) d = Ok d' ->
  prs_of d = Some prs -> doc_of d = Some doc ->
  exists p new doc' pages bgs,
    prs_of d' = Some p /\ slides p = slides prs ++ new /\
    doc_of d' = Some doc' /\
    doc_body doc' = doc_body doc ++ join_pages_from k pages /\
    Forall2 (fun s tbs => slide_summary s = docx_summary tbs) new pages /\
    map slide_image_files new = map (fun bg => [bg]) bgs /\
    map (fun hp => fst (fst hp)) (header_pictures (doc_section doc'))
    = map (fun hp => fst (fst hp)) (header_pictures (doc_section doc)) ++ bgs.
Proof.
  revert k d prs doc. induction images as [|im images IH]; intros k d prs doc.
  - simpl. intros [= <-] Hp Hd. exists prs, [], doc, [], []. rewrite !app_nil_r.
    repeat split; auto.
  - rewrite enumerate_from_cons. simpl.
    destruct (page_step w a d (k, im)) as [d1|] eqn:E; simpl; [|discriminate].
    intros H Hp Hd. apply page_step_ok in E as (bg & bbs & Hbg & Hbbs & Hprs & Hdoc).
    rewrite Hp in Hprs. destruct Hprs as (p1 & s & Hp1 & Hs1 & Hf & Hsum).
    rewrite Hd in Hdoc. destruct Hdoc as (doc1 & tbs & Hd1 & Hb1 & Hsum' & Hh1).
    destruct (IH _ _ _ _ H Hp1 Hd1)
      as (p & new & doc' & pages & bgs & Hp' & Hs & Hd' & Hb & Hall & Hf' & Hh).
    exists p, (s :: new), doc', (tbs :: pages), (bg :: bgs).
    split; [exact Hp'|]. split; [|split; [exact Hd'|split; [|split; [|split]]]].
    + rewrite Hs, Hs1, <- app_assoc. reflexivity.
    + rewrite Hb, Hb1, join_pages_from_cons, <- !app_assoc. reflexivity.
    + constructor; [congruence | exact Hall].
    + cbn [map]. now rewrite Hf, Hf'.
    + rewrite Hh, Hh1, <- app_assoc. reflexivity.
Qed.

(** X: when a run writes both documents, they agree page by page: the
    word-processor document has as many pages as the deck has slides, the
    text boxes of a page have the positions, sizes (in EMU) and texts of
    the text boxes of the slide, in the same order, and the header
    pictures are the background pictures of the slides, in order. *)
Theorem formats_agree (w : World) (a : Args) (p q : string) :
  outcome (build_from_json w a) = Ok tt ->
  out_pptx a = Some p -> p <> EmptyString ->
  out_docx a = Some q -> q <> EmptyString ->
  exists prs doc pages,
    In (EvSavePptx p prs) (trace (build_from_json w a)) /\
    In (EvSaveDocx q doc) (trace (build_from_json w a)) /\
    doc_body doc = join_pages pages /\
    Forall2 (fun s tbs => slide_summary s = docx_summary tbs) (slides prs) pages /\
    map slide_image_files (slides prs)
    = map (fun hp => [fst (fst hp)]) (header_pictures (doc_section doc)).
Proof.
  rewrite build_from_json_cases.
  destruct (read_region_file w (json_path a)) as [images|]; [|discriminate].
  cbv zeta. rewrite outcome_pages.
  destruct (for_each_r (page_step w a) (enumerate images) (initial_docs a)) as [d|] eqn:E;
    [|discriminate].
  simpl. intros Hsave Hp Hpne Hq Hqne.
  apply save_outputs_ok in Hsave as [Hsp Hsd].
  change (enumerate images) with (enumerate_from 0 images) in E.
  assert (Hip : prs_of (initial_docs a) = Some new_presentation).
  { unfold initial_docs. rewrite Hp. simpl. destruct p; [congruence | reflexivity]. }
  assert (Hid : doc_of (initial_docs a) = Some new_document).
  { unfold initial_docs. rewrite Hq. simpl. destruct q; [congruence | reflexivity]. }
  destruct (pages_both _ _ _ _ _ _ _ _ E Hip Hid)
    as (prs & new & doc & pages & bgs & Hp' & Hs & Hd' & Hb & Hall & Hf & Hh).
  simpl in Hs, Hb, Hh. subst new.
  exists prs, doc, pages. split; [|split; [|split; [|split]]].
  - right. apply in_or_app. right. now apply Hsp.
  - right. apply in_or_app. right. now apply Hsd.
  - exact Hb.
  - exact Hall.
  - rewrite Hf, <- Hh, map_map. reflexivity.
Qed.

(** ** The section of the word-processor document *)




(** ** The unit converter keeps the order of lengths *)


(** ** Reconstructed files of images that differ in their suffix *)

Lemma string_app_inv_tail (s1 s2 t : string) :
  (s1 ++ t)%string = (s2 ++ t)%string -> s1 = s2.
Proof.
  intros H. apply (f_equal list_ascii_of_string) in H.
  rewrite !list_ascii_of_string_app in H. apply app_inv_tail in H.
  apply (f_equal string_of_list_ascii) in H.
  now rewrite !string_of_list_ascii_of_string in H.
Qed.

(** X: the file name of the reconstructed background forgets the suffix
    of the image.  Two images whose paths differ only in the suffix (two
    scans [p.png] and [p.jpg] of one folder) are given the same file, so
    the reconstruction of the second overwrites that of the first. *)
Theorem clean_path_forgets_suffix (path1 path2 base out1 out2 : string) :
  source_str path1 = (base ++ source_suffix path1)%string ->
  source_str path2 = (base ++ source_suffix path2)%string ->
  clean_path path1 = Ok out1 -> clean_path path2 = Ok out2 ->
  out1 = out2 /\ out1 = (base ++ "_clean.png")%string.
Proof.
  intros H1 H2 Hc1 Hc2.
  apply clean_path_ok in Hc1 as (_ & s1 & Hs1 & ->).
  apply clean_path_ok in Hc2 as (_ & s2 & Hs2 & ->).
  rewrite H1 in Hs1. rewrite H2 in Hs2.
  apply string_app_inv_tail in Hs1, Hs2. subst. split; reflexivity.
Qed.

(** ** What the region file is read for *)

Lemma bind_ext {A B} (c : M A) (k1 k2 : A -> M B) :
  (forall a, k1 a = k2 a) -> bind c k1 = bind c k2.
Proof. intros H. destruct c as [[a|e] t]; cbn; [now rewrite H | reflexivity]. Qed.

Lemma prefill_without_text (w : World) (a : Args) (img_path : string) (bs acc : list Box) :
  for_each (prefill_box (with_bare_records w) a img_path) (map without_text bs) acc
  = for_each (prefill_box w a img_path) bs acc.
Proof.
  revert acc. induction bs as [|b bs IH]; intros acc; [reflexivity|].
  cbn [map for_each]. apply bind_ext. intros acc'. apply IH.
Qed.

Lemma build_page_bare (w : World) (a : Args) (d : Docs) (i : nat) (im : ImageMeta) :
  build_page (with_bare_records w) a d (i, bare_record im) = build_page w a d (i, im).
Proof.
  unfold build_page. cbn [bare_record im_path im_boxes with_bare_records image_open].
  apply bind_ext. intros _. apply bind_ext. intros [w_px h_px].
  rewrite prefill_without_text. reflexivity.
Qed.

Lemma pages_bare (w : World) (a : Args) (images : list ImageMeta) (k : nat) (d : Docs) :
  for_each (build_page (with_bare_records w) a) (enumerate_from k (map bare_record images)) d
  = for_each (build_page w a) (enumerate_from k images) d.
Proof.
  revert k d. induction images as [|im images IH]; intros k d; [reflexivity|].
  cbn [map]. rewrite !enumerate_from_cons. cbn [for_each].
  rewrite build_page_bare. apply bind_ext. intros d'. apply IH.
Qed.

(** X: of the region file, a run reads the path of each image and the
    position and size of each region, and nothing else: with the recorded
    widths and heights set to zero and every text of a region removed, the
    run does and returns the same.  The page size comes from the image
    file, and the text from the OCR engine or the placeholder. *)
Theorem region_file_text_is_ignored (w : World) (a : Args) :
  build_from_json (with_bare_records w) a = build_from_json w a.
Proof.
  unfold build_from_json. apply bind_ext. intros _.
  cbn [with_bare_records read_region_file].
  destruct (read_region_file w (json_path a)) as [images|e]; [|reflexivity].
  unfold lift, bind at 1 3. cbn [app].
  change (enumerate (map bare_record images))
    with (enumerate_from 0 (map bare_record images)).
  change (enumerate images) with (enumerate_from 0 images).
  rewrite pages_bare. reflexivity.
Qed.

(** * The box annotator *)

Module AnnotateFacts.
Import Annotate.

Lemma set_scale_same (s : State) : set_scale s (scale s) = s.
Proof. now destruct s. Qed.

Lemma py_max_lower (a b : Q) : (a <= py_max a b)%Q.
Proof. unfold py_max. destruct (Qlt_le_dec a b); [now apply Qlt_le_weak | apply Qle_refl]. Qed.

Lemma py_lt_spec (a b : Q) : py_lt a b = true <-> (a < b)%Q.
Proof.
  unfold py_lt. rewrite negb_true_iff. split.
  - intros H. apply Qnot_le_lt. intros Hle. apply Qle_bool_iff in Hle. congruence.
  - intros H. destruct (Qle_bool b a) eqn:E; [|reflexivity].
    apply Qle_bool_iff in E. exfalso. now apply (Qlt_not_le a b).
Qed.

(** ** Rendering *)

(** Rendering changes the scale and nothing else, and the scale it sets is
    positive. *)
Lemma render_scale (s : State) :
  exists sc e,
    _render s = (set_scale s sc, e) /\ ((0 < scale s)%Q -> (0 < sc)%Q).
Proof.
  unfold _render. destruct (img s) as [[iw ih]|].
  - destruct ((iw =? 0) || (ih =? 0)).
    + exists (scale s), (Some ZeroDivision). now rewrite set_scale_same.
    + cbv zeta.
      set (sc := py_max (1 # 1000) _).
      assert (Hsc : (0 < sc)%Q).
      { eapply Qlt_le_trans; [|apply py_max_lower]. reflexivity. }
      destruct (data (set_scale s sc) !! index (set_scale s sc)),
               (images (set_scale s sc) !! index (set_scale s sc)); eauto.
  - exists (scale s), None. now rewrite set_scale_same.
Qed.

Lemma consistent_set_scale (s : State) (sc : Q) :
  consistent s -> (0 < sc)%Q -> consistent (set_scale s sc).
Proof. unfold consistent. cbn. tauto. Qed.

(** In a consistent state rendering raises nothing. *)
Lemma render_ok (s : State) :
  consistent s -> exists sc, _render s = (set_scale s sc, None) /\ (0 < sc)%Q.
Proof.
  intros (Hi & Hl & Hs & Himg). unfold _render.
  destruct (img s) as [[iw ih]|] eqn:Ei.
  - destruct Himg as [Hw Hh].
    assert (E : (iw =? 0) || (ih =? 0) = false).
    { apply orb_false_iff. split; apply Z.eqb_neq; lia. }
    rewrite E. cbv zeta. set (sc := py_max (1 # 1000) _).
    assert (Hsc : (0 < sc)%Q).
    { eapply Qlt_le_trans; [|apply py_max_lower]. reflexivity. }
    cbn [data images index set_scale].
    destruct (lookup_lt_is_Some_2 (data s) (index s)) as [im ->]; [lia|].
    destruct (lookup_lt_is_Some_2 (images s) (index s)) as [p ->]; [lia|].
    eauto.
  - exists (scale s). now rewrite set_scale_same.
Qed.

(** ** What every handler keeps *)

Lemma kept_refl (s : State) : consistent s -> kept s (s, None).
Proof. intros H. unfold kept. cbn. auto 10. Qed.

Lemma kept_render (s s1 : State) :
  kept s (s1, None) -> kept s (_render s1).
Proof.
  intros (Hc & Hi & Ho & Hp & Hb & _). cbn [fst snd] in *.
  destruct (render_ok s1 Hc) as (sc & -> & Hsc).
  unfold kept. cbn [fst snd]. split; [now apply consistent_set_scale|].
  cbn. auto.
Qed.

Lemma map_page_of_alter (bs : list Box) (i : nat) (d : list ImageMeta) :
  map page_of (alter (fun im => mkImageMeta (im_path im) (im_width im) (im_height im) bs)
                     i d)
  = map page_of d.
Proof.
  revert i. induction d as [|im d IH]; intros [|i]; cbn; try reflexivity.
  f_equal. apply IH.
Qed.

Lemma kept_with_boxes (s : State) (bs : list Box) :
  consistent s -> (drawn_boxes (data s) -> Forall drawn_box bs) ->
  kept s (with_boxes s bs, None).
Proof.
  intros (Hi & Hl & Hs & Himg) Hbs. unfold kept, with_boxes. cbn [fst snd].
  split; [|split; [reflexivity|split; [reflexivity|split; [|split; [|exact I]]]]].
  - unfold consistent. cbn [index images data scale img set_data].
    rewrite length_alter. auto.
  - cbn [data set_data]. apply map_page_of_alter.
  - cbn [data set_data]. intros Hd. apply Forall_alter; [exact Hd|].
    intros im _ _. cbn [im_boxes]. now apply Hbs.
Qed.

Lemma consistent_with_boxes (s : State) (bs : list Box) :
  consistent s -> consistent (with_boxes s bs).
Proof.
  intros (Hi & Hl & Hs & Himg). unfold consistent, with_boxes.
  cbn [index images data scale img set_data]. rewrite length_alter. auto.
Qed.

Lemma consistent_clear_rect_id (s : State) :
  consistent s -> consistent (if rect_id s then set_rect_id s false else s).
Proof. now destruct (rect_id s). Qed.

Lemma kept_trans (s s1 : State) (r : State * option error) :
  kept s (s1, None) -> kept s1 r -> kept s r.
Proof.
  intros (Hc & Hi & Ho & Hp & Hb & _) (Hc' & Hi' & Ho' & Hp' & Hb' & He).
  cbn [fst snd] in *. unfold kept.
  split; [exact Hc'|]. split; [congruence|]. split; [congruence|].
  split; [congruence|]. split; [auto | exact He].
Qed.

(** Assignments to the fields the invariant does not read. *)
Lemma kept_set_selected_idx (s s1 : State) (i : option nat) :
  kept s (s1, None) -> kept s (set_selected_idx s1 i, None).
Proof. unfold kept, consistent. cbn. tauto. Qed.

Lemma kept_set_rect_start (s s1 : State) (r : option (Q * Q)) :
  kept s (s1, None) -> kept s (set_rect_start s1 r, None).
Proof. unfold kept, consistent. cbn. tauto. Qed.

Lemma kept_set_rect_id (s s1 : State) (r : bool) :
  kept s (s1, None) -> kept s (set_rect_id s1 r, None).
Proof. unfold kept, consistent. cbn. tauto. Qed.

Lemma kept_clear_rect_id (s s1 : State) :
  kept s (s1, None) -> kept s (if rect_id s1 then set_rect_id s1 false else s1, None).
Proof. intros H. destruct (rect_id s1); [now apply kept_set_rect_id | exact H]. Qed.

Lemma kept_set_zoom (s s1 : State) (z : Q) :
  kept s (s1, None) -> kept s (set_zoom s1 z, None).
Proof. unfold kept, consistent. cbn. tauto. Qed.

Lemma kept_set_canvas (s s1 : State) (c : Z * Z) :
  kept s (s1, None) -> kept s (set_canvas s1 c, None).
Proof. unfold kept, consistent. cbn. tauto. Qed.

Lemma boxes_consistent (s : State) :
  consistent s -> exists im, data s !! index s = Some im /\ boxes s = Some (im_boxes im).
Proof.
  intros (Hi & Hl & _). unfold boxes.
  destruct (lookup_lt_is_Some_2 (data s) (index s)) as [im E]; [lia|].
  exists im. now rewrite E.
Qed.

Lemma drawn_boxes_current (s : State) (im : ImageMeta) :
  drawn_boxes (data s) -> data s !! index s = Some im -> Forall drawn_box (im_boxes im).
Proof.
  intros Hd E. unfold drawn_boxes in Hd. rewrite List.Forall_forall in Hd.
  apply Hd. apply list_elem_of_In, list_elem_of_lookup. eauto.
Qed.

Lemma kept_load_image (open : string -> option (Z * Z)) (s s1 : State) :
  positive_sizes open -> kept s (s1, None) -> kept s (_load_image open s1).
Proof.
  intros Hopen Hk. pose proof Hk as (Hc & Hi & Ho & Hp & Hb & _). cbn [fst snd] in *.
  unfold _load_image.
  destruct Hc as (Hidx & Hl & Hs & Himg).
  destruct (lookup_lt_is_Some_2 (images s1) (index s1)) as [p ->]; [lia|].
  destruct (open p) as [[iw ih]|] eqn:E.
  - apply kept_render. unfold kept, consistent. cbn.
    pose proof (Hopen p iw ih E). auto 10.
  - unfold kept. cbn [fst snd]. unfold consistent. auto 10.
Qed.

Lemma removelast_drawn (bs : list Box) :
  Forall drawn_box bs -> Forall drawn_box (removelast bs).
Proof.
  intros H. rewrite List.Forall_forall in *. intros b Hb. apply H.
  clear H. induction bs as [|a [|c bs] IH]; cbn in *; tauto.
Qed.

Lemma delete_drawn (i : nat) (bs : list Box) :
  Forall drawn_box bs -> Forall drawn_box (delete i bs).
Proof.
  intros H. revert i. induction H as [|b bs Hb Hbs IH]; intros [|i]; cbn; auto.
Qed.

Lemma drawn_new_box (sc x0 y0 cx cy : Q) :
  (0 < sc)%Q ->
  drawn_box (mkBox (py_int (py_min x0 cx / sc)) (py_int (py_min y0 cy / sc))
                   (py_int (Qabs (cx - x0) / sc)) (py_int (Qabs (cy - y0) / sc)) None).
Proof.
  intros Hs. unfold drawn_box. cbn [b_width b_height b_text].
  assert (Hi : (0 <= / sc)%Q) by now apply Qlt_le_weak, Qinv_lt_0_compat.
  repeat split; apply py_int_nonneg; apply Qmult_le_0_compat; auto; apply Qabs_nonneg.
Qed.

(** Every handler keeps the invariant. *)
Lemma handler_kept (open : string -> option (Z * Z)) (ev : Event) (s : State) :
  positive_sizes open -> consistent s -> kept s (handler open ev s).
Proof.
  intros Hopen Hc. pose proof (kept_refl s Hc) as Hk.
  destruct (boxes_consistent s Hc) as (im & Him & Hbs).
  assert (Hcur : drawn_boxes (data s) -> Forall drawn_box (im_boxes im)).
  { intros Hd. now apply (drawn_boxes_current s). }
  destruct ev as [size|cx cy|cx cy|cx cy|cx cy| | | | | | |]; cbn [handler].
  - unfold _on_resize. now apply kept_render, kept_set_canvas.
  - unfold _on_down, _hit_test. rewrite Hbs.
    destruct (first_hit _ _ _ _ _) as [i|].
    + now apply kept_render, kept_set_selected_idx.
    + cbv zeta. now apply kept_clear_rect_id, kept_set_rect_start, kept_set_selected_idx.
  - unfold _on_drag. destruct (rect_start s); [now apply kept_set_rect_id | exact Hk].
  - unfold _on_up. destruct (rect_start s) as [[x0 y0]|]; [|exact Hk]. cbv zeta.
    destruct (py_lt (Qabs (cx - x0)) 5 || py_lt (Qabs (cy - y0)) 5).
    + now apply kept_clear_rect_id, kept_set_rect_start.
    + cbn [scale set_rect_start].
      assert (Hs : (0 < scale s)%Q) by apply Hc.
      assert (Ez : Qeq_bool (scale s) 0 = false).
      { destruct (Qeq_bool (scale s) 0) eqn:E; [|reflexivity].
        apply Qeq_bool_eq in E. rewrite E in Hs. discriminate. }
      rewrite Ez.
      change (boxes (set_rect_start s None)) with (boxes s). rewrite Hbs.
      apply kept_render, kept_clear_rect_id.
      apply (kept_trans s (set_rect_start s None)); [now apply kept_set_rect_start|].
      apply kept_with_boxes; [exact Hc|]. intros Hd.
      apply Forall_app_2; [now apply Hcur|]. constructor; [|constructor].
      now apply drawn_new_box.
  - unfold _on_right_click, _hit_test. rewrite Hbs.
    now apply kept_render, kept_set_selected_idx.
  - unfold _zoom. now apply kept_render, kept_set_zoom.
  - unfold _zoom. now apply kept_render, kept_set_zoom.
  - unfold next. destruct (_ <? _) eqn:E; [|exact Hk].
    apply Z.ltb_lt in E. apply kept_load_image; [exact Hopen|].
    unfold kept, consistent in *. cbn. repeat split; try tauto. lia.
  - unfold prev. destruct (0 <? index s)%nat eqn:E; [|exact Hk].
    apply Nat.ltb_lt in E. apply kept_load_image; [exact Hopen|].
    unfold kept, consistent in *. cbn. repeat split; try tauto. lia.
  - exact Hk.
  - unfold undo. rewrite Hbs. destruct (im_boxes im) as [|b bs] eqn:Eb; [exact Hk|].
    apply kept_render, kept_with_boxes; [exact Hc|]. intros Hd.
    apply removelast_drawn. now apply Hcur.
  - unfold delete_selected. destruct (selected_idx s) as [i|]; [|exact Hk].
    rewrite Hbs. destruct (i <? length (im_boxes im))%nat; [|exact Hk].
    apply kept_render, kept_set_selected_idx, kept_with_boxes; [exact Hc|]. intros Hd.
    apply delete_drawn. now apply Hcur.
Qed.

Lemma mainloop_kept (open : string -> option (Z * Z)) (evs : list Event) (s : State) :
  positive_sizes open -> consistent s ->
  kept s (fst (mainloop open evs s), None) /\
  Forall (fun e => is_open_error e = true) (snd (mainloop open evs s)).
Proof.
  intros Hopen. revert s. induction evs as [|ev evs IH]; intros s Hc.
  - cbn. split; [now apply kept_refl | constructor].
  - cbn [mainloop]. pose proof (handler_kept open ev s Hopen Hc) as Hk.
    destruct (handler open ev s) as [s1 e].
    assert (Hc1 : consistent s1) by apply Hk.
    destruct (IH s1 Hc1) as [Hk2 He2].
    destruct (mainloop open evs s1) as [s2 es]. cbn [fst snd] in *.
    split.
    + apply (kept_trans s s1); [|exact Hk2].
      destruct Hk as (H1 & H2 & H3 & H4 & H5 & _). unfold kept. cbn [fst snd] in *. auto 10.
    + destruct e as [x|]; [|exact He2]. constructor; [apply Hk | exact He2].
Qed.

(** ** The first state *)

Lemma records_of_spec (open : string -> option (Z * Z)) (ps : list string)
    (d : list ImageMeta) :
  records_of open ps = inr d ->
  Forall2 (fun p im => im_path im = p /\ open p = Some (im_width im, im_height im) /\
                       im_boxes im = []) ps d.
Proof.
  revert d. induction ps as [|p ps IH]; intros d; cbn.
  - intros [= <-]. constructor.
  - unfold record_of. destruct (open p) as [[w h]|] eqn:E; [|discriminate].
    destruct (records_of open ps) as [e|rs]; [discriminate|].
    intros [= <-]. constructor; [cbn; auto | now apply IH].
Qed.

Lemma init_spec (open : string -> option (Z * Z)) (size : Z * Z) (ps : list string)
    (out : string) (z : Q) (s : State) :
  positive_sizes open -> init open size ps out z = inr s ->
  consistent s /\ images s = ps /\ out_json s = out /\ index s = 0%nat /\
  Forall2 (fun p im => im_path im = p /\ open p = Some (im_width im, im_height im) /\
                       im_boxes im = []) ps (data s).
Proof.
  intros Hopen. unfold init.
  destruct (records_of open ps) as [e|d] eqn:Er; [discriminate|].
  apply records_of_spec in Er. unfold _load_image. cbn [images index].
  destruct (ps !! 0%nat) as [p|] eqn:Ep; [|discriminate].
  destruct (open p) as [[iw ih]|] eqn:Eo; [|discriminate].
  set (s0 := set_img _ _).
  assert (Hc : consistent s0).
  { unfold consistent, s0. cbn. split; [|split; [|split]].
    - apply lookup_lt_Some in Ep. exact Ep.
    - symmetry. eapply Forall2_length, Er.
    - reflexivity.
    - eapply Hopen, Eo. }
  destruct (render_ok s0 Hc) as (sc & -> & Hsc).
  intros [= <-]. split; [now apply consistent_set_scale|]. cbn. auto.
Qed.

(** ** What the handlers do to the page records *)

Lemma data_render (s : State) : data (fst (_render s)) = data s.
Proof. destruct (render_scale s) as (sc & e & -> & _). reflexivity. Qed.

Lemma index_render (s : State) : index (fst (_render s)) = index s.
Proof. destruct (render_scale s) as (sc & e & -> & _). reflexivity. Qed.

Lemma rect_start_render (s : State) : rect_start (fst (_render s)) = rect_start s.
Proof. destruct (render_scale s) as (sc & e & -> & _). reflexivity. Qed.

Lemma boxes_render (s : State) : boxes (fst (_render s)) = boxes s.
Proof. unfold boxes. now rewrite data_render, index_render. Qed.

Lemma data_load_image (open : string -> option (Z * Z)) (s : State) :
  data (fst (_load_image open s)) = data s.
Proof.
  unfold _load_image. destruct (images s !! index s) as [p|]; [|reflexivity].
  destruct (open p); [|reflexivity]. now rewrite data_render.
Qed.

Lemma data_clear_rect_id (s : State) :
  data (if rect_id s then set_rect_id s false else s) = data s.
Proof. now destruct (rect_id s). Qed.

Lemma index_clear_rect_id (s : State) :
  index (if rect_id s then set_rect_id s false else s) = index s.
Proof. now destruct (rect_id s). Qed.

Lemma rect_start_clear_rect_id (s : State) :
  rect_start (if rect_id s then set_rect_id s false else s) = rect_start s.
Proof. now destruct (rect_id s). Qed.

Lemma lookup_with_boxes_ne (s : State) (bs : list Box) (j : nat) :
  j <> index s -> data (with_boxes s bs) !! j = data s !! j.
Proof.
  intros Hj. unfold with_boxes. cbn [data set_data].
  apply list_lookup_alter_ne. congruence.
Qed.

Lemma boxes_with_boxes (s : State) (bs bs' : list Box) :
  boxes s = Some bs -> boxes (with_boxes s bs') = Some bs'.
Proof.
  unfold boxes, with_boxes. cbn [data index set_data]. intros H.
  rewrite list_lookup_alter. destruct (decide (index s = index s)); [|congruence].
  destruct (data s !! index s); [reflexivity | discriminate].
Qed.

Lemma alter_boxes_back (d : list ImageMeta) (i : nat) (im : ImageMeta) (bs' : list Box) :
  d !! i = Some im ->
  alter (fun x => mkImageMeta (im_path x) (im_width x) (im_height x) (im_boxes im)) i
    (alter (fun x => mkImageMeta (im_path x) (im_width x) (im_height x) bs') i d)
  = d.
Proof.
  revert i. induction d as [|x d IH]; intros [|i]; cbn; try discriminate.
  - intros [= ->]. now destruct im.
  - intros H. f_equal. now apply IH.
Qed.



End AnnotateFacts.

Section Annotator.

Import Annotate AnnotateFacts.

Variable open : string -> option (Z * Z).
Hypothesis open_positive : positive_sizes open.


(** X: what a session saves.  The file written on quitting is the output
    path given at the start; it lists the images given at the start, in
    their order, each with the size it had when the annotator started, and
    every box in it has no text and a width and a height that are not
    negative. *)
Theorem saved_regions_well_formed (size : Z * Z) (paths : list string) (out : string)
    (init_zoom : Q) (s : State) (evs : list Event) :
  init open size paths out init_zoom = inr s ->
  fst (session open evs s) = out /\
  Forall2 (fun p im => im_path im = p /\ open p = Some (im_width im, im_height im))
          paths (snd (session open evs s)) /\
  drawn_boxes (snd (session open evs s)).
Proof.
  intros Hi. apply (init_spec open size paths out init_zoom s open_positive) in Hi.
  destruct Hi as (Hc & Him & Hout & _ & Hd).
  destruct (mainloop_kept open evs s open_positive Hc) as [(_ & _ & Ho & Hp & Hb & _) _].
  unfold session, save. cbn [fst snd] in *.
  split; [congruence|]. split.
  - clear - Hp Hd.
    remember (data (fst (mainloop open evs s))) as d' eqn:E. clear E.
    revert d' Hp. induction Hd as [|p im ps d (Hpath & Hopen & _) _ IH]; intros d' Hp.
    + destruct d'; [constructor | discriminate].
    + destruct d' as [|im' d']; [discriminate|]. cbn in Hp.
      unfold page_of at 1 3 in Hp. injection Hp as H1 H2 H3 Hrest.
      constructor; [|now apply IH]. split; congruence.
  - apply Hb. clear - Hd. unfold drawn_boxes.
    induction Hd as [|p im ps d (_ & _ & Hnil) _ IH]; constructor; [|exact IH].
    rewrite Hnil. constructor.
Qed.

(** X: releasing the mouse button.  A drag of less than 5 canvas pixels
    in either direction adds nothing.  A longer one appends one box, of a
    width and a height that are not negative, to the page shown and
    changes no other page, and undoing it gives back the regions as they
    were. *)
Theorem drag_adds_one_box (s : State) (x0 y0 cx cy : Q) (bs : list Box) :
  consistent s -> rect_start s = Some (x0, y0) -> boxes s = Some bs ->
  snd (_on_up cx cy s) = None /\
  rect_start (fst (_on_up cx cy s)) = None /\
  ((Qabs (cx - x0) < 5 \/ Qabs (cy - y0) < 5)%Q ->
   data (fst (_on_up cx cy s)) = data s) /\
  ((5 <= Qabs (cx - x0) /\ 5 <= Qabs (cy - y0))%Q ->
   exists b,
     boxes (fst (_on_up cx cy s)) = Some (bs ++ [b]) /\ drawn_box b /\
     (forall j, j <> index s -> data (fst (_on_up cx cy s)) !! j = data s !! j) /\
     data (fst (undo (fst (_on_up cx cy s)))) = data s).
Proof.
  intros Hc Hr Hbs. unfold _on_up. rewrite Hr. cbv zeta.
  assert (Hs : (0 < scale s)%Q) by apply Hc.
  assert (Ez : Qeq_bool (scale s) 0 = false).
  { destruct (Qeq_bool (scale s) 0) eqn:E; [|reflexivity].
    apply Qeq_bool_eq in E. rewrite E in Hs. discriminate. }
  destruct (py_lt (Qabs (cx - x0)) 5 || py_lt (Qabs (cy - y0)) 5) eqn:Esmall.
  - cbn [fst snd]. rewrite rect_start_clear_rect_id, data_clear_rect_id. cbn.
    repeat split; auto.
    intros [H1 H2]. apply orb_true_iff in Esmall as [E | E]; apply py_lt_spec in E.
    + exfalso. now apply (Qlt_not_le _ _ E).
    + exfalso. now apply (Qlt_not_le _ _ E).
  - cbn [scale set_rect_start]. rewrite Ez.
    change (boxes (set_rect_start s None)) with (boxes s). rewrite Hbs.
    set (b := mkBox _ _ _ _ None).
    set (s2 := with_boxes (set_rect_start s None) (bs ++ [b])).
    assert (Hc2 : consistent (if rect_id s2 then set_rect_id s2 false else s2)).
    { apply consistent_clear_rect_id, consistent_with_boxes. exact Hc. }
    destruct (render_ok _ Hc2) as (sc & -> & Hsc). cbn [fst snd].
    assert (Hd2 : data (set_scale (if rect_id s2 then set_rect_id s2 false else s2) sc)
                  = data s2).
    { now destruct (rect_id s2). }
    assert (Hi2 : index (set_scale (if rect_id s2 then set_rect_id s2 false else s2) sc)
                  = index s).
    { now destruct (rect_id s2). }
    split; [reflexivity|]. split; [now destruct (rect_id s2)|]. split.
    { intros [H | H]; apply py_lt_spec in H;
        apply orb_false_iff in Esmall as [E1 E2]; congruence. }
    intros _. exists b.
    assert (Hb2 : boxes (set_scale (if rect_id s2 then set_rect_id s2 false else s2) sc)
                  = Some (bs ++ [b])).
    { unfold boxes. rewrite Hd2, Hi2.
      change (boxes s2 = Some (bs ++ [b])).
      apply (boxes_with_boxes (set_rect_start s None) bs). exact Hbs. }
    split; [exact Hb2|]. split; [now apply drawn_new_box|]. split.
    { intros j Hj. rewrite Hd2. now apply (lookup_with_boxes_ne (set_rect_start s None)). }
    unfold undo. rewrite Hb2.
    destruct (bs ++ [b]) as [|c r] eqn:Eapp; [destruct bs; discriminate|].
    rewrite <- Eapp, removelast_last, data_render.
    unfold with_boxes at 1. cbn [data set_data]. rewrite Hd2, Hi2.
    unfold s2, with_boxes. cbn [data index set_data set_rect_start].
    destruct (boxes_consistent s Hc) as (im & Him & Hbs').
    assert (bs = im_boxes im) by congruence. subst bs.
    now apply alter_boxes_back.
Qed.


(** X: which handlers change the regions.  Only releasing the mouse
    button, [Z] and [D] change the page records, and they change the
    record of the page shown only; zooming, resizing, clicking, turning
    the page and saving leave every record as it is. *)
Theorem handlers_edit_current_page (ev : Event) (s : State) :
  (forall j, j <> index s -> data (fst (handler open ev s)) !! j = data s !! j) /\
  match ev with
  | ButtonRelease1 _ _ | KeyZ | KeyD => True
  | _ => data (fst (handler open ev s)) = data s
  end.
Proof.
  assert (Hsame : forall s', data s' = data s ->
            forall j, j <> index s -> data s' !! j = data s !! j).
  { intros s' -> j _. reflexivity. }
  destruct ev as [size|cx cy|cx cy|cx cy|cx cy| | | | | | |]; cbn [handler].
  - assert (H : data (fst (_on_resize size s)) = data s).
    { unfold _on_resize. now rewrite data_render. }
    auto.
  - assert (H : data (fst (_on_down cx cy s)) = data s).
    { unfold _on_down. destruct (_hit_test s cx cy) as [e|[i|]]; [reflexivity | |].
      - now rewrite data_render.
      - cbv zeta. cbn [fst]. now rewrite data_clear_rect_id. }
    auto.
  - assert (H : data (fst (_on_drag cx cy s)) = data s).
    { unfold _on_drag. now destruct (rect_start s). }
    auto.
  - split; [|exact I]. intros j Hj. unfold _on_up.
    destruct (rect_start s) as [[x0 y0]|]; [|reflexivity]. cbv zeta.
    destruct (_ || _); [cbn [fst]; now rewrite data_clear_rect_id|].
    destruct (Qeq_bool _ 0); [reflexivity|].
    destruct (boxes (set_rect_start s None)) as [bs|]; [|reflexivity].
    rewrite data_render, data_clear_rect_id.
    now apply (lookup_with_boxes_ne (set_rect_start s None)).
  - assert (H : data (fst (_on_right_click cx cy s)) = data s).
    { unfold _on_right_click. destruct (_hit_test s cx cy); [reflexivity|].
      now rewrite data_render. }
    auto.
  - assert (H : data (fst (_zoom (115 # 100) s)) = data s).
    { unfold _zoom. now rewrite data_render. }
    auto.
  - assert (H : data (fst (_zoom (1 / (115 # 100)) s)) = data s).
    { unfold _zoom. now rewrite data_render. }
    auto.
  - assert (H : data (fst (next open s)) = data s).
    { unfold next. destruct (_ <? _); [|reflexivity]. now rewrite data_load_image. }
    auto.
  - assert (H : data (fst (prev open s)) = data s).
    { unfold prev. destruct (_ <? _)%nat; [|reflexivity]. now rewrite data_load_image. }
    auto.
  - auto.
  - split; [|exact I]. intros j Hj. unfold undo.
    destruct (boxes s) as [[|b bs]|]; try reflexivity.
    rewrite data_render. now apply lookup_with_boxes_ne.
  - split; [|exact I]. intros j Hj. unfold delete_selected.
    destruct (selected_idx s) as [i|]; [|reflexivity].
    destruct (boxes s) as [bs|]; [|reflexivity].
    destruct (i <? length bs)%nat; [|reflexivity].
    rewrite data_render. cbn [data set_selected_idx].
    now apply lookup_with_boxes_ne.
Qed.

End Annotator.

(** * Pages of a PDF as images *)

Module PdfFacts.
Import PdfToImages.

Local Open Scope string_scope.

(** ** The page number can be read back from the file name *)

Lemma uint_of_zeros (n : nat) (s : string) (d : Decimal.uint) :
  DecimalString.NilEmpty.uint_of_string s = Some d ->
  exists d', DecimalString.NilEmpty.uint_of_string (zeros n ++ s) = Some d' /\
             Nat.of_uint d' = Nat.of_uint d.
Proof.
  intros H. induction n as [|n (d' & Hd' & Hn)]; [eauto|].
  cbn [zeros String.append]. exists (Decimal.D0 d').
  split; [|exact Hn].
  cbn. rewrite Hd'. reflexivity.
Qed.

Lemma format_03d_inj (i j : nat) : format_03d i = format_03d j -> i = j.
Proof.
  unfold format_03d, decimal. intros H.
  destruct (uint_of_zeros (3 - String.length (DecimalString.NilEmpty.string_of_uint (Nat.to_uint i)))
              _ _ (DecimalString.NilEmpty.usu (Nat.to_uint i))) as (di & Hi & Hni).
  destruct (uint_of_zeros (3 - String.length (DecimalString.NilEmpty.string_of_uint (Nat.to_uint j)))
              _ _ (DecimalString.NilEmpty.usu (Nat.to_uint j))) as (dj & Hj & Hnj).
  rewrite H in Hi. rewrite Hi in Hj. injection Hj as ->.
  rewrite DecimalNat.Unsigned.of_to in Hni, Hnj. congruence.
Qed.

Lemma append_inv_head (a s t : string) : a ++ s = a ++ t -> s = t.
Proof. induction a as [|c a IH]; cbn; [auto|]. intros [= H]. auto. Qed.

Lemma page_name_inj (i j : nat) (fmt : string) :
  page_name i fmt = page_name j fmt -> i = j.
Proof.
  unfold page_name. intros H. apply append_inv_head in H.
  apply format_03d_inj. revert H. generalize ("." ++ fmt).
  intros t H. now apply string_app_inv_tail in H.
Qed.

(** ** The order of the file names *)

Lemma compare_app_head (a s t : string) :
  String.compare (a ++ s) (a ++ t) = String.compare s t.
Proof.
  induction a as [|c a IH]; cbn; [reflexivity|].
  assert (E : Ascii.compare c c = Eq).
  { unfold Ascii.compare. apply N.compare_refl. }
  now rewrite E.
Qed.

Lemma strictly_before_app (a b r r' : string) :
  strictly_before a b = true -> String.compare (a ++ r) (b ++ r') = Lt.
Proof.
  revert b. induction a as [|c a IH]; intros [|d b]; cbn; try discriminate.
  destruct (Ascii.compare c d); auto. discriminate.
Qed.

Lemma ascending_nth (l : list string) (i j : nat) :
  ascending l = true -> (i < j < length l)%nat ->
  strictly_before (nth i l "") (nth j l "") = true.
Proof.
  revert i j. induction l as [|a l IH]; intros i j H Hij; [cbn in Hij; lia|].
  cbn in H. apply andb_true_iff in H as [Ha Hl].
  destruct j as [|j]; [lia|]. destruct i as [|i].
  - cbn. rewrite forallb_forall in Ha. apply Ha. apply nth_In. cbn in Hij. lia.
  - cbn. apply IH; [exact Hl|]. cbn in Hij. lia.
Qed.

Lemma first_thousand_ascending : ascending (map format_03d (seq 0 1000)) = true.
Proof. vm_compute. reflexivity. Qed.

Lemma format_03d_lt (i j : nat) :
  (i < j < 1000)%nat -> strictly_before (format_03d i) (format_03d j) = true.
Proof.
  intros H.
  pose proof (ascending_nth _ i j first_thousand_ascending) as Hn.
  rewrite length_map, length_seq in Hn. specialize (Hn H).
  rewrite !(nth_indep _ "" (format_03d 0)) in Hn by (rewrite length_map, length_seq; lia).
  rewrite !map_nth, !seq_nth in Hn by lia. exact Hn.
Qed.

Lemma four_digits_before_999 :
  forallb (fun k => strictly_before (format_03d k) (format_03d 999)) (seq 1000 4000) = true.
Proof. vm_compute. reflexivity. Qed.

Lemma format_03d_four_digits (k : nat) :
  (1000 <= k < 5000)%nat -> strictly_before (format_03d k) (format_03d 999) = true.
Proof.
  intros H. pose proof four_digits_before_999 as Hall.
  rewrite forallb_forall in Hall. apply Hall. apply in_seq. lia.
Qed.

(** ** The path of a page file *)

Import PyPath PyPathFacts.

Local Close Scope string_scope.

Lemma slash_free_string_app (a b : string) :
  slash_free (list_ascii_of_string a) -> slash_free (list_ascii_of_string b) ->
  slash_free (list_ascii_of_string (a ++ b)%string).
Proof. rewrite list_ascii_of_string_app. apply slash_free_app. Qed.

Lemma slash_free_zeros (n : nat) : slash_free (list_ascii_of_string (zeros n)).
Proof. induction n; cbn; constructor; auto. Qed.

Lemma slash_free_uint (d : Decimal.uint) :
  slash_free (list_ascii_of_string (DecimalString.NilEmpty.string_of_uint d)).
Proof. induction d; cbn; constructor; auto. Qed.

Lemma slash_free_page_name (i : nat) (fmt : string) :
  slash_free (list_ascii_of_string fmt) ->
  slash_free (list_ascii_of_string (page_name i fmt)).
Proof.
  intros H. unfold page_name, format_03d, decimal.
  repeat apply slash_free_string_app; auto.
  - repeat constructor.
  - apply slash_free_zeros.
  - apply slash_free_uint.
  - repeat constructor.
Qed.

Lemma ends_with_slash (a : list ascii) :
  a <> [] -> is_slash (List.last a dot) = true -> exists a', a = a' ++ [slash].
Proof.
  intros Hne H. exists (removelast a).
  rewrite (app_removelast_last dot Hne) at 1. f_equal. f_equal.
  now apply Ascii.eqb_eq in H.
Qed.

Lemma last_component_join (a nm : list ascii) :
  slash_free nm -> nm <> [] -> last_component (posix_join a nm) = nm.
Proof.
  intros Hf Hne. unfold posix_join.
  destruct nm as [|c nm']; [congruence|].
  assert (Hc : is_slash c = false) by now inversion Hf.
  rewrite Hc.
  destruct a as [|x a'].
  - cbn [is_empty orb app]. unfold last_component.
    now rewrite (split_sep_of_slash_free _ Hf).
  - cbn [is_empty orb].
    destruct (is_slash (List.last (x :: a') dot)) eqn:E.
    + destruct (ends_with_slash (x :: a')) as [a'' ->]; [discriminate | exact E|].
      rewrite <- app_assoc. cbn [app]. now apply last_component_after_slash.
    + now apply last_component_after_slash.
Qed.

Lemma name_of_to_str (s : list ascii) :
  name (parse s) <> [] -> last_component (to_str (parse s)) = name (parse s).
Proof.
  intros Hn. pose proof (parse_parts_slash_free s) as Hf.
  pose proof (parse_root s) as Hr.
  destruct (parse s) as [r ps]. unfold name in *. cbn [parts root] in *.
  assert (Hps : ps <> []) by (intros ->; now apply Hn).
  rewrite (app_removelast_last [] Hps) at 1.
  pose proof (last_component_to_str r (removelast ps) (List.last ps []) [] Hr) as H.
  rewrite !app_nil_r in H. apply H.
  rewrite List.Forall_forall in Hf. apply Hf. now apply last_In.
Qed.

Lemma name_page_file (outdir : string) (i : nat) (fmt : string) :
  slash_free (list_ascii_of_string fmt) ->
  last_component (list_ascii_of_string (page_file outdir i fmt))
  = list_ascii_of_string (page_name i fmt).
Proof.
  intros Hf. unfold page_file. rewrite list_ascii_of_string_of_list_ascii.
  pose proof (slash_free_page_name i fmt Hf) as Hn.
  assert (Hne : list_ascii_of_string (page_name i fmt) <> []) by discriminate.
  pose proof (last_component_join (list_ascii_of_string outdir) _ Hn Hne) as Hl.
  assert (Hk : keep_part (last_component
                 (posix_join (list_ascii_of_string outdir)
                             (list_ascii_of_string (page_name i fmt)))) = true).
  { rewrite Hl. reflexivity. }
  pose proof (name_parse _ Hk) as Hname. rewrite Hl in Hname.
  rewrite name_of_to_str; rewrite Hname; [reflexivity | exact Hne].
Qed.

Lemma page_file_inj (outdir : string) (fmt : string) (i j : nat) :
  slash_free (list_ascii_of_string fmt) ->
  page_file outdir i fmt = page_file outdir j fmt -> i = j.
Proof.
  intros Hf H. apply (page_name_inj i j fmt).
  apply (f_equal (fun s => last_component (list_ascii_of_string s))) in H.
  rewrite !name_page_file in H by exact Hf.
  apply (f_equal string_of_list_ascii) in H.
  now rewrite !string_of_list_ascii_of_string in H.
Qed.

(** ** The files of a run *)

Lemma save_pages_paths (w : World) (outdir : string) (dpi : Z) (fmt : string) (i n : nat) :
  exists k,
    (k <= n)%nat /\
    saved_paths (snd (save_pages w outdir dpi fmt i n))
    = map (fun p => page_file outdir p fmt) (seq i k) /\
    (fst (save_pages w outdir dpi fmt i n) = Ok tt -> k = n).
Proof.
  revert i. induction n as [|n IH]; intros i; cbn [save_pages].
  - exists 0%nat. cbn. auto.
  - destruct (save_pixmap w i dpi (page_file outdir i fmt)).
    + destruct (IH (S i)) as (k & Hk & Hp & Hok).
      destruct (save_pages w outdir dpi fmt (S i) n) as [r t]. cbn [fst snd] in *.
      exists (S k). split; [lia|]. split.
      * unfold saved_paths in *. cbn [omap list_omap seq map]. cbn. now rewrite Hp.
      * intros H. f_equal. auto.
    + exists 1%nat. cbn. split; [lia|]. split; [reflexivity | discriminate].
Qed.

End PdfFacts.

Section PdfPages.

Import PdfToImages PdfFacts.

(** X: the page images of a run.  With a format that holds no slash, the
    files a run writes are pairwise distinct, so that no page overwrites
    another, and a run that returns has written the pages 1 to n of the
    PDF, in order, to [page_001], [page_002], ... of the output folder. *)
Theorem pages_written_to_distinct_files (w : World) (pdf_path outdir : string) (dpi : Z)
    (fmt : string) :
  PyPath.slash_free (list_ascii_of_string fmt) ->
  List.NoDup (saved_paths (snd (pdf_to_pngs w pdf_path outdir dpi fmt))) /\
  (fst (pdf_to_pngs w pdf_path outdir dpi fmt) = Ok tt ->
   exists n,
     open_pdf w pdf_path = Ok n /\
     saved_paths (snd (pdf_to_pngs w pdf_path outdir dpi fmt))
     = map (fun i => page_file outdir i fmt) (seq 1 n)).
Proof.
  intros Hf. unfold pdf_to_pngs. cbv zeta.
  destruct (mkdir w (source_str outdir)); [|split; [constructor | discriminate]].
  destruct (open_pdf w pdf_path) as [n|]; [|split; [constructor | discriminate]].
  destruct (save_pages_paths w outdir dpi fmt 1 n) as (k & Hk & Hp & Hok).
  destruct (save_pages w outdir dpi fmt 1 n) as [r t]. cbn [fst snd] in *.
  assert (Hs : saved_paths
                 (EvMkdir (source_str outdir) :: EvOpen pdf_path
                  :: t ++ match r with Ok _ => [EvPrint "Done."] | Raise _ => [] end)
               = map (fun p => page_file outdir p fmt) (seq 1 k)).
  { unfold saved_paths in *. cbn [omap list_omap]. rewrite omap_app, Hp.
    destruct r; cbn; now rewrite app_nil_r. }
  rewrite Hs. split.
  - apply Finite.Injective_map_NoDup; [|apply List.seq_NoDup].
    intros i j H. now apply (page_file_inj outdir fmt).
  - intros H. exists n. split; [reflexivity|]. now rewrite (Hok H).
Qed.

(** X: the order of the page files.  For fewer than 1000 pages the file
    names sort, as strings, in the order of the pages, which is the order
    in which the annotator lists a folder.  From page 1000 on they do not:
    the files of the pages 1000 to 4999 sort before the file of page 999. *)
Theorem page_names_sorted (i j k : nat) (fmt : string) :
  ((i < j < 1000)%nat -> before (page_name i fmt) (page_name j fmt)) /\
  ((1000 <= k < 5000)%nat -> before (page_name k fmt) (page_name 999 fmt)).
Proof.
  unfold before, page_name. split; intros H; rewrite compare_app_head.
  - apply strictly_before_app. now apply format_03d_lt.
  - apply strictly_before_app. now apply format_03d_four_digits.
Qed.

End PdfPages.

(** ** Further concrete runs *)

Lemma erase_mask_same_elements_witness :
  erase_mask 6 8 Cases.two_boxes 1 = erase_mask 6 8 Cases.two_boxes_again 1.
Proof.
  apply (erase_mask_same_elements 6 8 1 Cases.two_boxes Cases.two_boxes_again).
  intros b. cbn. tauto.
Defined.

Lemma erase_mask_monotone_witness :
  pixel (erase_mask 6 8 Cases.two_boxes 1) 4 2 = Some 255.
Proof.
  apply (erase_mask_monotone 6 8 1 Demo.small_boxes Cases.two_boxes 4 2).
  - intros b. cbn. tauto.
  - vm_compute. reflexivity.
Defined.

Lemma unreadable_image_is_fatal_witness :
  (exists e,
     outcome (build_from_json Cases.world_missing_page
                (Demo.args (Some "out.pptx"%string) None false)) = Raise e) /\
  no_save (trace (build_from_json Cases.world_missing_page
                    (Demo.args (Some "out.pptx"%string) None false))).
Proof.
  apply (unreadable_image_is_fatal Cases.world_missing_page
           (Demo.args (Some "out.pptx"%string) None false)
           (Demo.images ++ [Cases.missing_page]) Cases.missing_page).
  - reflexivity.
  - right. right. left. reflexivity.
  - left. eexists. reflexivity.
Defined.

Lemma page1_ok_zero_dpi : page_ok Demo.world Cases.args_zero_dpi Demo.page1.
Proof.
  split; [eexists; reflexivity|]. split.
  - intros _ b _. eexists. reflexivity.
  - intros _. split; [eexists; reflexivity|]. vm_compute. discriminate.
Qed.

Lemma zero_dpi_fails_late_witness :
  outcome (build_from_json Demo.world Cases.args_zero_dpi) = Raise ZeroDivisionError /\
  no_save (trace (build_from_json Demo.world Cases.args_zero_dpi)) /\
  (exists tl, trace (build_from_json Demo.world Cases.args_zero_dpi)
              = EvReadRegionFile (json_path Cases.args_zero_dpi)
                  :: EvImageOpen (im_path Demo.page1) :: tl) /\
  (erase Cases.args_zero_dpi = true ->
   exists out mask,
     In (EvImwrite out mask (radius Cases.args_zero_dpi))
        (trace (build_from_json Demo.world Cases.args_zero_dpi))).
Proof.
  apply (zero_dpi_fails_late Demo.world Cases.args_zero_dpi Demo.page1 [Demo.page2]).
  - reflexivity.
  - reflexivity.
  - exact page1_ok_zero_dpi.
Defined.



Lemma formats_agree_witness :
  exists prs doc pages,
    In (EvSavePptx "out.pptx" prs) (trace (build_from_json Demo.world Cases.both)) /\
    In (EvSaveDocx "out.docx" doc) (trace (build_from_json Demo.world Cases.both)) /\
    doc_body doc = join_pages pages /\
    Forall2 (fun s tbs => slide_summary s = docx_summary tbs) (slides prs) pages /\
    map slide_image_files (slides prs)
    = map (fun hp => [fst (fst hp)]) (header_pictures (doc_section doc)).
Proof.
  apply (formats_agree Demo.world Cases.both "out.pptx" "out.docx").
  - vm_compute. reflexivity.
  - reflexivity.
  - discriminate.
  - reflexivity.
  - discriminate.
Defined.



Lemma clean_path_forgets_suffix_witness :
  "pages/p_clean.png"%string = "pages/p_clean.png"%string /\
  "pages/p_clean.png"%string = ("pages/p" ++ "_clean.png")%string.
Proof.
  apply (clean_path_forgets_suffix "pages/p.png" "pages/p.jpg" "pages/p"
           "pages/p_clean.png" "pages/p_clean.png"); reflexivity.
Defined.

Lemma slide_size_is_last_page_witness :
  exists prs size,
    In (EvSavePptx "out.pptx" prs)
       (trace (build_from_json Demo.world (Demo.args (Some "out.pptx"%string) None false))) /\
    image_open Demo.world (im_path Demo.page2) = Ok size /\
    forall s, In s (slides prs) ->
      slide_size prs s
      = page_physical_size (dpi (Demo.args (Some "out.pptx"%string) None false)) size.
Proof.
  apply (slide_size_is_last_page Demo.world (Demo.args (Some "out.pptx"%string) None false)
           [Demo.page1] Demo.page2 "out.pptx").
  - vm_compute. reflexivity.
  - reflexivity.
  - reflexivity.
  - discriminate.
Defined.


(** *** The annotator *)

Lemma open_scans_positive : Annotate.positive_sizes Cases.open_scans.
Proof.
  intros p iw ih. unfold Cases.open_scans.
  destruct (p =? "scans/a.png")%string; [intros [= <- <-]; lia|].
  destruct (p =? "scans/b.png")%string; [intros [= <- <-]; lia | discriminate].
Qed.


Lemma saved_regions_well_formed_witness :
  fst (Annotate.session Cases.open_scans Cases.events Cases.start) = "boxes.json"%string /\
  Forall2 (fun p im => im_path im = p /\
                       Cases.open_scans p = Some (im_width im, im_height im))
          ["scans/a.png"; "scans/b.png"]%string
          (snd (Annotate.session Cases.open_scans Cases.events Cases.start)) /\
  Annotate.drawn_boxes (snd (Annotate.session Cases.open_scans Cases.events Cases.start)).
Proof.
  apply (saved_regions_well_formed Cases.open_scans open_scans_positive (800, 600)
           ["scans/a.png"; "scans/b.png"]%string "boxes.json" (3 # 2) Cases.start
           Cases.events).
  vm_compute. reflexivity.
Defined.

Lemma pressed_consistent : Annotate.consistent Cases.pressed.
Proof. vm_compute. repeat split; lia. Qed.

Lemma drag_adds_one_box_witness :
  snd (Annotate._on_up 200 180 Cases.pressed) = None /\
  Annotate.rect_start (fst (Annotate._on_up 200 180 Cases.pressed)) = None /\
  ((Qabs (200 - 100) < 5 \/ Qabs (180 - 100) < 5)%Q ->
   Annotate.data (fst (Annotate._on_up 200 180 Cases.pressed)) = Annotate.data Cases.pressed) /\
  ((5 <= Qabs (200 - 100) /\ 5 <= Qabs (180 - 100))%Q ->
   exists b,
     Annotate.boxes (fst (Annotate._on_up 200 180 Cases.pressed)) = Some ([] ++ [b]) /\
     Annotate.drawn_box b /\
     (forall j, j <> Annotate.index Cases.pressed ->
        Annotate.data (fst (Annotate._on_up 200 180 Cases.pressed)) !! j
        = Annotate.data Cases.pressed !! j) /\
     Annotate.data (fst (Annotate.undo (fst (Annotate._on_up 200 180 Cases.pressed))))
     = Annotate.data Cases.pressed).
Proof.
  apply (drag_adds_one_box Cases.pressed 100 100 200 180 []).
  - exact pressed_consistent.
  - vm_compute. reflexivity.
  - vm_compute. reflexivity.
Defined.


(** *** The pages of a PDF *)

Lemma pages_written_to_distinct_files_witness :
  List.NoDup (PdfToImages.saved_paths
                (snd (PdfToImages.pdf_to_pngs Cases.pdf_world "in.pdf" "pages" 300 "png"))) /\
  (fst (PdfToImages.pdf_to_pngs Cases.pdf_world "in.pdf" "pages" 300 "png") = Ok tt ->
   exists n,
     PdfToImages.open_pdf Cases.pdf_world "in.pdf" = Ok n /\
     PdfToImages.saved_paths
       (snd (PdfToImages.pdf_to_pngs Cases.pdf_world "in.pdf" "pages" 300 "png"))
     = map (fun i => PdfToImages.page_file "pages" i "png") (seq 1 n)).
Proof.
  apply (pages_written_to_distinct_files Cases.pdf_world "in.pdf" "pages" 300 "png").
  repeat constructor.
Defined.

(** The runs above, evaluated. *)
Lemma further_runs :
  PdfToImages.pdf_to_pngs Cases.pdf_world "in.pdf" "pages" 300 "png"
  = (Ok tt,
     [PdfToImages.EvMkdir "pages"; PdfToImages.EvOpen "in.pdf";
      PdfToImages.EvSave 1 300 "pages/page_001.png";
      PdfToImages.EvPrint "Saved pages/page_001.png";
      PdfToImages.EvSave 2 300 "pages/page_002.png";
      PdfToImages.EvPrint "Saved pages/page_002.png";
      PdfToImages.EvSave 3 300 "pages/page_003.png";
      PdfToImages.EvPrint "Saved pages/page_003.png";
      PdfToImages.EvPrint "Done."]) /\
  map PdfToImages.format_03d [0; 7; 42; 999; 1000]%nat
  = ["000"; "007"; "042"; "999"; "1000"]%string /\
  map (fun im => (im_path im, im_boxes im))
      (snd (Annotate.session Cases.open_scans Cases.events Cases.start))
  = [("scans/a.png"%string, [mkBox 50 50 50 40 None]);
     ("scans/b.png"%string, [])] /\
  snd (Annotate.mainloop Cases.open_scans Cases.events Cases.start) = [].
Proof. vm_compute. repeat split. Qed.
